(** * RealtimeAPIxAnki: the voice study-session orchestrator

    A shallow embedding of the [useRealtimeSession] hook
    (the atomic-turn version, with [AnkiService], [AnkiConnectService]
    and [MOCK_DECK]), and the properties of its session state that the
    specification states.

    JavaScript values that the code handles as [any] (cards returned by
    AnkiConnect, parsed tool-call arguments) are embedded as [JsValue];
    [async] functions are embedded as computations in a state-and-exception
    monad, each handler running to completion before the next one starts.
    The effect that clears the verdict badge is embedded apart, on a
    logical clock (module [Badge]). *)

From Stdlib Require Import ZArith String Ascii List Bool Lia.
From stdpp Require Import base option list strings gmap pretty.

Set Warnings "-register-all".
Local Open Scope string_scope.
Local Open Scope list_scope.
Local Open Scope Z_scope.

(** ** JavaScript values *)

Module Js.

Inductive JsValue : Type :=
| JUndefined
| JNull
| JBool (b : bool)
| JNum (n : Z)
| JStr (s : string)
| JArr (xs : list JsValue)
| JObj (props : list (string * JsValue)).

(** A thrown [Error]: its constructor name and its [message]. *)
Record JsError : Type := mkError { ename : string; message : string }.

Inductive Result (A : Type) : Type :=
| Ok (a : A)
| Throw (e : JsError).
Arguments Ok {A} a.
Arguments Throw {A} e.

(** ToBoolean. *)
Definition truthy (v : JsValue) : bool :=
  match v with
  | JUndefined | JNull => false
  | JBool b => b
  | JNum n => negb (n =? 0)
  | JStr s => negb (String.eqb s EmptyString)
  | JArr _ | JObj _ => true
  end.

(** A [string | null | undefined] operand in a condition. *)
Definition truthy_str (o : option string) : bool :=
  match o with
  | Some s => negb (String.eqb s EmptyString)
  | None => false
  end.

Fixpoint own_prop (k : string) (props : list (string * JsValue)) : JsValue :=
  match props with
  | [] => JUndefined
  | (k', v) :: rest => if String.eqb k k' then v else own_prop k rest
  end.

Definition nullish (v : JsValue) : bool :=
  match v with
  | JUndefined | JNull => true
  | _ => false
  end.

(** [v.k] on a value that is neither [null] nor [undefined]; the keys the
    hook reads are never inherited ones. *)
Definition prop_of (v : JsValue) (k : string) : JsValue :=
  match v with
  | JObj props => own_prop k props
  | JArr xs => if String.eqb k "length" then JNum (Z.of_nat (length xs)) else JUndefined
  | JStr s => if String.eqb k "length" then JNum (Z.of_nat (String.length s)) else JUndefined
  | _ => JUndefined
  end.

Definition type_error (v : JsValue) (k : string) : JsError :=
  mkError "TypeError"
    ("Cannot read properties of "
       +:+ (match v with JNull => "null" | _ => "undefined" end)
       +:+ " (reading '" +:+ k +:+ "')").

(** [v.k] *)
Definition get_prop (v : JsValue) (k : string) : Result JsValue :=
  if nullish v then Throw (type_error v k) else Ok (prop_of v k).

(** [v?.k] *)
Definition opt_chain (v : JsValue) (k : string) : JsValue :=
  if nullish v then JUndefined else prop_of v k.

(** [a || b] *)
Definition js_or (a b : JsValue) : JsValue := if truthy a then a else b.

(** [a === 'lit'] *)
Definition strict_eq_str (a : JsValue) (lit : string) : bool :=
  match a with
  | JStr s => String.eqb s lit
  | _ => false
  end.

(** Sequencing of two steps that may throw. *)
Definition and_then {A B} (r : Result A) (k : A -> Result B) : Result B :=
  match r with
  | Ok a => k a
  | Throw e => Throw e
  end.

Fixpoint has_own (k : string) (props : list (string * JsValue)) : bool :=
  match props with
  | [] => false
  | (k', _) :: rest => String.eqb k k' || has_own k rest
  end.

(** What ToPrimitive throws for an object that has neither a callable
    [toString] nor a [valueOf] that returns a primitive. *)
Definition not_primitive : JsError :=
  mkError "TypeError" "Cannot convert object to primitive value".

(** ToString, as a template literal applies it. The values are those of
    [JSON.parse]: no property of theirs is callable, so an object with
    an own [toString] property hides [Object.prototype.toString] and
    cannot be converted ([Object.prototype.valueOf] returns the object
    itself); an array is joined, its elements converted in turn. *)
Fixpoint to_string (v : JsValue) : Result string :=
  match v with
  | JUndefined => Ok "undefined"
  | JNull => Ok "null"
  | JBool true => Ok "true"
  | JBool false => Ok "false"
  | JNum n => Ok (pretty n)
  | JStr s => Ok s
  | JArr xs =>
      (fix join (l : list JsValue) : Result string :=
         match l with
         | [] => Ok EmptyString
         | x :: rest =>
             and_then (if nullish x then Ok EmptyString else to_string x) (fun first =>
             match rest with
             | [] => Ok first
             | _ => and_then (join rest) (fun others => Ok (first +:+ "," +:+ others))
             end)
         end) xs
  | JObj props =>
      if has_own "toString" props then Throw not_primitive else Ok "[object Object]"
  end.

(** The value can be converted to text. *)
Definition printable (v : JsValue) : bool :=
  match to_string v with
  | Ok _ => true
  | Throw _ => false
  end.

Definition opt_to_string (o : option string) : string :=
  match o with
  | Some s => s
  | None => "undefined"
  end.

(** [`${f}`] for the built-in function [name], as V8 prints it. *)
Definition native_function (name : string) : string :=
  "function " +:+ name +:+ "() { [native code] }".

(** [`${o[k]}`] for a plain object [o] that has no own property [k]:
    the property inherited from [Object.prototype], if there is one. *)
Definition inherited_to_string (k : string) : string :=
  if String.eqb k "__proto__" then "[object Object]"
  else if String.eqb k "constructor" then native_function "Object"
  else if existsb (String.eqb k)
            ["toString"; "toLocaleString"; "valueOf"; "hasOwnProperty"; "isPrototypeOf";
             "propertyIsEnumerable"; "__defineGetter__"; "__defineSetter__";
             "__lookupGetter__"; "__lookupSetter__"]
       then native_function k
  else "undefined".

(** [o[k] = v] on a plain object [o], for a string [v]: the setter
    [__proto__] of [Object.prototype] ignores a value that is neither an
    object nor [null], and no own property is made. *)
Definition assign (k v : string) (o : gmap string string) : gmap string string :=
  if String.eqb k "__proto__" then o else <[k := v]> o.

(** [`${e}`] for a thrown [Error]. *)
Definition error_to_string (e : JsError) : string :=
  if String.eqb (message e) EmptyString then ename e
  else ename e +:+ ": " +:+ message e.

End Js.
Export Js.

(** ** The card sources *)

(** [mock_deck.ts] *)
Record Card : Type := mkCard { id : string; front : string; back : string; status : string }.

Definition MOCK_DECK : list Card :=
  [ mkCard "c1" "Amazon Detective"
      "Amazon Detective simplifies the process of analyzing, investigating, and identifying the root cause of potential security issues or suspicious activities. It automatically collects log data from your AWS resources and uses machine learning, statistical analysis, and graph theory to generate visualizations that help you conduct faster and more efficient security investigations."
      "new";
    mkCard "c2" "AWS Fargate"
      "AWS Fargate is a serverless compute engine for containers that works with both Amazon Elastic Container Service (ECS) and Amazon Elastic Kubernetes Service (EKS). Fargate removes the need to provision and manage servers, lets you specify and pay for resources per application, and improves security through application isolation by design."
      "new";
    mkCard "c3" "DynamoDB Consistency Models"
      "DynamoDB supports two consistency models: Eventually Consistent and Strongly Consistent. Eventually Consistent reads are the default and maximize your read throughput, but might not reflect the results of a recently completed write. Strongly Consistent reads return a result that reflects all writes that received a successful response prior to the read."
      "new" ].

(** [AnkiService.ts]: the in-memory demo deck with its cursor. *)
Module AnkiService.

Record t : Type := mk { deck : list Card; currentIndex : nat }.

Definition new : t := mk MOCK_DECK 0.

Definition startSession (svc : t) : t := mk (deck svc) 0.

(** Returns the [card] component of the result (the [progress] text is
    not read by the hook) and the advanced service. *)
Definition getNextCard (svc : t) : option Card * t :=
  if (length (deck svc) <=? currentIndex svc)%nat then (None, svc)
  else (deck svc !! currentIndex svc, mk (deck svc) (S (currentIndex svc))).

Record Stats : Type := mkStats { totalCards : nat; name : string; remainingCards : nat }.

Definition getDeckStats (svc : t) : Stats :=
  mkStats (length (deck svc)) "AWS Security" (length (deck svc) - currentIndex svc)%nat.

Definition reset (svc : t) : t := mk (deck svc) 0.

End AnkiService.

(** [AnkiConnectService.ts]: the request payloads posted to the local
    AnkiConnect endpoint. *)
Inductive Params : Type :=
| ParamsQuery (query : string)
| ParamsCards (cards : list Z)
| ParamsAnswers (answers : list (JsValue * Z)).

Record AnkiConnectAction : Type :=
  mkAction { action : string; version : Z; params : Params }.

(** ** Transport messages *)

(** A microphone capture: the ids of its audio tracks. *)
Definition MediaStream : Type := list nat.

Record RealtimeSession : Type := mkSession { mediaStream : MediaStream }.

(** The [instructions] texts of [session.update]; the study prompts are
    long template literals into which only the greeting is spliced. *)
Inductive Instructions : Type :=
| SayHello
| AtomicTurnPrompt (greeting : string)
| DemoTutorPrompt.

(** What the hook passes to [transport.sendEvent]. The [output] of a
    [function_call_output] item is carried as the object that the code
    hands to [JSON.stringify]. *)
Inductive ClientEvent : Type :=
| SessionUpdateGreeting (instructions : Instructions)
| SessionUpdateStudy (instructions : Instructions) (tools : list string)
| ItemCreateMessage (text : string)
| ItemCreateFunctionCallOutput (call_id : string) (output : JsValue)
| ResponseCreate.

(** The [item] of a [response.output_item.added] event. *)
Record OutputItem : Type :=
  mkItem { item_type : string; item_call_id : string; item_name : string }.

(** What [transport_event] delivers, by its [type]. *)
Inductive TransportEvent : Type :=
| AudioTranscriptDone (transcript : string)
| InputAudioTranscriptionCompleted (transcript : string)
| AudioDelta
| AudioTranscriptDelta
| OutputItemAdded (item : option OutputItem)
| FunctionCallArgumentsDone (call_id : string) (arguments : string)
| OtherEvent (type : string).

(** ** What the hook runs on *)

(** The browser, the realtime transport and the AnkiConnect endpoint: an
    opaque world that every awaited call may read and change, and the
    [JSON.parse] built-in. The three [invoke_*] members are
    [AnkiConnectService.invoke<T>] at the result types of its callers;
    each either returns [data.result] or throws. *)
Class Runtime : Type := {
  World : Type;
  JSON_parse : string -> Result JsValue;
  VITE_OPENAI_API_KEY : option string;
  getUserMedia : World -> Result MediaStream * World;
  session_connect : World -> Result unit * World;
  session_disconnect : World -> Result unit * World;
  getHours : World -> Z;
  invoke_numbers : AnkiConnectAction -> World -> Result (list Z) * World;
  invoke_any : AnkiConnectAction -> World -> Result (list JsValue) * World;
  invoke_booleans : AnkiConnectAction -> World -> Result (list bool) * World
}.

(** ** The state of one hook instance *)

(** The [useState] cells. *)
Record UiState : Type := mkUi {
  isConnected : bool;
  isConnecting : bool;
  error : option string;
  debugInfo : string;
  evaluation : JsValue;
  isStudyMode : bool;
  currentCard : JsValue
}.

(** The [useRef] cells. [toolCallNames] is the [Record<string, string>]
    filled by the announce events: the map holds the own properties of
    that plain object, which is written with [assign]; a key it lacks
    reads as what [Object.prototype] has under it. *)
Record Refs : Type := mkRefs {
  sessionRef : option RealtimeSession;
  toolCallNames : gmap string string;
  mockServiceRef : AnkiService.t;
  activeDeckNameRef : option string;
  realQueueRef : list Z;
  currentCardRef : JsValue;
  streamRef : option MediaStream
}.

Section Hook.

Context {R : Runtime}.

(** What lies outside the hook: the world, the messages handed to the
    transport so far, the requests posted to AnkiConnect so far, and the
    audio tracks that are still capturing. *)
Record Env : Type := mkEnv {
  world : World;
  sent : list ClientEvent;
  posted : list AnkiConnectAction;
  liveTracks : list nat
}.

Record State : Type := mkState { ui : UiState; refs : Refs; env : Env }.

Definition with_ui (f : UiState -> UiState) (s : State) : State :=
  mkState (f (ui s)) (refs s) (env s).
Definition with_refs (f : Refs -> Refs) (s : State) : State :=
  mkState (ui s) (f (refs s)) (env s).
Definition with_env (f : Env -> Env) (s : State) : State :=
  mkState (ui s) (refs s) (f (env s)).

(** *** Field updates *)

Definition set_isConnected (b : bool) (u : UiState) : UiState :=
  mkUi b (isConnecting u) (error u) (debugInfo u) (evaluation u) (isStudyMode u) (currentCard u).
Definition set_isConnecting (b : bool) (u : UiState) : UiState :=
  mkUi (isConnected u) b (error u) (debugInfo u) (evaluation u) (isStudyMode u) (currentCard u).
Definition set_error (e : option string) (u : UiState) : UiState :=
  mkUi (isConnected u) (isConnecting u) e (debugInfo u) (evaluation u) (isStudyMode u) (currentCard u).
Definition set_debugInfo (d : string) (u : UiState) : UiState :=
  mkUi (isConnected u) (isConnecting u) (error u) d (evaluation u) (isStudyMode u) (currentCard u).
Definition set_evaluation (v : JsValue) (u : UiState) : UiState :=
  mkUi (isConnected u) (isConnecting u) (error u) (debugInfo u) v (isStudyMode u) (currentCard u).
Definition set_isStudyMode (b : bool) (u : UiState) : UiState :=
  mkUi (isConnected u) (isConnecting u) (error u) (debugInfo u) (evaluation u) b (currentCard u).
Definition set_currentCard (c : JsValue) (u : UiState) : UiState :=
  mkUi (isConnected u) (isConnecting u) (error u) (debugInfo u) (evaluation u) (isStudyMode u) c.

Definition set_sessionRef (x : option RealtimeSession) (r : Refs) : Refs :=
  mkRefs x (toolCallNames r) (mockServiceRef r) (activeDeckNameRef r) (realQueueRef r)
    (currentCardRef r) (streamRef r).
Definition set_toolCallNames (x : gmap string string) (r : Refs) : Refs :=
  mkRefs (sessionRef r) x (mockServiceRef r) (activeDeckNameRef r) (realQueueRef r)
    (currentCardRef r) (streamRef r).
Definition set_mockServiceRef (x : AnkiService.t) (r : Refs) : Refs :=
  mkRefs (sessionRef r) (toolCallNames r) x (activeDeckNameRef r) (realQueueRef r)
    (currentCardRef r) (streamRef r).
Definition set_activeDeckNameRef (x : option string) (r : Refs) : Refs :=
  mkRefs (sessionRef r) (toolCallNames r) (mockServiceRef r) x (realQueueRef r)
    (currentCardRef r) (streamRef r).
Definition set_realQueueRef (x : list Z) (r : Refs) : Refs :=
  mkRefs (sessionRef r) (toolCallNames r) (mockServiceRef r) (activeDeckNameRef r) x
    (currentCardRef r) (streamRef r).
Definition set_currentCardRef (x : JsValue) (r : Refs) : Refs :=
  mkRefs (sessionRef r) (toolCallNames r) (mockServiceRef r) (activeDeckNameRef r)
    (realQueueRef r) x (streamRef r).
Definition set_streamRef (x : option MediaStream) (r : Refs) : Refs :=
  mkRefs (sessionRef r) (toolCallNames r) (mockServiceRef r) (activeDeckNameRef r)
    (realQueueRef r) (currentCardRef r) x.

Definition set_world (w : World) (e : Env) : Env :=
  mkEnv w (sent e) (posted e) (liveTracks e).
Definition set_sent (x : list ClientEvent) (e : Env) : Env :=
  mkEnv (world e) x (posted e) (liveTracks e).
Definition set_posted (x : list AnkiConnectAction) (e : Env) : Env :=
  mkEnv (world e) (sent e) x (liveTracks e).
Definition set_liveTracks (x : list nat) (e : Env) : Env :=
  mkEnv (world e) (sent e) (posted e) x.

(** *** The monad of handlers *)

Definition M (A : Type) : Type := State -> Result A * State.

Definition ret {A} (a : A) : M A := fun s => (Ok a, s).

Definition bind {A B} (m : M A) (k : A -> M B) : M B :=
  fun s =>
    match m s with
    | (Ok a, s') => k a s'
    | (Throw e, s') => (Throw e, s')
    end.

Definition throw {A} (e : JsError) : M A := fun s => (Throw e, s).

(** [try { body } catch (e) { handler }] *)
Definition try_catch {A} (body : M A) (handler : JsError -> M A) : M A :=
  fun s =>
    match body s with
    | (Ok a, s') => (Ok a, s')
    | (Throw e, s') => handler e s'
    end.

(** [try { body } finally { cleanup }], for a cleanup that does not throw *)
Definition finally {A} (body : M A) (cleanup : State -> State) : M A :=
  fun s => let '(r, s') := body s in (r, cleanup s').

Definition get {A} (f : State -> A) : M A := fun s => (Ok (f s), s).
Definition modify (f : State -> State) : M unit := fun s => (Ok tt, f s).
Definition lift {A} (r : Result A) : M A := fun s => (r, s).

(** An awaited call into the world. *)
Definition await {A} (f : World -> Result A * World) : M A :=
  fun s => let '(r, w) := f (world (env s)) in (r, with_env (set_world w) s).

End Hook.

Declare Scope hook_scope.
Delimit Scope hook_scope with hook.
Notation "x <- m ;; k" := (bind m (fun x => k))
  (at level 100, m at next level, k at level 200, right associativity) : hook_scope.
Notation "m ;; k" := (bind m (fun _ => k))
  (at level 100, k at level 200, right associativity) : hook_scope.
Local Open Scope hook_scope.

(** ** The hook *)

Definition nl : string := String "010"%char EmptyString.
Definition dq : string := String "034"%char EmptyString.

Fixpoint spaces (n : nat) : string :=
  match n with
  | O => EmptyString
  | S n' => String " "%char (spaces n')
  end.

Definition END_OF_SESSION : JsValue :=
  JObj [("front", JStr "END OF SESSION"); ("back", JStr "END OF SESSION")].

Section Operations.

Context {R : Runtime}.

Definition appendDebug (msg : string) : M unit :=
  modify (with_ui (fun u => set_debugInfo (debugInfo u +:+ nl +:+ msg) u)).

Definition setIsConnected (b : bool) : M unit := modify (with_ui (set_isConnected b)).
Definition setIsConnecting (b : bool) : M unit := modify (with_ui (set_isConnecting b)).
Definition setError (e : option string) : M unit := modify (with_ui (set_error e)).
Definition setEvaluation (v : JsValue) : M unit := modify (with_ui (set_evaluation v)).
Definition setIsStudyMode (b : bool) : M unit := modify (with_ui (set_isStudyMode b)).
Definition setCurrentCard (c : JsValue) : M unit := modify (with_ui (set_currentCard c)).

(** [session.transport.sendEvent(ev)] on a session at hand. *)
Definition sendEvent (ev : ClientEvent) : M unit :=
  modify (with_env (fun e => set_sent (sent e ++ [ev]) e)).

(** [sessionRef.current.transport.sendEvent(ev)] *)
Definition sendEvent_current (ev : ClientEvent) : M unit :=
  session <- get (fun s => sessionRef (refs s)) ;;
  match session with
  | Some _ => sendEvent ev
  | None => throw (type_error JNull "transport")
  end.

(** *** AnkiConnectService *)

Definition invoke {T} (rpc : AnkiConnectAction -> World -> Result T * World)
    (action : string) (params : Params) : M T :=
  let payload := mkAction action 6 params in
  modify (with_env (fun e => set_posted (posted e ++ [payload]) e)) ;;
  await (rpc payload).

Definition findDueCards (deckName : string) : M (list Z) :=
  invoke invoke_numbers "findCards"
    (ParamsQuery ("deck:" +:+ dq +:+ deckName +:+ dq +:+ " is:due")).

Definition cardsInfo (cardIds : list Z) : M (list JsValue) :=
  invoke invoke_any "cardsInfo" (ParamsCards cardIds).

Definition answerCard (cardId : JsValue) (ease : Z) : M bool :=
  result <- invoke invoke_booleans "answerCards" (ParamsAnswers [(cardId, ease)]) ;;
  ret (match result with
       | b :: _ => b
       | [] => false
       end).

(** *** connect and disconnect *)

Definition stop_track (live : list nat) (track : nat) : list nat :=
  filter (fun t => t <> track) live.

(** [navigator.mediaDevices.getUserMedia]: the tracks of the stream it
    returns start capturing. *)
Definition acquire_microphone : M MediaStream :=
  stream <- await getUserMedia ;;
  modify (with_env (fun e => set_liveTracks (liveTracks e ++ stream) e)) ;;
  ret stream.

Definition connect (skipGreeting : bool) : M bool :=
  finally
    (try_catch
       (setIsConnecting true ;;
        setError None ;;
        appendDebug "Starting connection..." ;;
        (if truthy_str VITE_OPENAI_API_KEY then ret tt
         else throw (mkError "Error" "VITE_OPENAI_API_KEY not found")) ;;
        appendDebug "Requesting microphone..." ;;
        appendDebug "Requesting microphone..." ;;
        stream <- acquire_microphone ;;
        modify (with_refs (set_streamRef (Some stream))) ;;
        appendDebug "Microphone access granted." ;;
        modify (with_refs (set_sessionRef (Some (mkSession stream)))) ;;
        appendDebug "Connecting session..." ;;
        await session_connect ;;
        appendDebug "Session connected!" ;;
        setIsConnected true ;;
        (if skipGreeting then ret tt
         else sendEvent (SessionUpdateGreeting SayHello) ;; sendEvent ResponseCreate) ;;
        ret true)
       (fun err =>
          setError (Some (message err)) ;;
          appendDebug ("Error: " +:+ message err) ;;
          setIsConnected false ;;
          ret false))
    (with_ui (set_isConnecting false)).

Definition disconnect : M unit :=
  session <- get (fun s => sessionRef (refs s)) ;;
  match session with
  | Some _ =>
      (* [sessionRef.current.disconnect?.()], its error caught and warned about *)
      try_catch (await session_disconnect) (fun _ => ret tt) ;;
      modify (with_refs (set_sessionRef None))
  | None => ret tt
  end ;;
  stream <- get (fun s => streamRef (refs s)) ;;
  match stream with
  | Some tracks =>
      modify (with_env (fun e => set_liveTracks (fold_left stop_track tracks (liveTracks e)) e)) ;;
      modify (with_refs (set_streamRef None)) ;;
      appendDebug "Microphone stream stopped."
  | None => ret tt
  end ;;
  setIsConnected false ;;
  setIsStudyMode false ;;
  modify (with_refs (set_activeDeckNameRef None)) ;;
  setCurrentCard JNull ;;
  appendDebug "Disconnected.".

(** *** The two helpers of a turn *)

(** The shim that gives a demo card the shape of an AnkiConnect card. *)
Definition shim (card : Card) : JsValue :=
  JObj [("cardId", JStr (id card));
        ("fields", JObj [("Front", JObj [("value", JStr (front card))]);
                         ("Back", JObj [("value", JStr (back card))])])].

Definition fetchNextCardInternal : M JsValue :=
  deckName <- get (fun s => activeDeckNameRef (refs s)) ;;
  if truthy_str deckName then
    queue <- get (fun s => realQueueRef (refs s)) ;;
    match queue with
    | [] => ret JNull
    | nextId :: _ =>
        info <- cardsInfo [nextId] ;;
        (* [info && info.length > 0]: an array is truthy, also when empty *)
        match info with
        | card :: _ =>
            modify (with_refs (fun r => set_realQueueRef (tail (realQueueRef r)) r)) ;;
            modify (with_refs (set_currentCardRef card)) ;;
            setCurrentCard card ;;
            ret card
        | [] => ret JNull
        end
    end
  else
    svc <- get (fun s => mockServiceRef (refs s)) ;;
    let '(card, svc') := AnkiService.getNextCard svc in
    modify (with_refs (set_mockServiceRef svc')) ;;
    match card with
    | Some c =>
        let shimmed := shim c in
        modify (with_refs (set_currentCardRef shimmed)) ;;
        setCurrentCard shimmed ;;
        ret shimmed
    | None => ret JNull
    end.

Definition answerCardInternal (verdict : JsValue) : M unit :=
  deckName <- get (fun s => activeDeckNameRef (refs s)) ;;
  current <- get (fun s => currentCardRef (refs s)) ;;
  if truthy_str deckName && truthy current then
    (* the text of the [console.log] line, which is built before the request *)
    lift (to_string (prop_of current "cardId")) ;;
    lift (to_string verdict) ;;
    let ease := if strict_eq_str verdict "correct" then 3 else 1 in
    answerCard (prop_of current "cardId") ease ;;
    ret tt
  else
    lift (to_string verdict) ;;
    ret tt.

(** [card ? { front: card.fields.Front.value, back: card.fields.Back.value } : otherwise] *)
Definition content_of (card otherwise : JsValue) : Result JsValue :=
  if truthy card then
    and_then (get_prop card "fields") (fun fields =>
    and_then (get_prop fields "Front") (fun Front =>
    and_then (get_prop Front "value") (fun frontValue =>
    and_then (get_prop card "fields") (fun fields' =>
    and_then (get_prop fields' "Back") (fun Back =>
    and_then (get_prop Back "value") (fun backValue =>
    Ok (JObj [("front", frontValue); ("back", backValue)])))))))
  else Ok otherwise.

Definition card_content (card otherwise : JsValue) : M JsValue :=
  lift (content_of card otherwise).

(** [card?.fields?.Back?.value] *)
Definition back_text (card : JsValue) : JsValue :=
  opt_chain (opt_chain (opt_chain card "fields") "Back") "value".

End Operations.

Section Session.

Context {R : Runtime}.

(** The name of the one tool declared to the agent. *)
Definition TOOL : string := "evaluate_and_move_next".

(** The body of the [try] of the remote branch of [startStudySession]:
    greeting, instructions and initial content. *)
Definition init_real_session (currentDeck : string)
    : M (string * Instructions * string) :=
  dueCards <- findDueCards currentDeck ;;
  modify (with_refs (set_realQueueRef dueCards)) ;;
  let count := Z.of_nat (length dueCards) in
  actualFirstCard <- fetchNextCardInternal ;;
  actualFirstContent <- card_content actualFirstCard JNull ;;
  hours <- get (fun s => getHours (world (env s))) ;;
  let timeOfDay := if hours <? 12 then "morning" else "afternoon" in
  let greeting :=
    "Good " +:+ timeOfDay +:+ "! We are studying " +:+ currentDeck
      +:+ " from Anki. " +:+ pretty count +:+ " cards due." in
  frontText <- lift (to_string (js_or (opt_chain actualFirstContent "front") (JStr "None"))) ;;
  backText <- lift (to_string (js_or (opt_chain actualFirstContent "back") (JStr "None"))) ;;
  let initialContent :=
    "Session Started." +:+ nl
      +:+ spaces 20 +:+ "First Card Front: " +:+ dq +:+ frontText +:+ dq +:+ nl
      +:+ spaces 20 +:+ "First Card Back: " +:+ dq +:+ backText +:+ dq +:+ nl
      +:+ spaces 16 in
  ret (greeting, AtomicTurnPrompt greeting, initialContent).

(** The demo branch of [startStudySession]. *)
Definition init_mock_session : M (string * Instructions * string) :=
  modify (with_refs (fun r =>
    set_mockServiceRef (AnkiService.startSession (mockServiceRef r)) r)) ;;
  stats <- get (fun s => AnkiService.getDeckStats (mockServiceRef (refs s))) ;;
  ret ("Hello! Demo study for " +:+ AnkiService.name stats +:+ ".",
       DemoTutorPrompt, "Start Demo.").

Definition startStudySession (deckName : option string) : M unit :=
  session <- get (fun s => sessionRef (refs s)) ;;
  proceed <-
    match session with
    | Some _ => ret true
    | None =>
        appendDebug "Auto-connecting for study session..." ;;
        success <- connect true ;;
        if success : bool then ret true
        else appendDebug "Failed to auto-connect. Aborting study session." ;; ret false
    end ;;
  if negb proceed then ret tt else
  appendDebug ("startStudySession called with deckName: " +:+ dq
                 +:+ opt_to_string deckName +:+ dq) ;;
  setIsStudyMode true ;;
  active <- get (fun s => activeDeckNameRef (refs s)) ;;
  (if truthy_str deckName then modify (with_refs (set_activeDeckNameRef deckName))
   else if negb (truthy_str active) then
     appendDebug "No deckName provided. Falling back to Mock Mode (or previous deck if any)."
   else ret tt) ;;
  modify (with_refs (set_currentCardRef JNull)) ;;
  setCurrentCard JNull ;;
  firstCard <- fetchNextCardInternal ;;
  card_content firstCard JNull ;;
  currentDeck <- get (fun s => activeDeckNameRef (refs s)) ;;
  prepared <-
    match currentDeck with
    | Some deck =>
        if truthy_str currentDeck then
          try_catch
            (x <- init_real_session deck ;; ret (Some x))
            (fun e => appendDebug ("Error init real session: " +:+ message e) ;; ret None)
        else x <- init_mock_session ;; ret (Some x)
    | None => x <- init_mock_session ;; ret (Some x)
    end ;;
  match prepared with
  | None => ret tt
  | Some (greeting, instructions, initialContent) =>
      appendDebug ("Starting Study Session: " +:+ greeting) ;;
      sendEvent_current (SessionUpdateStudy instructions [TOOL]) ;;
      sendEvent_current (ItemCreateMessage initialContent) ;;
      sendEvent_current ResponseCreate
  end.

(** The [try] body of the tool execution: grade the current card, fetch
    the next one, answer the call. *)
Definition evaluate_and_move_next (call_id argsStr : string) : M unit :=
  args <- lift (JSON_parse argsStr) ;;
  verdict <- lift (get_prop args "user_response_quality") ;;
  feedback <- lift (get_prop args "feedback_text") ;;
  verdictText <- lift (to_string verdict) ;;
  feedbackText <- lift (to_string feedback) ;;
  appendDebug ("[Evaluation] " +:+ verdictText +:+ " - " +:+ feedbackText) ;;
  setEvaluation verdict ;;
  current <- get (fun s => currentCardRef (refs s)) ;;
  let answeredCardBack := js_or (back_text current) JNull in
  answerCardInternal verdict ;;
  nextCard <- fetchNextCardInternal ;;
  nextCardOutput <- card_content nextCard END_OF_SESSION ;;
  appendDebug ("[Tool Result] Next Card: " +:+ (if truthy nextCard then "Loaded" else "End")) ;;
  sendEvent (ItemCreateFunctionCallOutput call_id
               (JObj [("status", JStr "success");
                      ("answered_card_back", answeredCardBack);
                      ("next_card", nextCardOutput)])) ;;
  sendEvent ResponseCreate.

Definition is_delta (event : TransportEvent) : bool :=
  match event with
  | AudioDelta | AudioTranscriptDelta => true
  | _ => false
  end.

Definition handleTransportEvent (event : TransportEvent) : M unit :=
  session <- get (fun s => sessionRef (refs s)) ;;
  match session with
  | None => ret tt
  | Some _ =>
      match event with
      | AudioTranscriptDone transcript => appendDebug ("[AI]: " +:+ transcript)
      | InputAudioTranscriptionCompleted transcript => appendDebug ("[User]: " +:+ transcript)
      | _ => ret tt
      end ;;
      if is_delta event then ret tt else
      match event with
      | OutputItemAdded (Some item) =>
          if String.eqb (item_type item) "function_call" then
            modify (with_refs (fun r =>
              set_toolCallNames (assign (item_call_id item) (item_name item) (toolCallNames r))
                r)) ;;
            appendDebug ("[Tool Queued] " +:+ item_name item)
          else ret tt
      | _ => ret tt
      end ;;
      match event with
      | FunctionCallArgumentsDone call_id argsStr =>
          name <- get (fun s => toolCallNames (refs s) !! call_id) ;;
          appendDebug ("[Tool Executing] "
                         +:+ match name with
                             | Some n => n
                             | None => inherited_to_string call_id
                             end) ;;
          match name with
          | Some n =>
              if String.eqb n TOOL then
                try_catch (evaluate_and_move_next call_id argsStr)
                  (fun e => appendDebug ("Tool Error: " +:+ error_to_string e))
              else ret tt
          | None => ret tt
          end
      | _ => ret tt
      end
  end.

(** The hook right after mounting. *)
Definition initial (w : World) : State :=
  mkState
    (mkUi false false None EmptyString JNull false JNull)
    (mkRefs None ∅ AnkiService.new None [] JNull None)
    (mkEnv w [] [] []).

(** A handler's final state and whether it returned. *)
Definition exec {A} (m : M A) (s : State) : State := snd (m s).
Definition result {A} (m : M A) (s : State) : Result A := fst (m s).

End Session.

(** ** A scripted runtime

    A runtime whose world answers from a fixed script, with a parser for
    the JSON texts of the examples (integers only, no [\u] escapes). It
    serves to run the hook on concrete inputs. *)

Module Json.

Definition is_ws (c : ascii) : bool :=
  match c with
  | " "%char | "009"%char | "010"%char | "013"%char => true
  | _ => false
  end.

Fixpoint skip_ws (l : list ascii) : list ascii :=
  match l with
  | c :: rest => if is_ws c then skip_ws rest else l
  | [] => []
  end.

Definition digit (c : ascii) : option Z :=
  let n := Z.of_nat (nat_of_ascii c) in
  if (48 <=? n) && (n <=? 57) then Some (n - 48) else None.

Fixpoint digits (acc : Z) (l : list ascii) : Z * list ascii :=
  match l with
  | c :: rest =>
      match digit c with
      | Some d => digits (10 * acc + d) rest
      | None => (acc, l)
      end
  | [] => (acc, [])
  end.

Definition number (l : list ascii) : option (Z * list ascii) :=
  match l with
  | "-"%char :: c :: rest =>
      match digit c with
      | Some d => let '(n, rest') := digits d rest in Some (- n, rest')
      | None => None
      end
  | c :: rest =>
      match digit c with
      | Some d => let '(n, rest') := digits d rest in Some (n, rest')
      | None => None
      end
  | [] => None
  end.

(** The characters of a string literal after its opening quote. *)
Fixpoint chars (l : list ascii) : option (string * list ascii) :=
  match l with
  | [] => None
  | "034"%char :: rest => Some (EmptyString, rest)
  | "\"%char :: e :: rest =>
      let unescaped :=
        match e with
        | "034"%char | "\"%char | "/"%char => Some e
        | "n"%char => Some "010"%char
        | "t"%char => Some "009"%char
        | "r"%char => Some "013"%char
        | "b"%char => Some "008"%char
        | "f"%char => Some "012"%char
        | _ => None
        end in
      match unescaped, chars rest with
      | Some c, Some (s, rest') => Some (String c s, rest')
      | _, _ => None
      end
  | c :: rest =>
      if (nat_of_ascii c <? 32)%nat then None
      else match chars rest with
           | Some (s, rest') => Some (String c s, rest')
           | None => None
           end
  end.

(** Assigning a property: a repeated key overwrites in place. *)
Fixpoint obj_set (k : string) (v : JsValue) (props : list (string * JsValue))
    : list (string * JsValue) :=
  match props with
  | [] => [(k, v)]
  | (k', v') :: rest =>
      if String.eqb k k' then (k, v) :: rest else (k', v') :: obj_set k v rest
  end.

Fixpoint value (fuel : nat) (l : list ascii) : option (JsValue * list ascii) :=
  match fuel with
  | O => None
  | S fuel' =>
      match skip_ws l with
      | "n"%char :: "u"%char :: "l"%char :: "l"%char :: rest => Some (JNull, rest)
      | "t"%char :: "r"%char :: "u"%char :: "e"%char :: rest => Some (JBool true, rest)
      | "f"%char :: "a"%char :: "l"%char :: "s"%char :: "e"%char :: rest =>
          Some (JBool false, rest)
      | "034"%char :: rest =>
          match chars rest with
          | Some (s, rest') => Some (JStr s, rest')
          | None => None
          end
      | "["%char :: rest =>
          match skip_ws rest with
          | "]"%char :: rest' => Some (JArr [], rest')
          | _ =>
              match elements fuel' rest with
              | Some (xs, rest') => Some (JArr xs, rest')
              | None => None
              end
          end
      | "{"%char :: rest =>
          match skip_ws rest with
          | "}"%char :: rest' => Some (JObj [], rest')
          | _ =>
              match members fuel' [] rest with
              | Some (props, rest') => Some (JObj props, rest')
              | None => None
              end
          end
      | other =>
          match number other with
          | Some (n, rest) => Some (JNum n, rest)
          | None => None
          end
      end
  end
with elements (fuel : nat) (l : list ascii) : option (list JsValue * list ascii) :=
  match fuel with
  | O => None
  | S fuel' =>
      match value fuel' l with
      | Some (v, rest) =>
          match skip_ws rest with
          | ","%char :: rest' =>
              match elements fuel' rest' with
              | Some (vs, rest'') => Some (v :: vs, rest'')
              | None => None
              end
          | "]"%char :: rest' => Some ([v], rest')
          | _ => None
          end
      | None => None
      end
  end
with members (fuel : nat) (acc : list (string * JsValue)) (l : list ascii)
    : option (list (string * JsValue) * list ascii) :=
  match fuel with
  | O => None
  | S fuel' =>
      match skip_ws l with
      | "034"%char :: rest =>
          match chars rest with
          | Some (k, rest1) =>
              match skip_ws rest1 with
              | ":"%char :: rest2 =>
                  match value fuel' rest2 with
                  | Some (v, rest3) =>
                      match skip_ws rest3 with
                      | ","%char :: rest4 => members fuel' (obj_set k v acc) rest4
                      | "}"%char :: rest4 => Some (obj_set k v acc, rest4)
                      | _ => None
                      end
                  | None => None
                  end
              | _ => None
              end
          | None => None
          end
      | _ => None
      end
  end.

Definition parse (text : string) : Result JsValue :=
  let l := list_ascii_of_string text in
  match value (2 * length l + 2) l with
  | Some (v, rest) =>
      match skip_ws rest with
      | [] => Ok v
      | _ => Throw (mkError "SyntaxError" "Unexpected non-whitespace character after JSON")
      end
  | None => Throw (mkError "SyntaxError" "Unexpected token in JSON")
  end.

(** Writes a JSON text with apostrophes for its double quotes. *)
Fixpoint quoted (text : string) : string :=
  match text with
  | EmptyString => EmptyString
  | String c rest => String (if Ascii.eqb c "'"%char then "034"%char else c) (quoted rest)
  end.

End Json.

Module Scripted.

(** What the scripted world answers. *)
Record Script : Type := mkScript {
  due : list Z;                    (* the result of findCards *)
  notes : list (Z * JsValue);      (* the cards that cardsInfo knows, by id *)
  microphone : option MediaStream; (* None: getUserMedia is denied *)
  teardown_throws : bool;          (* session.disconnect() raises *)
  hour : Z
}.

Fixpoint note_of (cardId : Z) (table : list (Z * JsValue)) : option JsValue :=
  match table with
  | [] => None
  | (k, card) :: rest => if k =? cardId then Some card else note_of cardId rest
  end.

(** Ids without a note are left out of the result. *)
Definition cards_info (table : list (Z * JsValue)) (payload : AnkiConnectAction)
    : list JsValue :=
  match params payload with
  | ParamsCards ids => omap (fun cardId => note_of cardId table) ids
  | _ => []
  end.

Definition runtime (sc : Script) : Runtime := {|
  World := unit;
  JSON_parse := Json.parse;
  VITE_OPENAI_API_KEY := Some "sk-test";
  getUserMedia := fun w =>
    match microphone sc with
    | Some stream => (Ok stream, w)
    | None => (Throw (mkError "NotAllowedError" "Permission denied"), w)
    end;
  session_connect := fun w => (Ok tt, w);
  session_disconnect := fun w =>
    if teardown_throws sc then (Throw (mkError "Error" "transport already closed"), w)
    else (Ok tt, w);
  getHours := fun _ => hour sc;
  invoke_numbers := fun _ w => (Ok (due sc), w);
  invoke_any := fun payload w => (Ok (cards_info (notes sc) payload), w);
  invoke_booleans := fun _ w => (Ok [true], w)
|}.

(** An AnkiConnect card with the two fields the hook reads. *)
Definition note (cardId : Z) (front back : string) : JsValue :=
  JObj [("cardId", JNum cardId);
        ("fields", JObj [("Front", JObj [("value", JStr front)]);
                         ("Back", JObj [("value", JStr back)])])].

End Scripted.

(** ** Concrete sessions *)

Module Scenario.

Import Scripted.

(** A deck with two due cards; the transport teardown of this world
    throws. *)
Definition spanish : Script :=
  mkScript [1; 2] [(1, note 1 "hola" "hello"); (2, note 2 "adios" "goodbye")]
    (Some [0%nat; 1%nat]) true 9.

(** The same deck, the first card having an empty back. *)
Definition blank : Script :=
  mkScript [1; 2] [(1, note 1 "hola" EmptyString); (2, note 2 "adios" "goodbye")]
    (Some [0%nat; 1%nat]) false 9.

(** The first due card has no note any more when its details are asked
    for. *)
Definition deleted : Script :=
  mkScript [1; 2] [(2, note 2 "adios" "goodbye")] (Some [0%nat; 1%nat]) false 9.

(** Nothing is due. *)
Definition nothing_due : Script :=
  mkScript [] [(1, note 1 "hola" "hello")] (Some [0%nat; 1%nat]) false 15.

Definition call_1 : string := "call_1".

Definition announced_call : TransportEvent :=
  OutputItemAdded (Some (mkItem "function_call" call_1 TOOL)).

Section Run.

Variable sc : Script.

#[local] Instance scripted : Runtime := runtime sc.

(** The hook right after mounting. *)
Definition idle : State := initial tt.

(** connect, startStudySession("Spanish"), and the agent announces a
    call of the tool. *)
Definition studying : State :=
  exec (handleTransportEvent announced_call)
    (exec (startStudySession (Some "Spanish"))
       (exec (connect false) idle)).

(** The state after the arguments of the call arrived. *)
Definition graded (argsStr : string) : State :=
  exec (handleTransportEvent (FunctionCallArgumentsDone call_1 argsStr)) studying.

(** connect, startStudySession() on the demo deck, and the agent
    announces a call of the tool. *)
Definition demo_studying : State :=
  exec (handleTransportEvent announced_call)
    (exec (startStudySession None)
       (exec (connect false) idle)).

Definition demo_graded (argsStr : string) : State :=
  exec (handleTransportEvent (FunctionCallArgumentsDone call_1 argsStr)) demo_studying.

End Run.

Definition correct_args : string :=
  Json.quoted "{'user_response_quality':'correct','feedback_text':'Right.'}".

Definition maybe_args : string :=
  Json.quoted "{'user_response_quality':'maybe','feedback_text':'Close.'}".

Definition partly_args : string :=
  Json.quoted "{'user_response_quality':'partly','feedback_text':'Half of it.'}".

Definition truncated_args : string :=
  Json.quoted "{'user_response_quality':'corr".

(** The verdict is the empty text. *)
Definition blank_args : string :=
  Json.quoted "{'user_response_quality':'','feedback_text':'Nothing.'}".

(** A verdict that cannot be converted to text: an object with an own
    [toString] property. *)
Definition opaque_args : string :=
  Json.quoted "{'user_response_quality':{'toString':1},'feedback_text':'Close.'}".

(** What the agent is sent for the call in each session. *)
Definition spanish_output : JsValue :=
  JObj [("status", JStr "success");
        ("answered_card_back", JStr "hello");
        ("next_card", JObj [("front", JStr "adios"); ("back", JStr "goodbye")])].

Definition blank_output : JsValue :=
  JObj [("status", JStr "success");
        ("answered_card_back", JNull);
        ("next_card", JObj [("front", JStr "adios"); ("back", JStr "goodbye")])].

Definition end_output : JsValue :=
  JObj [("status", JStr "success");
        ("answered_card_back", JNull);
        ("next_card", END_OF_SESSION)].

Definition demo_output : JsValue :=
  match MOCK_DECK with
  | first :: _ =>
      JObj [("status", JStr "success");
            ("answered_card_back", JStr (back first));
            ("next_card", JObj [("front", JStr (front first)); ("back", JStr (back first))])]
  | [] => JNull
  end.

End Scenario.

(** ** Runtimes that fail

    The scripted runtime with switches for the failures of its world: a
    missing API key, a transport that refuses to connect, and an
    AnkiConnect that rejects the listing of due cards or the grading. *)

Module Faulty.

Import Scripted.

Record Faults : Type := mkFaults {
  no_key : bool;
  connect_throws : bool;
  listing_throws : bool;
  grading_throws : bool
}.

Definition runtime (sc : Script) (f : Faults) : Runtime := {|
  World := unit;
  JSON_parse := Json.parse;
  VITE_OPENAI_API_KEY := if no_key f then None else Some "sk-test";
  getUserMedia := fun w =>
    match microphone sc with
    | Some stream => (Ok stream, w)
    | None => (Throw (mkError "NotAllowedError" "Permission denied"), w)
    end;
  session_connect := fun w =>
    if connect_throws f then (Throw (mkError "Error" "Failed to connect"), w)
    else (Ok tt, w);
  session_disconnect := fun w =>
    if teardown_throws sc then (Throw (mkError "Error" "transport already closed"), w)
    else (Ok tt, w);
  getHours := fun _ => hour sc;
  invoke_numbers := fun _ w =>
    if listing_throws f then (Throw (mkError "TypeError" "Failed to fetch"), w)
    else (Ok (due sc), w);
  invoke_any := fun payload w => (Ok (cards_info (notes sc) payload), w);
  invoke_booleans := fun _ w =>
    if grading_throws f then (Throw (mkError "Error" "collection is not available"), w)
    else (Ok [true], w)
|}.

Definition keyless : Faults := mkFaults true false false false.
Definition unreachable : Faults := mkFaults false true false false.
Definition unlisted : Faults := mkFaults false false true false.
Definition ungraded : Faults := mkFaults false false false true.

(** No microphone may be captured. *)
Definition muted : Script :=
  mkScript [1; 2] [(1, note 1 "hola" "hello")] None false 9.

(** The second due card comes back without its fields. *)
Definition bare : Script :=
  mkScript [1; 2] [(1, note 1 "hola" "hello"); (2, JObj [("cardId", JNum 2)])]
    (Some [0%nat; 1%nat]) false 9.

(** One card is due. *)
Definition single : Script :=
  mkScript [1] [(1, note 1 "hola" "hello")] (Some [0%nat; 1%nat]) false 9.

(** No fault at all. *)
Definition sound : Faults := mkFaults false false false false.

Section Run.

Variables (sc : Script) (f : Faults).

#[local] Instance failing : Runtime := runtime sc f.

(** The hook right after mounting. *)
Definition idle : State := initial tt.

(** connect() was called. *)
Definition connected : State := exec (connect false) idle.

(** connect, startStudySession("Spanish"), and the agent announces a
    call of the tool. *)
Definition studying : State :=
  exec (handleTransportEvent Scenario.announced_call)
    (exec (startStudySession (Some "Spanish")) connected).

End Run.

(** A browser that hands out two new tracks at every capture: the
    world counts the captures. *)
Definition recapturing (sc : Script) : Runtime := {|
  World := nat;
  JSON_parse := Json.parse;
  VITE_OPENAI_API_KEY := Some "sk-test";
  getUserMedia := fun w => (Ok [(2 * w)%nat; (2 * w + 1)%nat], S w);
  session_connect := fun w => (Ok tt, w);
  session_disconnect := fun w => (Ok tt, w);
  getHours := fun _ => hour sc;
  invoke_numbers := fun _ w => (Ok (due sc), w);
  invoke_any := fun payload w => (Ok (cards_info (notes sc) payload), w);
  invoke_booleans := fun _ w => (Ok [true], w)
|}.

(** The hook right after mounting in that browser. *)
Definition mounted (sc : Script) : @State (recapturing sc) :=
  @initial (recapturing sc) (0%nat : @World (recapturing sc)).

(** The same browser behind a transport that refuses the first
    connection and accepts the later ones. *)
Definition retrying (sc : Script) : Runtime := {|
  World := nat;
  JSON_parse := Json.parse;
  VITE_OPENAI_API_KEY := Some "sk-test";
  getUserMedia := fun w => (Ok [(2 * w)%nat; (2 * w + 1)%nat], S w);
  session_connect := fun w =>
    if (w <=? 1)%nat then (Throw (mkError "Error" "Failed to connect"), w) else (Ok tt, w);
  session_disconnect := fun w => (Ok tt, w);
  getHours := fun _ => hour sc;
  invoke_numbers := fun _ w => (Ok (due sc), w);
  invoke_any := fun payload w => (Ok (cards_info (notes sc) payload), w);
  invoke_booleans := fun _ w => (Ok [true], w)
|}.

(** The hook right after mounting behind that transport. *)
Definition booted (sc : Script) : @State (retrying sc) :=
  @initial (retrying sc) (0%nat : @World (retrying sc)).

(** connect() is refused; the state it leaves. *)
Definition refused (sc : Script) : @State (retrying sc) :=
  @exec (retrying sc) _ (connect false) (booted sc).

(** connect() is called again, and is accepted. *)
Definition reconnected (sc : Script) : @State (retrying sc) :=
  @exec (retrying sc) _ (connect false) (refused sc).

End Faulty.

(** ** The vocabulary of the statements *)

Section Claims.

Context {R : Runtime}.

(** *** Tool calls *)

(** A tool call is serviced when the handler answers it: the call's
    output and the response trigger are what the event adds to the
    messages handed to the transport. *)
Definition serviced (s : State) (call_id argsStr : string) (out : JsValue) (s' : State) : Prop :=
  handleTransportEvent (FunctionCallArgumentsDone call_id argsStr) s = (Ok tt, s')
  /\ sent (env s') = sent (env s) ++ [ItemCreateFunctionCallOutput call_id out; ResponseCreate].

(** The output object of a serviced call. *)
Definition tool_output (answeredCardBack nextCardOutput : JsValue) : JsValue :=
  JObj [("status", JStr "success");
        ("answered_card_back", answeredCardBack);
        ("next_card", nextCardOutput)].

(** The events of the transport, handled one after the other. *)
Fixpoint deliver (events : list TransportEvent) (s : State) : State :=
  match events with
  | [] => s
  | event :: later => deliver later (exec (handleTransportEvent event) s)
  end.

(** *** States along a handler *)

(** The state after [appendDebug msg]. *)
Definition logged (msg : string) (s : State) : State :=
  with_ui (fun u => set_debugInfo (debugInfo u +:+ nl +:+ msg) u) s.

(** The state in which grading starts: the call is logged and the
    verdict is on display. *)
Definition announced (verdict : JsValue) (verdictText feedbackText : string) (s : State)
    : State :=
  with_ui (set_evaluation verdict)
    (logged ("[Evaluation] " +:+ verdictText +:+ " - " +:+ feedbackText)
       (logged ("[Tool Executing] " +:+ TOOL) s)).

(** The state after a request was posted and answered. *)
Definition answered (payload : AnkiConnectAction) (w : World) (s : State) : State :=
  with_env (fun e => mkEnv w (sent e) (posted e ++ [payload]) (liveTracks e)) s.

(** The state after the call's output and the response trigger were
    handed to the transport. *)
Definition replied (call_id : string) (out : JsValue) (s : State) : State :=
  with_env (fun e => set_sent (sent e ++ [ItemCreateFunctionCallOutput call_id out; ResponseCreate]) e) s.

(** *** The session and its queue *)

(** Remote mode: a deck name is bound. *)
Definition remote (s : State) : Prop := truthy_str (activeDeckNameRef (refs s)) = true.

(** The deck [d] is bound. *)
Definition on_deck (d : string) (s : State) : Prop :=
  activeDeckNameRef (refs s) = Some d.

(** No next card can be fetched: the due queue is empty in remote mode,
    the demo deck is used up in mock mode. *)
Definition exhausted (s : State) : Prop :=
  if truthy_str (activeDeckNameRef (refs s)) then realQueueRef (refs s) = []
  else (length (AnkiService.deck (mockServiceRef (refs s)))
          <= AnkiService.currentIndex (mockServiceRef (refs s)))%nat.

(** [card.cardId] *)
Definition card_id (card : JsValue) : JsValue := prop_of card "cardId".

(** No id is queued twice, and the current card is not queued. *)
Definition distinct (s : State) : Prop :=
  NoDup (realQueueRef (refs s))
  /\ forall cardId, card_id (currentCardRef (refs s)) = JNum cardId ->
                    cardId ∉ realQueueRef (refs s).

(** *** What AnkiConnect is asked, and what it may answer *)

Definition cardsInfo_request (cardIds : list Z) : AnkiConnectAction :=
  mkAction "cardsInfo" 6 (ParamsCards cardIds).

Definition answerCards_request (cardId : JsValue) (ease : Z) : AnkiConnectAction :=
  mkAction "answerCards" 6 (ParamsAnswers [(cardId, ease)]).

Definition findDueCards_request (deckName : string) : AnkiConnectAction :=
  mkAction "findCards" 6 (ParamsQuery ("deck:" +:+ dq +:+ deckName +:+ dq +:+ " is:due")).

(** The lookup of one id finds a card, whatever the world is at the
    time. *)
Definition found (cardId : Z) : Prop :=
  forall w, exists card more w',
    invoke_any (cardsInfo_request [cardId]) w = (Ok (card :: more), w').

(** The lookup of one id returns the card with that id. *)
Definition serves (cardId : Z) : Prop :=
  forall w, exists card more w',
    invoke_any (cardsInfo_request [cardId]) w = (Ok (card :: more), w')
    /\ card_id card = JNum cardId.

(** The lookup of one id returns nothing. *)
Definition missing (cardId : Z) : Prop :=
  forall w, exists w', invoke_any (cardsInfo_request [cardId]) w = (Ok [], w').

(** The service lists [due] as the due cards of the deck. *)
Definition lists_due (deckName : string) (due : list Z) : Prop :=
  forall w, exists w', invoke_numbers (findDueCards_request deckName) w = (Ok due, w').

(** A remote study session on deck [d] in good order: the queue and the
    current card are distinct, and every queued id has its card. *)
Definition studying_on (d : string) (s : State) : Prop :=
  on_deck d s
  /\ distinct s
  /\ forall cardId, cardId ∈ realQueueRef (refs s) -> serves cardId.

(** *** Re-entry *)

(** The [session.update] that installs the demo prompt. *)
Definition is_demo_prompt (ev : ClientEvent) : bool :=
  match ev with
  | SessionUpdateStudy DemoTutorPrompt _ => true
  | _ => false
  end.

(** The session is bound to the remote deck [d], the demo service is as
    it was, and nothing sent since [sent0] installs the demo prompt. *)
Definition stays_remote (d : string) (svc : AnkiService.t) (sent0 : list ClientEvent)
    (s : State) : Prop :=
  on_deck d s
  /\ mockServiceRef (refs s) = svc
  /\ exists new, sent (env s) = sent0 ++ new
                 /\ Forall (fun ev => is_demo_prompt ev = false) new.

(** What the remote branch prepares is never the demo prompt. *)
Definition remote_prompt (prepared : option (string * Instructions * string)) : Prop :=
  match prepared with
  | Some (_, instructions, _) => instructions <> DemoTutorPrompt
  | None => True
  end.

(** *** Reasoning about handlers *)

(** A computation keeps an invariant of the state, however it ends. *)
Definition keeps {A} (I : State -> Prop) (m : M A) : Prop :=
  forall s, I s -> I (exec m s).

(** It keeps the invariant, and what it returns satisfies [Q]. *)
Definition yields {A} (I : State -> Prop) (Q : A -> Prop) (m : M A) : Prop :=
  forall s, I s -> I (exec m s) /\ forall a, result m s = Ok a -> Q a.

(** From a state in [P], the computation ends in [Q] when it returns
    and in [E] when it throws. *)
Definition triple {A} (P : State -> Prop) (m : M A)
    (Q : A -> State -> Prop) (E : State -> Prop) : Prop :=
  forall s, P s ->
    match m s with
    | (Ok a, s') => Q a s'
    | (Throw _, s') => E s'
    end.

End Claims.

(** ** The verdict badge

    The [evaluation] cell together with the effect that clears it (hook
    lines 132 and 154 to 160), on a logical clock in milliseconds. A
    state update is rendered, and its effect run, before the next
    handler or timer callback starts, and takes no time; a timer fires
    when the clock reaches the time it was set for. *)

Module Badge.

(** The delay of the [setTimeout]. *)
Definition DELAY : Z := 3000.

(** The cell, the time at which the pending timer fires, and the
    clock. *)
Record Cell : Type := mkCell { evaluation : JsValue; pending : option Z; now : Z }.

(** The hook right after mounting. *)
Definition mount : Cell := mkCell JNull None 0.

(** [Object.is], by which React compares a new state with the old one
    and the dependencies of an effect. A verdict comes out of its own
    [JSON.parse], so an object or an array is never the one displayed. *)
Definition same_value (a b : JsValue) : bool :=
  match a, b with
  | JUndefined, JUndefined => true
  | JNull, JNull => true
  | JBool x, JBool y => Bool.eqb x y
  | JNum x, JNum y => x =? y
  | JStr x, JStr y => String.eqb x y
  | _, _ => false
  end.

(** What the last run of the effect returned, if it returned anything:
    [clearTimeout(timer)]. *)
Definition cleanup (c : Cell) : Cell := mkCell (evaluation c) None (now c).

(** The body of the effect. *)
Definition effect (c : Cell) : Cell :=
  if truthy (evaluation c) then mkCell (evaluation c) (Some (now c + DELAY)) (now c)
  else c.

(** [setEvaluation(v)]: with the value already displayed React renders
    nothing and runs no effect; with another value it renders, and the
    dependency [evaluation] having changed, runs the cleanup and then
    the effect. *)
Definition setEvaluation (v : JsValue) (c : Cell) : Cell :=
  if same_value v (evaluation c) then c
  else effect (cleanup (mkCell v (pending c) (now c))).

(** [dt] milliseconds pass in which nothing else happens: the pending
    timer, if it falls due, runs its callback [setEvaluation(null)]. *)
Definition elapse (dt : Z) (c : Cell) : Cell :=
  let later := now c + dt in
  match pending c with
  | Some due =>
      if due <=? later then
        let fired := setEvaluation JNull (mkCell (evaluation c) None due) in
        mkCell (evaluation fired) (pending fired) later
      else mkCell (evaluation c) (pending c) later
  | None => mkCell (evaluation c) None later
  end.

End Badge.

(** ** Further vocabulary *)

Section Coverage.

Context {R : Runtime}.

(** The event completes the arguments of a tool call. *)
Definition is_call (event : TransportEvent) : bool :=
  match event with
  | FunctionCallArgumentsDone _ _ => true
  | _ => false
  end.

(** [AnkiService]: [n] successive calls of [getNextCard]. *)
Fixpoint draw (n : nat) (svc : AnkiService.t) : list (option Card) * AnkiService.t :=
  match n with
  | O => ([], svc)
  | S n' =>
      let '(card, svc') := AnkiService.getNextCard svc in
      let '(cards, svc'') := draw n' svc' in
      (card :: cards, svc'')
  end.

(** What belongs to the connection and the mode of the session: the
    cells that only [connect], [disconnect] and [startStudySession]
    write. *)
Definition session_of (s : State) :=
  (sessionRef (refs s), streamRef (refs s), activeDeckNameRef (refs s),
   liveTracks (env s),
   (isConnected (ui s), isConnecting (ui s), isStudyMode (ui s), error (ui s))).

(** What belongs to the connection alone. *)
Definition connection_of (s : State) :=
  (sessionRef (refs s), streamRef (refs s), liveTracks (env s),
   (isConnected (ui s), isConnecting (ui s), error (ui s))).

(** From [s] to [s'] the session only went forward: the due queue lost
    cards at its head, the demo deck is the same with its cursor no
    further back, the messages sent and the requests posted were only
    added to, and no announced call was forgotten. *)
Definition progress (s s' : State) : Prop :=
  realQueueRef (refs s') `suffix_of` realQueueRef (refs s)
  /\ AnkiService.deck (mockServiceRef (refs s')) = AnkiService.deck (mockServiceRef (refs s))
  /\ (AnkiService.currentIndex (mockServiceRef (refs s))
      <= AnkiService.currentIndex (mockServiceRef (refs s')))%nat
  /\ sent (env s) `prefix_of` sent (env s')
  /\ posted (env s) `prefix_of` posted (env s')
  /\ dom (toolCallNames (refs s)) ⊆ dom (toolCallNames (refs s')).

(** AnkiConnect accepts every grading, whatever the world is at the
    time. *)
Definition grades : Prop :=
  forall payload w, exists results w', invoke_booleans payload w = (Ok results, w').

(** [{ front: card.front, back: card.back }] of a demo card. *)
Definition faces (card : Card) : JsValue :=
  JObj [("front", JStr (front card)); ("back", JStr (back card))].

(** The demo card under the cursor. *)
Definition under_cursor (s : State) : option Card :=
  AnkiService.deck (mockServiceRef (refs s)) !! AnkiService.currentIndex (mockServiceRef (refs s)).

(** The lookup of [cardId] returns [card], whatever the world is at the
    time. *)
Definition looks_up (cardId : Z) (card : JsValue) : Prop :=
  forall w, exists more w',
    invoke_any (cardsInfo_request [cardId]) w = (Ok (card :: more), w').

(** The greeting of a remote session, spliced into its prompt. *)
Definition remote_greeting (hours : Z) (deck : string) (count : nat) : string :=
  "Good " +:+ (if hours <? 12 then "morning" else "afternoon")
    +:+ "! We are studying " +:+ deck +:+ " from Anki. "
    +:+ pretty (Z.of_nat count) +:+ " cards due.".

(** The user message that opens a remote session, for the texts of the
    faces of the first card. *)
Definition opening_message (frontText backText : string) : string :=
  "Session Started." +:+ nl
    +:+ spaces 20 +:+ "First Card Front: " +:+ dq +:+ frontText +:+ dq +:+ nl
    +:+ spaces 20 +:+ "First Card Back: " +:+ dq +:+ backText +:+ dq +:+ nl
    +:+ spaces 16.

End Coverage.

Ltac states :=
  unfold announced, logged, replied, answered, with_ui, with_refs, with_env in *; simpl in *.

Ltac run :=
  unfold appendDebug, setIsConnected, setIsConnecting, setError, setEvaluation,
    setIsStudyMode, setCurrentCard, sendEvent, bind, ret, get, modify, lift, await,
    throw, try_catch, finally in *; simpl in *.

Section Properties.

Context {R : Runtime}.

(** *** Requests *)

Lemma invoke_eq {T} (rpc : AnkiConnectAction -> World -> Result T * World)
    (action : string) (params : Params) (s : State) :
  invoke rpc action params s
  = (fst (rpc (mkAction action 6 params) (world (env s))),
     answered (mkAction action 6 params) (snd (rpc (mkAction action 6 params) (world (env s)))) s).
Proof.
  unfold invoke, answered. run.
  destruct (rpc _ _) as [r w]. reflexivity.
Qed.

Lemma cardsInfo_eq (cardIds : list Z) (s : State) :
  cardsInfo cardIds s
  = (fst (invoke_any (cardsInfo_request cardIds) (world (env s))),
     answered (cardsInfo_request cardIds)
       (snd (invoke_any (cardsInfo_request cardIds) (world (env s)))) s).
Proof. apply invoke_eq. Qed.

(** *** Fetching the next card *)

Lemma fetch_remote_empty (s : State) :
  remote s -> realQueueRef (refs s) = [] ->
  fetchNextCardInternal s = (Ok JNull, s).
Proof.
  unfold remote, fetchNextCardInternal. intros Hd Hq. run. rewrite Hd, Hq. reflexivity.
Qed.

Lemma fetch_remote_missing (s : State) (nextId : Z) (rest : list Z) (w : World) :
  remote s -> realQueueRef (refs s) = nextId :: rest ->
  invoke_any (cardsInfo_request [nextId]) (world (env s)) = (Ok [], w) ->
  fetchNextCardInternal s = (Ok JNull, answered (cardsInfo_request [nextId]) w s).
Proof.
  unfold remote, fetchNextCardInternal. intros Hd Hq Hw. run. rewrite Hd, Hq.
  rewrite cardsInfo_eq, Hw. reflexivity.
Qed.

Lemma fetch_remote_throws (s : State) (nextId : Z) (rest : list Z) (e : JsError) (w : World) :
  remote s -> realQueueRef (refs s) = nextId :: rest ->
  invoke_any (cardsInfo_request [nextId]) (world (env s)) = (Throw e, w) ->
  fetchNextCardInternal s = (Throw e, answered (cardsInfo_request [nextId]) w s).
Proof.
  unfold remote, fetchNextCardInternal. intros Hd Hq Hw. run. rewrite Hd, Hq.
  rewrite cardsInfo_eq, Hw. reflexivity.
Qed.

Lemma fetch_remote_found (s : State) (nextId : Z) (rest : list Z)
    (card : JsValue) (more : list JsValue) (w : World) :
  remote s -> realQueueRef (refs s) = nextId :: rest ->
  invoke_any (cardsInfo_request [nextId]) (world (env s)) = (Ok (card :: more), w) ->
  fetchNextCardInternal s
  = (Ok card,
     with_ui (set_currentCard card)
       (with_refs (fun r => set_currentCardRef card (set_realQueueRef rest r))
          (answered (cardsInfo_request [nextId]) w s))).
Proof.
  unfold remote, fetchNextCardInternal. intros Hd Hq Hw. run. rewrite Hd, Hq.
  rewrite cardsInfo_eq, Hw. simpl. unfold with_ui, with_refs, answered, with_env; simpl. rewrite Hq. reflexivity.
Qed.

Lemma fetch_mock_exhausted (s : State) :
  ~ remote s -> exhausted s ->
  fetchNextCardInternal s = (Ok JNull, s).
Proof.
  unfold remote, exhausted, fetchNextCardInternal. intros Hd Hx. run.
  destruct (truthy_str _); [congruence|].
  unfold AnkiService.getNextCard.
  destruct (_ <=? _)%nat eqn:Hle.
  - destruct s as [u [] e]; simpl in *. destruct mockServiceRef0. reflexivity.
  - apply Nat.leb_gt in Hle. lia.
Qed.

(** *** Grading *)

Lemma answer_eq (verdict : JsValue) (s : State) :
  answerCardInternal verdict s
  = if truthy_str (activeDeckNameRef (refs s)) && truthy (currentCardRef (refs s)) then
      match to_string (prop_of (currentCardRef (refs s)) "cardId") with
      | Throw e => (Throw e, s)
      | Ok _ =>
      match to_string verdict with
      | Throw e => (Throw e, s)
      | Ok _ =>
          let payload :=
            answerCards_request (prop_of (currentCardRef (refs s)) "cardId")
              (if strict_eq_str verdict "correct" then 3 else 1) in
          (match fst (invoke_booleans payload (world (env s))) with
           | Ok _ => Ok tt
           | Throw e => Throw e
           end,
           answered payload (snd (invoke_booleans payload (world (env s)))) s)
      end end
    else
      match to_string verdict with
      | Throw e => (Throw e, s)
      | Ok _ => (Ok tt, s)
      end.
Proof.
  unfold answerCardInternal, answerCard. run.
  destruct (_ && _).
  - destruct (to_string (prop_of _ _)); [|reflexivity]. simpl.
    destruct (to_string verdict); [|reflexivity]. simpl.
    rewrite invoke_eq. unfold answerCards_request.
    destruct (invoke_booleans _ _) as [[l|e] w]; reflexivity.
  - destruct (to_string verdict); reflexivity.
Qed.

Lemma answer_frame (verdict : JsValue) (s : State) :
  ui (exec (answerCardInternal verdict) s) = ui s
  /\ refs (exec (answerCardInternal verdict) s) = refs s
  /\ sent (env (exec (answerCardInternal verdict) s)) = sent (env s).
Proof.
  unfold exec. rewrite answer_eq. destruct (_ && _).
  - destruct (to_string (prop_of _ _)); [|simpl; auto].
    destruct (to_string verdict); simpl; auto.
  - destruct (to_string verdict); simpl; auto.
Qed.

Lemma answer_cases (verdict : JsValue) (s : State) :
  exec (answerCardInternal verdict) s = s
  \/ exists payload w, exec (answerCardInternal verdict) s = answered payload w s.
Proof.
  unfold exec. rewrite answer_eq. destruct (_ && _).
  - destruct (to_string (prop_of _ _)); [|left; reflexivity].
    destruct (to_string verdict); [|left; reflexivity].
    right. eexists _, _. reflexivity.
  - destruct (to_string verdict); left; reflexivity.
Qed.

Lemma fetch_sent (s : State) :
  sent (env (exec fetchNextCardInternal s)) = sent (env s).
Proof.
  unfold exec, fetchNextCardInternal. run.
  destruct (truthy_str _).
  - destruct (realQueueRef _); [reflexivity|].
    rewrite cardsInfo_eq. destruct (invoke_any _ _) as [[[|c cs]|e] w]; reflexivity.
  - destruct (AnkiService.getNextCard _) as [[c|] svc]; reflexivity.
Qed.

(** *** The tool call, step by step *)

Lemma evaluate_eq (call_id argsStr : string) (s : State) :
  evaluate_and_move_next call_id argsStr s
  = match JSON_parse argsStr with
    | Throw e => (Throw e, s)
    | Ok args =>
    match get_prop args "user_response_quality" with
    | Throw e => (Throw e, s)
    | Ok verdict =>
    match get_prop args "feedback_text" with
    | Throw e => (Throw e, s)
    | Ok feedback =>
    match to_string verdict with
    | Throw e => (Throw e, s)
    | Ok verdictText =>
    match to_string feedback with
    | Throw e => (Throw e, s)
    | Ok feedbackText =>
    let s1 :=
      with_ui (set_evaluation verdict)
        (logged ("[Evaluation] " +:+ verdictText +:+ " - " +:+ feedbackText) s) in
    match answerCardInternal verdict s1 with
    | (Throw e, s2) => (Throw e, s2)
    | (Ok _, s2) =>
    match fetchNextCardInternal s2 with
    | (Throw e, s3) => (Throw e, s3)
    | (Ok nextCard, s3) =>
    match content_of nextCard END_OF_SESSION with
    | Throw e => (Throw e, s3)
    | Ok nextCardOutput =>
        (Ok tt,
         replied call_id
           (tool_output (js_or (back_text (currentCardRef (refs s))) JNull) nextCardOutput)
           (logged ("[Tool Result] Next Card: "
                      +:+ (if truthy nextCard then "Loaded" else "End")) s3))
    end end end end end end end end.
Proof.
  unfold evaluate_and_move_next, card_content. run.
  destruct (JSON_parse argsStr) as [args|e]; [|reflexivity].
  destruct (get_prop args "user_response_quality") as [verdict|e]; [|reflexivity].
  destruct (get_prop args "feedback_text") as [feedback|e]; [|reflexivity].
  destruct (to_string verdict) as [verdictText|e]; [|reflexivity].
  destruct (to_string feedback) as [feedbackText|e]; [|reflexivity].
  states.
  destruct (answerCardInternal _ _) as [[[]|e] s2]; [|reflexivity].
  destruct (fetchNextCardInternal s2) as [[nextCard|e] s3]; [|reflexivity].
  destruct (content_of nextCard END_OF_SESSION) as [nextCardOutput|e]; [|reflexivity].
  unfold tool_output. rewrite <- app_assoc. reflexivity.
Qed.

Lemma handle_call_eq (call_id argsStr : string) (s : State) :
  handleTransportEvent (FunctionCallArgumentsDone call_id argsStr) s
  = match sessionRef (refs s) with
    | None => (Ok tt, s)
    | Some _ =>
        match toolCallNames (refs s) !! call_id with
        | Some n =>
            if String.eqb n TOOL then
              match evaluate_and_move_next call_id argsStr (logged ("[Tool Executing] " +:+ n) s) with
              | (Ok a, s') => (Ok a, s')
              | (Throw e, s') => (Ok tt, logged ("Tool Error: " +:+ error_to_string e) s')
              end
            else (Ok tt, logged ("[Tool Executing] " +:+ n) s)
        | None => (Ok tt, logged ("[Tool Executing] " +:+ inherited_to_string call_id) s)
        end
    end.
Proof.
  unfold handleTransportEvent. run.
  destruct (sessionRef (refs s)); [|reflexivity]. simpl.
  destruct (toolCallNames (refs s) !! call_id) as [n|]; [|reflexivity]. simpl.
  destruct (String.eqb n TOOL); reflexivity.
Qed.

Lemma silent_not_serviced (s s' : State) (x y : ClientEvent) :
  sent (env s') = sent (env s) -> sent (env s') <> sent (env s) ++ [x; y].
Proof.
  intros Heq Happ. rewrite Heq in Happ.
  apply (f_equal length) in Happ. rewrite length_app in Happ. simpl in Happ. lia.
Qed.

(** What a serviced call went through: the arguments parsed, grading
    and fetching returned, and the output was built from the card that
    was current when the event arrived. *)
Lemma serviced_inv (s : State) (call_id argsStr : string) (out : JsValue) (s' : State) :
  serviced s call_id argsStr out s' ->
  exists args verdict feedback s2 nextCard s3 nextCardOutput,
    sessionRef (refs s) <> None
    /\ toolCallNames (refs s) !! call_id = Some TOOL
    /\ JSON_parse argsStr = Ok args
    /\ get_prop args "user_response_quality" = Ok verdict
    /\ get_prop args "feedback_text" = Ok feedback
    /\ (exists verdictText feedbackText,
          to_string verdict = Ok verdictText
          /\ to_string feedback = Ok feedbackText
          /\ answerCardInternal verdict (announced verdict verdictText feedbackText s)
             = (Ok tt, s2))
    /\ fetchNextCardInternal s2 = (Ok nextCard, s3)
    /\ content_of nextCard END_OF_SESSION = Ok nextCardOutput
    /\ out = tool_output (js_or (back_text (currentCardRef (refs s))) JNull) nextCardOutput
    /\ s' = replied call_id out
              (logged ("[Tool Result] Next Card: "
                         +:+ (if truthy nextCard then "Loaded" else "End")) s3).
Proof.
  intros [Hrun Hsent]. rewrite handle_call_eq in Hrun.
  destruct (sessionRef (refs s)) as [session|] eqn:Hsession.
  2:{ inversion Hrun; subst. exfalso. eapply silent_not_serviced; [|exact Hsent]. reflexivity. }
  destruct (toolCallNames (refs s) !! call_id) as [n|] eqn:Hname.
  2:{ inversion Hrun; subst. exfalso. eapply silent_not_serviced; [|exact Hsent]. reflexivity. }
  destruct (String.eqb n TOOL) eqn:Htool.
  2:{ inversion Hrun; subst. exfalso. eapply silent_not_serviced; [|exact Hsent]. reflexivity. }
  apply String.eqb_eq in Htool. subst n.
  rewrite evaluate_eq in Hrun.
  destruct (JSON_parse argsStr) as [args|e] eqn:Hparse.
  2:{ inversion Hrun; subst. exfalso. eapply silent_not_serviced; [|exact Hsent]. reflexivity. }
  destruct (get_prop args "user_response_quality") as [verdict|e] eqn:Hverdict.
  2:{ inversion Hrun; subst. exfalso. eapply silent_not_serviced; [|exact Hsent]. reflexivity. }
  destruct (get_prop args "feedback_text") as [feedback|e] eqn:Hfeedback.
  2:{ inversion Hrun; subst. exfalso. eapply silent_not_serviced; [|exact Hsent]. reflexivity. }
  destruct (to_string verdict) as [verdictText|e] eqn:HverdictText.
  2:{ inversion Hrun; subst. exfalso. eapply silent_not_serviced; [|exact Hsent]. reflexivity. }
  destruct (to_string feedback) as [feedbackText|e] eqn:HfeedbackText.
  2:{ inversion Hrun; subst. exfalso. eapply silent_not_serviced; [|exact Hsent]. reflexivity. }
  cbv zeta in Hrun. fold (announced verdict verdictText feedbackText s) in Hrun.
  pose proof (answer_frame verdict (announced verdict verdictText feedbackText s))
    as (_ & _ & Hsent2).
  unfold exec in Hsent2.
  destruct (answerCardInternal verdict (announced verdict verdictText feedbackText s))
    as [[[]|e] s2] eqn:Hanswer.
  2:{ inversion Hrun; subst. exfalso. eapply silent_not_serviced; [|exact Hsent]. exact Hsent2. }
  pose proof (fetch_sent s2) as Hsent3. unfold exec in Hsent3.
  destruct (fetchNextCardInternal s2) as [[nextCard|e] s3] eqn:Hfetch.
  2:{ inversion Hrun; subst. exfalso. eapply silent_not_serviced; [|exact Hsent].
      simpl in *. congruence. }
  destruct (content_of nextCard END_OF_SESSION) as [nextCardOutput|e] eqn:Hcontent.
  2:{ inversion Hrun; subst. exfalso. eapply silent_not_serviced; [|exact Hsent].
      simpl in *. congruence. }
  inversion Hrun as [Hs']. rewrite <- Hs' in Hsent. simpl in Hsent, Hsent2, Hsent3.
  rewrite Hsent3, Hsent2 in Hsent. apply app_inv_head in Hsent.
  inversion Hsent as [Hout].
  exists args, verdict, feedback, s2, nextCard, s3, nextCardOutput.
  repeat split; try assumption; try reflexivity; [discriminate|].
  exists verdictText, feedbackText. auto.
Qed.

Lemma serviced_exec (s : State) (call_id argsStr : string) (out : JsValue) :
  result (handleTransportEvent (FunctionCallArgumentsDone call_id argsStr)) s = Ok tt ->
  sent (env (exec (handleTransportEvent (FunctionCallArgumentsDone call_id argsStr)) s))
  = sent (env s) ++ [ItemCreateFunctionCallOutput call_id out; ResponseCreate] ->
  serviced s call_id argsStr out
    (exec (handleTransportEvent (FunctionCallArgumentsDone call_id argsStr)) s).
Proof.
  unfold result, exec. intros Hr Hsent. split; [|exact Hsent].
  destruct (handleTransportEvent _ s) as [r s']. simpl in *. subst r. reflexivity.
Qed.

(** Grading leaves the hook's own cells alone, so the queue that the
    fetch sees is the one the event found. *)
Lemma answer_keeps (verdict : JsValue) (s s2 : State) (r : Result unit) :
  answerCardInternal verdict s = (r, s2) -> ui s2 = ui s /\ refs s2 = refs s.
Proof.
  intros H. pose proof (answer_frame verdict s) as (Hu & Hr & _).
  unfold exec in *. rewrite H in *. auto.
Qed.

Lemma js_or_null_str (v : JsValue) (b : string) :
  js_or v JNull = JStr b -> v = JStr b /\ b <> EmptyString.
Proof.
  unfold js_or. destruct (truthy v) eqn:Ht; [|discriminate].
  intros ->. split; [reflexivity|]. intros ->. discriminate.
Qed.

(** C1 (as amended). The [answered_card_back] of a serviced call is
    taken from the card that was current when the event arrived, before
    grading and advancing: it is that card's back text when the text is
    not empty, [null] when the text is empty or missing or there is no
    current card, and it is not the back text of the card that is
    current afterwards unless the two cards have the same back text. *)
Theorem answered_card_back_of_previous_card
    (s : State) (call_id argsStr : string) (out : JsValue) (s' : State) :
  serviced s call_id argsStr out s' ->
  (forall b, back_text (currentCardRef (refs s)) = JStr b -> b <> EmptyString ->
             prop_of out "answered_card_back" = JStr b)
  /\ (truthy (back_text (currentCardRef (refs s))) = false ->
      prop_of out "answered_card_back" = JNull)
  /\ (forall b', back_text (currentCardRef (refs s')) = JStr b' ->
                 back_text (currentCardRef (refs s)) <> JStr b' ->
                 prop_of out "answered_card_back" <> JStr b').
Proof.
  intros Hs.
  destruct (serviced_inv _ _ _ _ _ Hs)
    as (args & verdict & feedback & s2 & nextCard & s3 & nextOut & _ & _ & _ & _ & _ & _ & _ & _ & Hout & _).
  subst out. simpl. repeat split.
  - intros b Hb Hne. rewrite Hb. unfold js_or. simpl.
    destruct (String.eqb b EmptyString) eqn:He; [apply String.eqb_eq in He; contradiction|].
    reflexivity.
  - intros Hf. unfold js_or. rewrite Hf. reflexivity.
  - intros b' _ Hold Heq. apply js_or_null_str in Heq as [Heq _]. contradiction.
Qed.

(** C3. When no next card can be fetched, the [next_card] of a serviced
    call is the end-of-session object, whose [front] and [back] are both
    the text END OF SESSION; it is neither [null] nor absent. *)
Theorem next_card_is_sentinel_when_exhausted
    (s : State) (call_id argsStr : string) (out : JsValue) (s' : State) :
  serviced s call_id argsStr out s' ->
  exhausted s ->
  prop_of out "next_card" = END_OF_SESSION
  /\ prop_of (prop_of out "next_card") "front" = JStr "END OF SESSION"
  /\ prop_of (prop_of out "next_card") "back" = JStr "END OF SESSION"
  /\ nullish (prop_of out "next_card") = false.
Proof.
  intros Hs Hx.
  destruct (serviced_inv _ _ _ _ _ Hs)
    as (args & verdict & feedback & s2 & nextCard & s3 & nextOut
        & _ & _ & _ & _ & _ & Hanswer & Hfetch & Hcontent & Hout & _).
  destruct Hanswer as (verdictText & feedbackText & _ & _ & Hanswer).
  apply answer_keeps in Hanswer as [_ Hrefs].
  assert (Hx2 : exhausted s2).
  { unfold exhausted in *. rewrite Hrefs. exact Hx. }
  assert (Hnull : nextCard = JNull).
  { unfold exhausted in Hx2.
    destruct (truthy_str (activeDeckNameRef (refs s2))) eqn:Hmode.
    - rewrite (fetch_remote_empty s2 Hmode Hx2) in Hfetch. congruence.
    - rewrite fetch_mock_exhausted in Hfetch.
      + congruence.
      + unfold remote. rewrite Hmode. discriminate.
      + unfold exhausted. rewrite Hmode. exact Hx2. }
  subst nextCard. simpl in Hcontent. inversion Hcontent; subst nextOut.
  subst out. simpl. auto.
Qed.

(** X27. A call that arrives when no next card can be fetched is serviced,
    with the end-of-session object, as soon as its arguments can be
    read, the verdict and the feedback can be converted to text for the
    log line, and grading returns. *)
Lemma exhausted_call_is_serviced
    (s : State) (session : RealtimeSession) (call_id argsStr : string) (args : JsValue)
    (verdictText feedbackText : string) :
  sessionRef (refs s) = Some session ->
  toolCallNames (refs s) !! call_id = Some TOOL ->
  JSON_parse argsStr = Ok args ->
  nullish args = false ->
  to_string (prop_of args "user_response_quality") = Ok verdictText ->
  to_string (prop_of args "feedback_text") = Ok feedbackText ->
  exhausted s ->
  result (answerCardInternal (prop_of args "user_response_quality"))
    (announced (prop_of args "user_response_quality") verdictText feedbackText s)
  = Ok tt ->
  serviced s call_id argsStr
    (tool_output (js_or (back_text (currentCardRef (refs s))) JNull) END_OF_SESSION)
    (exec (handleTransportEvent (FunctionCallArgumentsDone call_id argsStr)) s).
Proof.
  intros Hsession Hname Hparse Hargs HverdictText HfeedbackText Hx Hgraded.
  set (verdict := prop_of args "user_response_quality") in *.
  set (feedback := prop_of args "feedback_text") in *.
  assert (Hrun : handleTransportEvent (FunctionCallArgumentsDone call_id argsStr) s
                 = (Ok tt,
                    replied call_id
                      (tool_output (js_or (back_text (currentCardRef (refs s))) JNull)
                         END_OF_SESSION)
                      (logged "[Tool Result] Next Card: End"
                         (exec (answerCardInternal verdict)
                            (announced verdict verdictText feedbackText s))))).
  { rewrite handle_call_eq, Hsession, Hname. simpl. rewrite evaluate_eq, Hparse.
    unfold get_prop. rewrite Hargs. fold verdict feedback.
    rewrite HverdictText, HfeedbackText. cbv zeta.
    fold (announced verdict verdictText feedbackText s).
    unfold result, exec in *.
    destruct (answerCardInternal verdict (announced verdict verdictText feedbackText s))
      as [r s2] eqn:Hanswer.
    simpl in Hgraded. subst r.
    destruct (answer_keeps _ _ _ _ Hanswer) as [_ Hrefs]. simpl in Hrefs.
    assert (Hfetch : fetchNextCardInternal s2 = (Ok JNull, s2)).
    { unfold exhausted in Hx. rewrite <- Hrefs in Hx.
      destruct (truthy_str (activeDeckNameRef (refs s2))) eqn:Hmode.
      - apply fetch_remote_empty; assumption.
      - apply fetch_mock_exhausted.
        + unfold remote. rewrite Hmode. discriminate.
        + unfold exhausted. rewrite Hmode. exact Hx. }
    rewrite Hfetch. reflexivity. }
  split.
  - unfold exec. rewrite Hrun. reflexivity.
  - unfold exec. rewrite Hrun. simpl.
    destruct (answer_frame verdict (announced verdict verdictText feedbackText s))
      as (_ & _ & Hsent).
    rewrite Hsent. reflexivity.
Qed.

(** C10. In remote mode, when the lookup of the head of the due queue
    returns nothing, fetching returns [null] and leaves the queue and the
    current card as they are; a call serviced in that state reports the
    end-of-session object although the queue is not empty, and the next
    fetch asks for the same head again. *)
Theorem missing_head_reports_end_and_is_retried (s : State) (head : Z) (rest : list Z) :
  remote s ->
  realQueueRef (refs s) = head :: rest ->
  missing head ->
  (result fetchNextCardInternal s = Ok JNull
   /\ refs (exec fetchNextCardInternal s) = refs s
   /\ ui (exec fetchNextCardInternal s) = ui s)
  /\ forall call_id argsStr out s',
       serviced s call_id argsStr out s' ->
       prop_of out "next_card" = END_OF_SESSION
       /\ realQueueRef (refs s') = head :: rest
       /\ currentCardRef (refs s') = currentCardRef (refs s)
       /\ currentCard (ui s') = currentCard (ui s)
       /\ remote s'
       /\ (exists before, posted (env s') = before ++ [cardsInfo_request [head]])
       /\ posted (env (exec fetchNextCardInternal s'))
          = posted (env s') ++ [cardsInfo_request [head]].
Proof.
  intros Hmode Hq Hmiss. split.
  - destruct (Hmiss (world (env s))) as [w Hw].
    unfold result, exec. rewrite (fetch_remote_missing s head rest w Hmode Hq Hw).
    auto.
  - intros call_id argsStr out s' Hs.
    destruct (serviced_inv _ _ _ _ _ Hs)
      as (args & verdict & feedback & s2 & nextCard & s3 & nextOut
          & _ & _ & _ & _ & _ & Hanswer & Hfetch & Hcontent & Hout & Hs').
    destruct Hanswer as (verdictText & feedbackText & _ & _ & Hanswer).
    apply answer_keeps in Hanswer as [Hui Hrefs].
    destruct (Hmiss (world (env s2))) as [w Hw].
    assert (Hmode2 : remote s2) by (unfold remote in *; rewrite Hrefs; exact Hmode).
    assert (Hq2 : realQueueRef (refs s2) = head :: rest) by (rewrite Hrefs; exact Hq).
    rewrite (fetch_remote_missing s2 head rest w Hmode2 Hq2 Hw) in Hfetch.
    inversion Hfetch; subst nextCard s3. simpl in Hcontent. inversion Hcontent; subst nextOut.
    assert (Hrefs' : refs s' = refs s) by (subst s'; simpl; exact Hrefs).
    assert (Hmode' : remote s') by (unfold remote in *; rewrite Hrefs'; exact Hmode).
    assert (Hq' : realQueueRef (refs s') = head :: rest) by (rewrite Hrefs'; exact Hq).
    repeat split.
    + subst out. reflexivity.
    + exact Hq'.
    + rewrite Hrefs'. reflexivity.
    + subst s'. simpl. rewrite Hui. reflexivity.
    + exact Hmode'.
    + exists (posted (env s2)). subst s'. reflexivity.
    + destruct (Hmiss (world (env s'))) as [w' Hw'].
      unfold exec. rewrite (fetch_remote_missing s' head rest w' Hmode' Hq' Hw').
      reflexivity.
Qed.

(** In remote mode a serviced call looks the head of the queue up once;
    if that lookup returns a card, the head is removed and the card is
    the current card afterwards. *)
Lemma serviced_remote_lookup
    (s : State) (call_id argsStr : string) (out : JsValue) (s' : State)
    (head : Z) (rest : list Z) :
  remote s ->
  serviced s call_id argsStr out s' ->
  realQueueRef (refs s) = head :: rest ->
  exists w0, forall card more w,
    invoke_any (cardsInfo_request [head]) w0 = (Ok (card :: more), w) ->
    refs s' = set_currentCardRef card (set_realQueueRef rest (refs s))
    /\ currentCard (ui s') = card
    /\ world (env s') = w.
Proof.
  intros Hmode Hs Hq.
  destruct (serviced_inv _ _ _ _ _ Hs)
    as (args & verdict & feedback & s2 & nextCard & s3 & nextOut
        & _ & _ & _ & _ & _ & Hanswer & Hfetch & Hcontent & Hout & Hs').
  destruct Hanswer as (verdictText & feedbackText & _ & _ & Hanswer).
  apply answer_keeps in Hanswer as [Hui Hrefs].
  exists (world (env s2)). intros card more w Hw.
  rewrite (fetch_remote_found s2 head rest card more w) in Hfetch.
  - inversion Hfetch; subst nextCard s3. subst s'. simpl. rewrite Hrefs. auto.
  - unfold remote in *. rewrite Hrefs. exact Hmode.
  - rewrite Hrefs. exact Hq.
  - exact Hw.
Qed.

(** C2 (as amended). In remote mode a serviced call finds the due queue
    either empty or not. If it is empty, the queue and the current card
    stay as they are and [next_card] is the end-of-session object. If it
    is not and the lookup of its head finds a card, exactly the head is
    removed (the length decreases by one) and the card found becomes the
    current card: the current card, in the ref and on display, is the
    first card that AnkiConnect returned for the head in the lookup that
    left the world as it is after the call, so it is the card of the
    head whenever AnkiConnect returns that card for it. When the service
    returns the card with the id asked for, and no id is queued twice
    nor is the current card queued, the id of the current card changes
    and the queue stays free of duplicates. *)
Theorem serviced_call_advances_queue
    (s : State) (call_id argsStr : string) (out : JsValue) (s' : State) :
  remote s ->
  serviced s call_id argsStr out s' ->
  (realQueueRef (refs s) = [] ->
     realQueueRef (refs s') = []
     /\ currentCardRef (refs s') = currentCardRef (refs s)
     /\ prop_of out "next_card" = END_OF_SESSION)
  /\ (forall head rest, realQueueRef (refs s) = head :: rest -> found head ->
        realQueueRef (refs s') = rest
        /\ (length (realQueueRef (refs s')) + 1 = length (realQueueRef (refs s)))%nat
        /\ currentCard (ui s') = currentCardRef (refs s')
        /\ remote s'
        /\ exists card more w0,
             invoke_any (cardsInfo_request [head]) w0 = (Ok (card :: more), world (env s'))
             /\ currentCardRef (refs s') = card
             /\ currentCard (ui s') = card)
  /\ (forall head rest card, realQueueRef (refs s) = head :: rest -> looks_up head card ->
        currentCardRef (refs s') = card
        /\ currentCard (ui s') = card)
  /\ (forall head rest, realQueueRef (refs s) = head :: rest -> serves head -> distinct s ->
        card_id (currentCardRef (refs s')) = JNum head
        /\ card_id (currentCardRef (refs s')) <> card_id (currentCardRef (refs s))
        /\ distinct s').
Proof.
  intros Hmode Hs. split; [|split; [|split]].
  - intros Hq.
    destruct (serviced_inv _ _ _ _ _ Hs)
      as (args & verdict & feedback & s2 & nextCard & s3 & nextOut
          & _ & _ & _ & _ & _ & Hanswer & Hfetch & Hcontent & Hout & Hs').
    destruct Hanswer as (verdictText & feedbackText & _ & _ & Hanswer).
    apply answer_keeps in Hanswer as [Hui Hrefs].
    rewrite fetch_remote_empty in Hfetch.
    + inversion Hfetch; subst nextCard s3. simpl in Hcontent.
      inversion Hcontent; subst nextOut. subst s' out. simpl.
      rewrite Hrefs. auto.
    + unfold remote in *. rewrite Hrefs. exact Hmode.
    + rewrite Hrefs. exact Hq.
  - intros head rest Hq Hfound.
    destruct (serviced_remote_lookup _ _ _ _ _ head rest Hmode Hs Hq) as [w0 Hlook].
    destruct (Hfound w0) as (card & more & w & Hw).
    destruct (Hlook card more w Hw) as (Hrefs & Hcard & Hworld).
    rewrite Hrefs, Hcard, Hworld. simpl. rewrite Hq. simpl.
    split; [reflexivity|]. split; [lia|]. split; [reflexivity|].
    split; [unfold remote in *; rewrite Hrefs; exact Hmode|].
    exists card, more, w0. split; [exact Hw|]. split; reflexivity.
  - intros head rest card Hq Hcard.
    destruct (serviced_remote_lookup _ _ _ _ _ head rest Hmode Hs Hq) as [w0 Hlook].
    destruct (Hcard w0) as (more & w & Hw).
    destruct (Hlook card more w Hw) as (Hrefs & Hshown & _).
    rewrite Hrefs, Hshown. split; reflexivity.
  - intros head rest Hq Hserves [Hnodup Hcurrent].
    destruct (serviced_remote_lookup _ _ _ _ _ head rest Hmode Hs Hq) as [w0 Hlook].
    destruct (Hserves w0) as (card & more & w & Hw & Hid).
    destruct (Hlook card more w Hw) as (Hrefs & Hcard & _).
    rewrite Hq in Hnodup, Hcurrent. apply NoDup_cons in Hnodup as [Hfresh Hnodup].
    unfold distinct. rewrite Hrefs. simpl. rewrite Hid. repeat split.
    + intros Heq. apply (Hcurrent head); [congruence|left].
    + exact Hnodup.
    + intros cardId Heq. inversion Heq; subst cardId. exact Hfresh.
Qed.

(** *** Arguments that do not match the tool schema *)

Lemma fetch_keeps_binding (s : State) :
  activeDeckNameRef (refs (exec fetchNextCardInternal s)) = activeDeckNameRef (refs s)
  /\ sessionRef (refs (exec fetchNextCardInternal s)) = sessionRef (refs s).
Proof.
  unfold exec, fetchNextCardInternal. run.
  destruct (truthy_str _).
  - destruct (realQueueRef _); [auto|].
    rewrite cardsInfo_eq. destruct (invoke_any _ _) as [[[|c cs]|e] w]; auto.
  - destruct (AnkiService.getNextCard _) as [[c|] svc]; auto.
Qed.

Lemma fetch_frame (s : State) :
  evaluation (ui (exec fetchNextCardInternal s)) = evaluation (ui s)
  /\ exists later, posted (env (exec fetchNextCardInternal s)) = posted (env s) ++ later.
Proof.
  unfold exec, fetchNextCardInternal. run.
  destruct (truthy_str _).
  - destruct (realQueueRef _).
    + split; [reflexivity|]. exists []. symmetry. apply app_nil_r.
    + rewrite cardsInfo_eq. destruct (invoke_any _ _) as [[[|c cs]|e] w];
        (split; [reflexivity|eexists; reflexivity]).
  - destruct (AnkiService.getNextCard _) as [[c|] svc];
      (split; [reflexivity|]; exists []; symmetry; apply app_nil_r).
Qed.

(** C4 (as amended). The handler does not check [user_response_quality]
    against the enumeration. Whatever value other than the text correct
    the parsed arguments carry, if it and the feedback can be converted
    to text for the log line, that value becomes the displayed verdict
    and, in remote mode with a current card whose [cardId] can be
    converted to text, the card is graded with ease 1 as for an
    incorrect answer; a call serviced this way reports the status
    success. A verdict that cannot be converted to text is caught as a
    tool error: it is neither displayed nor graded, and nothing is
    sent. *)
Theorem unlisted_verdict_is_graded_as_incorrect
    (s : State) (session : RealtimeSession) (call_id argsStr : string)
    (args verdict : JsValue) :
  sessionRef (refs s) = Some session ->
  toolCallNames (refs s) !! call_id = Some TOOL ->
  JSON_parse argsStr = Ok args ->
  get_prop args "user_response_quality" = Ok verdict ->
  strict_eq_str verdict "correct" = false ->
  remote s ->
  truthy (currentCardRef (refs s)) = true ->
  let s' := exec (handleTransportEvent (FunctionCallArgumentsDone call_id argsStr)) s in
  (printable verdict = true ->
   printable (prop_of args "feedback_text") = true ->
   evaluation (ui s') = verdict
   /\ (printable (card_id (currentCardRef (refs s))) = true ->
       exists later,
         posted (env s')
         = posted (env s) ++ answerCards_request (card_id (currentCardRef (refs s))) 1 :: later))
  /\ (printable verdict = false ->
      evaluation (ui s') = evaluation (ui s)
      /\ refs s' = refs s
      /\ posted (env s') = posted (env s)
      /\ sent (env s') = sent (env s))
  /\ forall out, serviced s call_id argsStr out s' -> prop_of out "status" = JStr "success".
Proof.
  intros Hsession Hname Hparse Hverdict Hne Hmode Hcard s'.
  assert (Hfeedback : get_prop args "feedback_text" = Ok (prop_of args "feedback_text"))
    by (unfold get_prop in *; destruct (nullish args); [discriminate|reflexivity]).
  assert (Hrun : handleTransportEvent (FunctionCallArgumentsDone call_id argsStr) s
                 = match evaluate_and_move_next call_id argsStr
                           (logged ("[Tool Executing] " +:+ TOOL) s) with
                   | (Ok a, s1) => (Ok a, s1)
                   | (Throw e, s1) => (Ok tt, logged ("Tool Error: " +:+ error_to_string e) s1)
                   end).
  { rewrite handle_call_eq, Hsession, Hname. reflexivity. }
  split; [|split].
  - intros Hv Hf. unfold printable in Hv, Hf.
    destruct (to_string verdict) as [verdictText|] eqn:HverdictText; [clear Hv|discriminate].
    destruct (to_string (prop_of args "feedback_text")) as [feedbackText|] eqn:HfeedbackText;
      [clear Hf|discriminate].
    subst s'. unfold exec. rewrite Hrun, evaluate_eq, Hparse, Hverdict, Hfeedback.
    rewrite HverdictText, HfeedbackText. cbv zeta.
    rewrite answer_eq. simpl. unfold remote in Hmode. rewrite Hmode, Hcard, Hne. simpl.
    unfold card_id, printable.
    destruct (to_string (prop_of (currentCardRef (refs s)) "cardId")) as [cardText|e];
      [|simpl; split; [reflexivity|discriminate]].
    rewrite HverdictText.
    match goal with
    | |- context [invoke_booleans ?p ?w] => destruct (invoke_booleans p w) as [[l|e] w']
    end; simpl; [|split; [reflexivity|intros _; exists []; reflexivity]].
    match goal with
    | |- context [fetchNextCardInternal ?x] =>
        pose proof (fetch_frame x) as [Hev [later Hposted]]; unfold exec in Hev, Hposted;
        destruct (fetchNextCardInternal x) as [[nextCard|e] s3]
    end; simpl in *.
    + destruct (content_of nextCard END_OF_SESSION); simpl;
        (split; [exact Hev|intros _; exists later; rewrite Hposted, <- app_assoc; reflexivity]).
    + split; [exact Hev|]. intros _. exists later. rewrite Hposted, <- app_assoc. reflexivity.
  - intros Hv. unfold printable in Hv.
    destruct (to_string verdict) as [|e] eqn:HverdictText; [discriminate|].
    subst s'. unfold exec. rewrite Hrun, evaluate_eq, Hparse, Hverdict, Hfeedback.
    rewrite HverdictText. simpl. auto.
  - intros out Hs.
    destruct (serviced_inv _ _ _ _ _ Hs)
      as (? & ? & ? & ? & ? & ? & ? & _ & _ & _ & _ & _ & _ & _ & _ & Hout & _).
    subst out. reflexivity.
Qed.

(** C5 (as amended). When the arguments of a call cannot be read
    ([JSON.parse] throws, or yields [null]), the handler returns
    normally, the refs (among them the due queue and the current card),
    the displayed card and verdict are unchanged, nothing is sent or
    posted, and for a call of the declared tool the error is appended to
    the debug log. *)
Theorem unreadable_arguments_change_nothing
    (s : State) (call_id argsStr : string) (e : JsError) :
  and_then (JSON_parse argsStr) (fun args => get_prop args "user_response_quality") = Throw e ->
  let s' := exec (handleTransportEvent (FunctionCallArgumentsDone call_id argsStr)) s in
  result (handleTransportEvent (FunctionCallArgumentsDone call_id argsStr)) s = Ok tt
  /\ refs s' = refs s
  /\ env s' = env s
  /\ currentCard (ui s') = currentCard (ui s)
  /\ evaluation (ui s') = evaluation (ui s)
  /\ (sessionRef (refs s) <> None ->
      toolCallNames (refs s) !! call_id = Some TOOL ->
      debugInfo (ui s')
      = (debugInfo (ui s) +:+ nl +:+ "[Tool Executing] " +:+ TOOL)
          +:+ nl +:+ "Tool Error: " +:+ error_to_string e).
Proof.
  intros Hbad s'. subst s'. unfold result, exec. rewrite handle_call_eq.
  destruct (sessionRef (refs s)) as [session|];
    [|simpl; repeat split; intros; try reflexivity; congruence].
  destruct (toolCallNames (refs s) !! call_id) as [n|];
    [|simpl; repeat split; intros; try reflexivity; congruence].
  destruct (String.eqb n TOOL) eqn:Htool.
  2:{ simpl. repeat split; try reflexivity. intros _ Hn. inversion Hn; subst n.
      discriminate. }
  apply String.eqb_eq in Htool. subst n.
  rewrite evaluate_eq.
  destruct (JSON_parse argsStr) as [args|e0]; simpl in Hbad.
  - rewrite Hbad. simpl. repeat split; reflexivity.
  - inversion Hbad; subst e0. simpl. repeat split; reflexivity.
Qed.

(** *** disconnect *)

Lemma stop_track_subset (tracks live : list nat) (t : nat) :
  t ∉ live -> t ∉ fold_left stop_track tracks live.
Proof.
  revert live. induction tracks as [|track tracks IH]; intros live Hout; simpl.
  - exact Hout.
  - apply IH. unfold stop_track. rewrite list_elem_of_filter. tauto.
Qed.

Lemma stop_track_gone (tracks live : list nat) (t : nat) :
  t ∈ tracks -> t ∉ fold_left stop_track tracks live.
Proof.
  revert live. induction tracks as [|track tracks IH]; intros live Hin; simpl.
  - inversion Hin.
  - apply elem_of_cons in Hin as [->|Hin].
    + apply stop_track_subset. unfold stop_track. rewrite list_elem_of_filter. tauto.
    + apply IH. exact Hin.
Qed.

(** What [disconnect] does release. Whatever the teardown of the
    transport session does, also when it throws, disconnect returns
    normally, every track of the stream held in [streamRef] is stopped,
    and the stream is let go. *)
Theorem disconnect_releases_microphone
    (s : State) (session : RealtimeSession) (stream : MediaStream)
    (teardown : Result unit) (w : World) :
  sessionRef (refs s) = Some session ->
  streamRef (refs s) = Some stream ->
  session_disconnect (world (env s)) = (teardown, w) ->
  result disconnect s = Ok tt
  /\ (forall track, track ∈ stream -> track ∉ liveTracks (env (exec disconnect s)))
  /\ streamRef (refs (exec disconnect s)) = None
  /\ sessionRef (refs (exec disconnect s)) = None.
Proof.
  intros Hsession Hstream Hteardown. unfold result, exec, disconnect. run.
  rewrite Hsession. simpl. rewrite Hteardown.
  destruct teardown as [[]|e]; simpl; rewrite Hstream; simpl.
  all: repeat split; try reflexivity; intros track Hin; apply stop_track_gone; exact Hin.
Qed.

(** C8 (as amended). With no session and no session-scoped state held,
    disconnect returns normally and changes nothing but the debug log,
    to which it appends the line Disconnected. *)
Theorem disconnect_without_session_only_logs (s : State) :
  sessionRef (refs s) = None ->
  streamRef (refs s) = None ->
  isConnected (ui s) = false ->
  isStudyMode (ui s) = false ->
  activeDeckNameRef (refs s) = None ->
  currentCard (ui s) = JNull ->
  disconnect s = (Ok tt, logged "Disconnected." s).
Proof.
  intros Hsession Hstream Hconnected Hstudy Hdeck Hcard. unfold disconnect. run.
  rewrite Hsession. simpl. rewrite Hstream. simpl.
  destruct s as [[] [] []]; simpl in *. subst. reflexivity.
Qed.

(** *** Invariants of a computation *)

Lemma keeps_ret {A} (I : State -> Prop) (a : A) : keeps I (ret a).
Proof. intros s Hs. exact Hs. Qed.

Lemma keeps_throw {A} (I : State -> Prop) (e : JsError) : keeps I (@throw R A e).
Proof. intros s Hs. exact Hs. Qed.

Lemma keeps_lift {A} (I : State -> Prop) (r : Result A) : keeps I (lift r).
Proof. intros s Hs. exact Hs. Qed.

Lemma keeps_get {A} (I : State -> Prop) (f : State -> A) : keeps I (get f).
Proof. intros s Hs. exact Hs. Qed.

Lemma keeps_modify (I : State -> Prop) (f : State -> State) :
  (forall s, I s -> I (f s)) -> keeps I (modify f).
Proof. intros Hf s Hs. apply Hf, Hs. Qed.

Lemma keeps_bind {A B} (I : State -> Prop) (m : M A) (k : A -> M B) :
  keeps I m -> (forall a, keeps I (k a)) -> keeps I (bind m k).
Proof.
  intros Hm Hk s Hs. specialize (Hm s Hs). unfold exec, bind in *.
  destruct (m s) as [[a|e] s1]; simpl in *.
  - apply Hk, Hm.
  - exact Hm.
Qed.

(** Reading a cell whose value the invariant fixes. *)
Lemma keeps_read {A B} (I : State -> Prop) (f : State -> A) (a : A) (k : A -> M B) :
  (forall s, I s -> f s = a) -> keeps I (k a) -> keeps I (bind (get f) k).
Proof.
  intros Hf Hk s Hs. unfold exec, bind, get. simpl. rewrite (Hf s Hs). apply Hk, Hs.
Qed.

Lemma keeps_try_catch {A} (I : State -> Prop) (body : M A) (handler : JsError -> M A) :
  keeps I body -> (forall e, keeps I (handler e)) -> keeps I (try_catch body handler).
Proof.
  intros Hb Hh s Hs. specialize (Hb s Hs). unfold exec, try_catch in *.
  destruct (body s) as [[a|e] s1]; simpl in *.
  - exact Hb.
  - apply Hh, Hb.
Qed.

Lemma keeps_finally {A} (I : State -> Prop) (body : M A) (cleanup : State -> State) :
  keeps I body -> (forall s, I s -> I (cleanup s)) -> keeps I (finally body cleanup).
Proof.
  intros Hb Hc s Hs. specialize (Hb s Hs). unfold exec, finally in *.
  destruct (body s) as [r s1]; simpl in *. apply Hc, Hb.
Qed.

Lemma keeps_await {A} (I : State -> Prop) (f : World -> Result A * World) :
  (forall s w, I s -> I (with_env (set_world w) s)) -> keeps I (await f).
Proof.
  intros Hw s Hs. unfold exec, await. destruct (f _) as [r w]. simpl. apply Hw, Hs.
Qed.

Lemma yields_keeps {A} (I : State -> Prop) (Q : A -> Prop) (m : M A) :
  yields I Q m -> keeps I m.
Proof. intros Hm s Hs. apply Hm, Hs. Qed.

Lemma yields_ret {A} (I : State -> Prop) (Q : A -> Prop) (a : A) :
  Q a -> yields I Q (ret a).
Proof. intros Ha s Hs. split; [exact Hs|]. intros a' Heq. inversion Heq; subst. exact Ha. Qed.

Lemma yields_bind {A B} (I : State -> Prop) (Q : B -> Prop) (m : M A) (k : A -> M B) :
  keeps I m -> (forall a, yields I Q (k a)) -> yields I Q (bind m k).
Proof.
  intros Hm Hk s Hs. specialize (Hm s Hs). unfold exec, result, bind in *.
  destruct (m s) as [[a|e] s1]; simpl in *.
  - apply Hk, Hm.
  - split; [exact Hm|]. intros b Heq. discriminate.
Qed.

Lemma yields_try_catch {A} (I : State -> Prop) (Q : A -> Prop)
    (body : M A) (handler : JsError -> M A) :
  yields I Q body -> (forall e, yields I Q (handler e)) -> yields I Q (try_catch body handler).
Proof.
  intros Hb Hh s Hs. specialize (Hb s Hs). unfold exec, result, try_catch in *.
  destruct (body s) as [[a|e] s1]; simpl in *.
  - exact Hb.
  - apply Hh, Hb.
Qed.

Lemma yields_bind_yields {A B} (I : State -> Prop) (P : A -> Prop) (Q : B -> Prop)
    (m : M A) (k : A -> M B) :
  yields I P m -> (forall a, P a -> yields I Q (k a)) -> yields I Q (bind m k).
Proof.
  intros Hm Hk s Hs. specialize (Hm s Hs) as [Hm Ha]. unfold exec, result, bind in *.
  destruct (m s) as [[a|e] s1]; simpl in *.
  - apply Hk; [apply Ha; reflexivity|exact Hm].
  - split; [exact Hm|]. intros b Heq. discriminate.
Qed.

Lemma keeps_bind_yields {A B} (I : State -> Prop) (Q : A -> Prop) (m : M A) (k : A -> M B) :
  yields I Q m -> (forall a, Q a -> keeps I (k a)) -> keeps I (bind m k).
Proof.
  intros Hm Hk s Hs. specialize (Hm s Hs) as [Hm Ha]. unfold exec, result, bind in *.
  destruct (m s) as [[a|e] s1]; simpl in *.
  - apply Hk; [apply Ha; reflexivity|exact Hm].
  - exact Hm.
Qed.

(** *** Re-entering a study session without a deck name *)

Section Binding.

Variables (d : string) (svc : AnkiService.t) (sent0 : list ClientEvent).
Hypothesis d_truthy : d <> EmptyString.

Local Abbreviation bound := (stays_remote d svc sent0).

Lemma d_is_truthy : truthy_str (Some d) = true.
Proof.
  simpl. destruct (String.eqb d EmptyString) eqn:He; [|reflexivity].
  apply String.eqb_eq in He. contradiction.
Qed.

Lemma bound_truthy (s : State) :
  bound s -> truthy_str (activeDeckNameRef (refs s)) = true.
Proof. intros (Hd & _). rewrite Hd. exact d_is_truthy. Qed.

Lemma keeps_ui (f : UiState -> UiState) : keeps bound (modify (with_ui f)).
Proof. apply keeps_modify. intros s Hs. exact Hs. Qed.

Lemma keeps_appendDebug (msg : string) : keeps bound (appendDebug msg).
Proof. apply keeps_ui. Qed.

Lemma keeps_sendEvent (ev : ClientEvent) :
  is_demo_prompt ev = false -> keeps bound (sendEvent ev).
Proof.
  intros Hev. apply keeps_modify. intros s (Hd & Hsvc & new & Hsent & Hnew).
  repeat split; try assumption. exists (new ++ [ev]). simpl. split.
  - rewrite Hsent. symmetry. apply app_assoc.
  - apply Forall_app. split; [exact Hnew|]. constructor; [exact Hev|constructor].
Qed.

Lemma keeps_sendEvent_current (ev : ClientEvent) :
  is_demo_prompt ev = false -> keeps bound (sendEvent_current ev).
Proof.
  intros Hev. unfold sendEvent_current. apply keeps_bind; [apply keeps_get|].
  intros [session|]; [apply keeps_sendEvent, Hev|apply keeps_throw].
Qed.

Lemma keeps_invoke {T} (rpc : AnkiConnectAction -> World -> Result T * World)
    (action : string) (params : Params) :
  keeps bound (invoke rpc action params).
Proof.
  unfold invoke. apply keeps_bind.
  - apply keeps_modify. intros s Hs. exact Hs.
  - intros _. apply keeps_await. intros s w Hs. exact Hs.
Qed.

Lemma keeps_fetch : keeps bound fetchNextCardInternal.
Proof.
  unfold fetchNextCardInternal, setCurrentCard.
  apply (keeps_read _ _ (Some d)); [intros s (Hd & _); exact Hd|].
  rewrite d_is_truthy.
  apply keeps_bind; [apply keeps_get|]. intros [|nextId rest]; [apply keeps_ret|].
  apply keeps_bind; [apply keeps_invoke|]. intros [|card more]; [apply keeps_ret|].
  apply keeps_bind; [apply keeps_modify; intros s Hs; exact Hs|]. intros _.
  apply keeps_bind; [apply keeps_modify; intros s Hs; exact Hs|]. intros _.
  apply keeps_bind; [apply keeps_ui|]. intros _.
  apply keeps_ret.
Qed.

Lemma keeps_connect : keeps bound (connect true).
Proof.
  unfold connect, acquire_microphone, setIsConnecting, setError, setIsConnected.
  apply keeps_finally; [|intros s Hs; exact Hs].
  apply keeps_try_catch.
  - repeat (apply keeps_bind; [|intros ?]);
      try apply keeps_ui; try apply keeps_appendDebug; try apply keeps_ret;
      try (apply keeps_modify; intros s Hs; exact Hs);
      try (apply keeps_await; intros s w Hs; exact Hs).
    destruct (truthy_str VITE_OPENAI_API_KEY); [apply keeps_ret|apply keeps_throw].
  - intros e. repeat (apply keeps_bind; [|intros ?]);
      try apply keeps_ui; try apply keeps_appendDebug; apply keeps_ret.
Qed.

Lemma yields_init_real_session (deck : string) :
  yields bound (fun x => remote_prompt (Some x)) (init_real_session deck).
Proof.
  unfold init_real_session, findDueCards, card_content.
  apply yields_bind; [apply keeps_invoke|]. intros dueCards.
  apply yields_bind; [apply keeps_modify; intros s Hs; exact Hs|]. intros _.
  cbv zeta.
  apply yields_bind; [apply keeps_fetch|]. intros actualFirstCard.
  apply yields_bind; [apply keeps_lift|]. intros actualFirstContent.
  apply yields_bind; [apply keeps_get|]. intros hours.
  apply yields_bind; [apply keeps_lift|]. intros frontText.
  apply yields_bind; [apply keeps_lift|]. intros backText.
  apply yields_ret. simpl. discriminate.
Qed.

Lemma keeps_startStudySession (deckName : option string) :
  truthy_str deckName = false -> keeps bound (startStudySession deckName).
Proof.
  intros Hfalsy. unfold startStudySession, card_content, setIsStudyMode, setCurrentCard.
  apply keeps_bind; [apply keeps_get|]. intros session.
  apply keeps_bind.
  { destruct session; [apply keeps_ret|].
    apply keeps_bind; [apply keeps_appendDebug|]. intros _.
    apply keeps_bind; [apply keeps_connect|]. intros [|]; [apply keeps_ret|].
    apply keeps_bind; [apply keeps_appendDebug|]. intros _. apply keeps_ret. }
  intros [|]; simpl; [|apply keeps_ret].
  apply keeps_bind; [apply keeps_appendDebug|]. intros _.
  apply keeps_bind; [apply keeps_ui|]. intros _.
  apply keeps_bind; [apply keeps_get|]. intros active.
  apply keeps_bind.
  { rewrite Hfalsy. destruct (negb (truthy_str active));
      [apply keeps_appendDebug|apply keeps_ret]. }
  intros _.
  apply keeps_bind; [apply keeps_modify; intros s Hs; exact Hs|]. intros _.
  apply keeps_bind; [apply keeps_ui|]. intros _.
  apply keeps_bind; [apply keeps_fetch|]. intros firstCard.
  apply keeps_bind; [apply keeps_lift|]. intros _.
  apply (keeps_read _ _ (Some d)); [intros s (Hd & _); exact Hd|].
  rewrite d_is_truthy.
  apply (keeps_bind_yields _ remote_prompt).
  { apply yields_try_catch.
    - apply (yields_bind_yields _ _ _ _ _ (yields_init_real_session d)).
      intros x Hx. apply yields_ret. exact Hx.
    - intros e. apply yields_bind; [apply keeps_appendDebug|]. intros _.
      apply yields_ret. exact Logic.I. }
  intros [[[greeting instructions] initialContent]|] Hprompt; [|apply keeps_ret].
  apply keeps_bind; [apply keeps_appendDebug|]. intros _.
  apply keeps_bind; [|intros _; apply keeps_bind; [|intros _]].
  all: apply keeps_sendEvent_current; try reflexivity.
  simpl in Hprompt. destruct instructions; [reflexivity|reflexivity|contradiction].
Qed.

End Binding.

(** *** A remote session stays in good order *)

Section Studying.

Variable d : string.
Hypothesis d_truthy : d <> EmptyString.

Local Abbreviation ordered := (studying_on d).

Lemma ordered_ui (f : UiState -> UiState) : keeps ordered (modify (with_ui f)).
Proof. apply keeps_modify. intros s Hs. exact Hs. Qed.

Lemma ordered_env (f : Env -> Env) : keeps ordered (modify (with_env f)).
Proof. apply keeps_modify. intros s Hs. exact Hs. Qed.

Lemma ordered_answer (verdict : JsValue) : keeps ordered (answerCardInternal verdict).
Proof.
  intros s Hs. destruct (answer_frame verdict s) as (_ & Hrefs & _).
  unfold studying_on, on_deck, distinct in *. rewrite Hrefs. exact Hs.
Qed.

Lemma ordered_fetch : keeps ordered fetchNextCardInternal.
Proof.
  intros s Hs.
  assert (Hmode : remote s).
  { destruct Hs as (Hdeck & _). unfold remote. rewrite Hdeck. apply d_is_truthy, d_truthy. }
  destruct (realQueueRef (refs s)) as [|head rest] eqn:Hq.
  - unfold exec. rewrite (fetch_remote_empty s Hmode Hq). exact Hs.
  - destruct Hs as (Hdeck & [Hnodup Hcurrent] & Hserved).
    rewrite Hq in Hnodup, Hcurrent, Hserved.
    destruct (Hserved head (list_elem_of_here head rest) (world (env s)))
      as (card & more & w & Hw & Hid).
    unfold exec. rewrite (fetch_remote_found s head rest card more w Hmode Hq Hw).
    apply NoDup_cons in Hnodup as [Hfresh Hnodup].
    unfold studying_on, distinct. simpl. repeat split.
    + exact Hdeck.
    + exact Hnodup.
    + intros cardId Heq. rewrite Hid in Heq. inversion Heq; subst cardId. exact Hfresh.
    + intros cardId Hin. apply Hserved. right. exact Hin.
Qed.

Lemma ordered_evaluate (call_id argsStr : string) :
  keeps ordered (evaluate_and_move_next call_id argsStr).
Proof.
  unfold evaluate_and_move_next, card_content, appendDebug, setEvaluation, sendEvent.
  apply keeps_bind; [apply keeps_lift|]. intros args.
  apply keeps_bind; [apply keeps_lift|]. intros verdict.
  apply keeps_bind; [apply keeps_lift|]. intros feedback.
  apply keeps_bind; [apply keeps_lift|]. intros verdictText.
  apply keeps_bind; [apply keeps_lift|]. intros feedbackText.
  apply keeps_bind; [apply ordered_ui|]. intros _.
  apply keeps_bind; [apply ordered_ui|]. intros _.
  apply keeps_bind; [apply keeps_get|]. intros current. cbv zeta.
  apply keeps_bind; [apply ordered_answer|]. intros _.
  apply keeps_bind; [apply ordered_fetch|]. intros nextCard.
  apply keeps_bind; [apply keeps_lift|]. intros nextCardOutput.
  apply keeps_bind; [apply ordered_ui|]. intros _.
  apply keeps_bind; [apply ordered_env|]. intros _.
  apply ordered_env.
Qed.

Lemma ordered_handle (event : TransportEvent) : keeps ordered (handleTransportEvent event).
Proof.
  unfold handleTransportEvent, appendDebug.
  apply keeps_bind; [apply keeps_get|]. intros [session|]; [|apply keeps_ret].
  apply keeps_bind.
  { destruct event; try apply keeps_ret; apply ordered_ui. }
  intros _. destruct (is_delta event); [apply keeps_ret|].
  apply keeps_bind.
  { destruct event as [| | | |[item|]| |]; try apply keeps_ret.
    destruct (String.eqb (item_type item) "function_call"); [|apply keeps_ret].
    apply keeps_bind; [|intros _; apply ordered_ui].
    apply keeps_modify. intros s Hs. exact Hs. }
  intros _. destruct event; try apply keeps_ret.
  apply keeps_bind; [apply keeps_get|]. intros name.
  apply keeps_bind; [apply ordered_ui|]. intros _.
  destruct name as [n|]; [|apply keeps_ret].
  destruct (String.eqb n TOOL); [|apply keeps_ret].
  apply keeps_try_catch; [apply ordered_evaluate|].
  intros e. apply ordered_ui.
Qed.

(** Whatever events the transport delivers, in whatever order, the
    session stays in good order. *)
Lemma ordered_deliver (events : list TransportEvent) (s : State) :
  ordered s -> ordered (deliver events s).
Proof.
  revert s. induction events as [|event later IH]; intros s Hs; simpl.
  - exact Hs.
  - apply IH, ordered_handle, Hs.
Qed.

End Studying.

(** *** Starting a remote session puts it in good order *)

Lemma triple_ret {A} (P : State -> Prop) (Q : A -> State -> Prop) (E : State -> Prop) (a : A) :
  (forall s, P s -> Q a s) -> triple P (ret a) Q E.
Proof. intros H s Hs. apply H, Hs. Qed.

Lemma triple_bind {A B} (P : State -> Prop) (Q1 : A -> State -> Prop)
    (Q : B -> State -> Prop) (E : State -> Prop) (m : M A) (k : A -> M B) :
  triple P m Q1 E -> (forall a, triple (Q1 a) (k a) Q E) -> triple P (bind m k) Q E.
Proof.
  intros Hm Hk s Hs. specialize (Hm s Hs). unfold bind.
  destruct (m s) as [[a|e] s1].
  - apply Hk, Hm.
  - exact Hm.
Qed.

Lemma triple_get {A} (P : State -> Prop) (E : State -> Prop) (f : State -> A) :
  triple P (get f) (fun a s => P s /\ a = f s) E.
Proof. intros s Hs. simpl. auto. Qed.

Lemma triple_modify (P : State -> Prop) (Q : unit -> State -> Prop) (E : State -> Prop)
    (f : State -> State) :
  (forall s, P s -> Q tt (f s)) -> triple P (modify f) Q E.
Proof. intros H s Hs. apply H, Hs. Qed.

Lemma triple_try_catch {A} (P : State -> Prop) (Q : A -> State -> Prop)
    (E1 E : State -> Prop) (body : M A) (handler : JsError -> M A) :
  triple P body Q E1 -> (forall e, triple E1 (handler e) Q E) ->
  triple P (try_catch body handler) Q E.
Proof.
  intros Hb Hh s Hs. specialize (Hb s Hs). unfold try_catch.
  destruct (body s) as [[a|e] s1].
  - exact Hb.
  - apply Hh, Hb.
Qed.

Lemma triple_keeps {A} (I : State -> Prop) (m : M A) :
  keeps I m -> triple I m (fun _ => I) I.
Proof.
  intros Hm s Hs. specialize (Hm s Hs). unfold exec in Hm.
  destruct (m s) as [[a|e] s1]; exact Hm.
Qed.

Lemma triple_weaken {A} (P P' : State -> Prop) (Q Q' : A -> State -> Prop)
    (E E' : State -> Prop) (m : M A) :
  triple P m Q E ->
  (forall s, P' s -> P s) -> (forall a s, Q a s -> Q' a s) -> (forall s, E s -> E' s) ->
  triple P' m Q' E'.
Proof.
  intros Hm HP HQ HE s Hs. specialize (Hm s (HP s Hs)).
  destruct (m s) as [[a|e] s1]; [apply HQ|apply HE]; exact Hm.
Qed.

Lemma triple_assume {A} (fact : Prop) (Q : A -> State -> Prop) (E : State -> Prop) (m : M A) :
  (fact -> triple (fun _ => True) m Q E) -> triple (fun _ => fact) m Q E.
Proof. intros H s Hs. apply (H Hs). exact Logic.I. Qed.

Lemma triple_keeps_returning {A} (I : State -> Prop) (m : M A) :
  keeps I m -> triple I m (fun _ => I) (fun _ => True).
Proof.
  intros Hm s Hs. specialize (Hm s Hs). unfold exec in Hm.
  destruct (m s) as [[a|e] s1]; [exact Hm|exact Logic.I].
Qed.

Section Start.

Variable d : string.
Hypothesis d_truthy : d <> EmptyString.

Lemma on_deck_fetch : keeps (on_deck d) fetchNextCardInternal.
Proof.
  intros s Hs. unfold on_deck. rewrite (proj1 (fetch_keeps_binding s)). exact Hs.
Qed.

Lemma findDueCards_lists (due : list Z) (E : State -> Prop) :
  lists_due d due ->
  triple (on_deck d) (findDueCards d) (fun dueCards s => on_deck d s /\ dueCards = due) E.
Proof.
  intros Hdue s Hdeck. unfold findDueCards. fold (findDueCards_request d).
  rewrite invoke_eq. fold (findDueCards_request d).
  destruct (Hdue (world (env s))) as [w Hw]. rewrite Hw. simpl. auto.
Qed.

(** With the due cards queued, fetching puts the session in good
    order. *)
Lemma fetch_first_due (due : list Z) (E : State -> Prop) :
  NoDup due ->
  (forall cardId, cardId ∈ due -> serves cardId) ->
  triple (fun s => on_deck d s /\ realQueueRef (refs s) = due)
    fetchNextCardInternal (fun _ => studying_on d) E.
Proof.
  intros Hnodup Hserved s [Hdeck Hq].
  assert (Hmode : remote s).
  { unfold remote. unfold on_deck in Hdeck. rewrite Hdeck. apply d_is_truthy, d_truthy. }
  destruct due as [|head rest].
  - rewrite (fetch_remote_empty s Hmode Hq). repeat split.
    + exact Hdeck.
    + rewrite Hq. constructor.
    + rewrite Hq. intros cardId _ Hin. inversion Hin.
    + rewrite Hq. intros cardId Hin. inversion Hin.
  - destruct (Hserved head (list_elem_of_here head rest) (world (env s)))
      as (card & more & w & Hw & Hid).
    rewrite (fetch_remote_found s head rest card more w Hmode Hq Hw).
    apply NoDup_cons in Hnodup as [Hfresh Hrest].
    unfold studying_on, distinct. simpl. repeat split.
    + exact Hdeck.
    + exact Hrest.
    + intros cardId Heq. rewrite Hid in Heq. inversion Heq; subst cardId. exact Hfresh.
    + intros cardId Hin. apply Hserved. right. exact Hin.
Qed.

Lemma init_real_session_order (due : list Z) :
  lists_due d due ->
  NoDup due ->
  (forall cardId, cardId ∈ due -> serves cardId) ->
  triple (on_deck d) (init_real_session d) (fun _ => studying_on d) (studying_on d).
Proof.
  intros Hdue Hnodup Hserved. unfold init_real_session, card_content.
  apply triple_bind with (Q1 := fun dueCards s => on_deck d s /\ dueCards = due);
    [apply findDueCards_lists, Hdue|].
  intros dueCards.
  apply triple_bind with (Q1 := fun _ s => on_deck d s /\ realQueueRef (refs s) = due).
  { apply triple_modify. intros s [Hdeck Heq]. split; [exact Hdeck|simpl; congruence]. }
  intros []. cbv zeta.
  apply triple_bind with (Q1 := fun _ => studying_on d);
    [apply fetch_first_due; assumption|].
  intros actualFirstCard.
  apply triple_bind with (Q1 := fun _ => studying_on d); [apply triple_keeps, keeps_lift|].
  intros actualFirstContent.
  apply triple_bind with (Q1 := fun _ => studying_on d); [apply triple_keeps, keeps_get|].
  intros hours.
  apply triple_bind with (Q1 := fun _ => studying_on d); [apply triple_keeps, keeps_lift|].
  intros frontText.
  apply triple_bind with (Q1 := fun _ => studying_on d); [apply triple_keeps, keeps_lift|].
  intros backText. apply triple_ret. auto.
Qed.

(** Starting a study session on a deck whose due cards the service lists
    without repetition, and serves, leaves the session in good order
    whenever the call returns. *)
Lemma start_establishes_order (due : list Z) :
  lists_due d due ->
  NoDup due ->
  (forall cardId, cardId ∈ due -> serves cardId) ->
  triple (fun s => sessionRef (refs s) <> None) (startStudySession (Some d))
    (fun _ => studying_on d) (fun _ => True).
Proof.
  intros Hdue Hnodup Hserved.
  unfold startStudySession, card_content, setIsStudyMode, setCurrentCard, appendDebug.
  eapply triple_bind; [apply triple_get|].
  intros [session|]; [|intros s [Hs Heq]; congruence].
  apply triple_bind with (Q1 := fun proceed _ => proceed = true); [apply triple_ret; auto|].
  intros proceed. apply triple_assume. intros ->. cbn [negb].
  apply triple_bind with (Q1 := fun _ _ => True); [apply triple_modify; auto|]. intros [].
  apply triple_bind with (Q1 := fun _ _ => True); [apply triple_modify; auto|]. intros [].
  apply triple_bind with (Q1 := fun _ _ => True); [intros s _; exact Logic.I|]. intros active.
  rewrite (d_is_truthy d d_truthy).
  apply triple_bind with (Q1 := fun _ => on_deck d).
  { apply triple_modify. intros s _. reflexivity. }
  intros [].
  apply triple_bind with (Q1 := fun _ => on_deck d); [apply triple_modify; auto|]. intros [].
  apply triple_bind with (Q1 := fun _ => on_deck d); [apply triple_modify; auto|]. intros [].
  apply triple_bind with (Q1 := fun _ => on_deck d).
  { apply triple_keeps_returning, on_deck_fetch. }
  intros firstCard.
  apply triple_bind with (Q1 := fun _ => on_deck d).
  { apply triple_keeps_returning, keeps_lift. }
  intros firstCardContent.
  apply triple_bind with
    (Q1 := fun currentDeck s => on_deck d s /\ currentDeck = activeDeckNameRef (refs s));
    [apply triple_get|].
  intros currentDeck.
  apply triple_bind with (Q1 := fun _ => studying_on d).
  { intros s [Hdeck Hcurrent]. subst currentDeck. unfold on_deck in Hdeck. rewrite Hdeck.
    rewrite (d_is_truthy d d_truthy). revert s Hdeck.
    change (triple (on_deck d)
              (try_catch (x <- init_real_session d ;; ret (Some x))
                 (fun e => modify (with_ui (fun u =>
                    set_debugInfo
                      (debugInfo u +:+ nl +:+ "Error init real session: " +:+ message e) u)) ;;
                    ret None))
              (fun _ => studying_on d) (fun _ => True)).
    apply triple_try_catch with (E1 := studying_on d).
    - apply triple_bind with (Q1 := fun _ => studying_on d);
        [apply (init_real_session_order due); assumption|].
      intros x. apply triple_ret. auto.
    - intros e. apply triple_bind with (Q1 := fun _ => studying_on d).
      + apply triple_keeps_returning, ordered_ui.
      + intros []. apply triple_ret. auto. }
  intros [[[greeting instructions] initialContent]|]; [|apply triple_ret; auto].
  apply triple_keeps_returning.
  apply keeps_bind; [apply ordered_ui|]. intros _.
  unfold sendEvent_current, sendEvent.
  apply keeps_bind.
  { apply keeps_bind; [apply keeps_get|]. intros [s0|]; [apply ordered_env|apply keeps_throw]. }
  intros _. apply keeps_bind.
  { apply keeps_bind; [apply keeps_get|]. intros [s0|]; [apply ordered_env|apply keeps_throw]. }
  intros _.
  apply keeps_bind; [apply keeps_get|]. intros [s0|]; [apply ordered_env|apply keeps_throw].
Qed.

(** X26. A remote session, once started, stays in good order under every
    sequence of transport events. *)
Lemma started_session_stays_ordered
    (s : State) (due : list Z) (events : list TransportEvent) :
  sessionRef (refs s) <> None ->
  lists_due d due ->
  NoDup due ->
  (forall cardId, cardId ∈ due -> serves cardId) ->
  result (startStudySession (Some d)) s = Ok tt ->
  studying_on d (deliver events (exec (startStudySession (Some d)) s)).
Proof.
  intros Hsession Hdue Hnodup Hserved Hok.
  apply ordered_deliver; [exact d_truthy|].
  pose proof (start_establishes_order due Hdue Hnodup Hserved s Hsession) as Hstart.
  unfold result, exec in *. destruct (startStudySession (Some d) s) as [[[]|e] s1].
  - exact Hstart.
  - discriminate.
Qed.

End Start.

(** C6. Invoked without a deck name while a remote deck is bound,
    [startStudySession] leaves that binding as it is, however the
    invocation ends: the session is still in remote mode on the same
    deck, the demo service is not touched, and no message sent by the
    invocation installs the demo prompt. *)
Theorem absent_deck_name_keeps_remote_binding
    (s : State) (deckName : option string) (d : string) :
  truthy_str deckName = false ->
  activeDeckNameRef (refs s) = Some d ->
  d <> EmptyString ->
  let s' := exec (startStudySession deckName) s in
  activeDeckNameRef (refs s') = Some d
  /\ remote s'
  /\ mockServiceRef (refs s') = mockServiceRef (refs s)
  /\ exists new, sent (env s') = sent (env s) ++ new
                 /\ Forall (fun ev => is_demo_prompt ev = false) new.
Proof.
  intros Hfalsy Hbound Hd s'.
  assert (Hinv : stays_remote d (mockServiceRef (refs s)) (sent (env s)) s').
  { apply (keeps_startStudySession d _ _ Hd deckName Hfalsy).
    repeat split; [exact Hbound|]. exists []. split; [symmetry; apply app_nil_r|constructor]. }
  destruct Hinv as (Hdeck & Hsvc & Hsent).
  repeat split; try assumption.
  apply (bound_truthy d (mockServiceRef (refs s)) (sent (env s)) Hd).
  repeat split; assumption.
Qed.

End Properties.

(** ** The verdict badge *)

Lemma null_differs_from_truthy (v : JsValue) :
  truthy v = true -> Badge.same_value JNull v = false.
Proof. destruct v; simpl; first [discriminate|reflexivity]. Qed.

Lemma changed_verdict_eq (c : Badge.Cell) (v : JsValue) :
  Badge.same_value v (Badge.evaluation c) = false ->
  Badge.setEvaluation v c
  = Badge.mkCell v (if truthy v then Some (Badge.now c + Badge.DELAY) else None) (Badge.now c).
Proof.
  intros Hnew. unfold Badge.setEvaluation, Badge.effect, Badge.cleanup. rewrite Hnew. simpl.
  destruct (truthy v); reflexivity.
Qed.

(** C9 (as amended). When the verdict display is set to a value other
    than the one it shows, it shows that value, and whatever timer was
    pending is replaced: with a truthy value the display shows it for
    the next 3000 milliseconds and is [null], with no timer pending,
    from exactly 3000 milliseconds on, if it is not set to another value
    in between; with a falsy value no timer is started and the display
    keeps the value. *)
Theorem verdict_clears_three_seconds_after_change (c : Badge.Cell) (v : JsValue) :
  Badge.same_value v (Badge.evaluation c) = false ->
  let c1 := Badge.setEvaluation v c in
  Badge.evaluation c1 = v
  /\ (truthy v = true ->
      (forall dt, 0 <= dt < Badge.DELAY -> Badge.evaluation (Badge.elapse dt c1) = v)
      /\ (forall dt, Badge.DELAY <= dt ->
            Badge.evaluation (Badge.elapse dt c1) = JNull
            /\ Badge.pending (Badge.elapse dt c1) = None))
  /\ (truthy v = false ->
      forall dt, 0 <= dt ->
        Badge.evaluation (Badge.elapse dt c1) = v
        /\ Badge.pending (Badge.elapse dt c1) = None).
Proof.
  intros Hnew c1. subst c1. rewrite (changed_verdict_eq c v Hnew).
  split; [reflexivity|]. split.
  - intros Htruthy. rewrite Htruthy. split.
    + intros dt Hdt. unfold Badge.elapse. simpl.
      destruct (Badge.now c + Badge.DELAY <=? Badge.now c + dt) eqn:Hdue; [|reflexivity].
      apply Z.leb_le in Hdue. lia.
    + intros dt Hdt. unfold Badge.elapse.
      cbn [Badge.pending Badge.now Badge.evaluation].
      destruct (Badge.now c + Badge.DELAY <=? Badge.now c + dt) eqn:Hdue.
      * unfold Badge.setEvaluation. cbn [Badge.pending Badge.now Badge.evaluation].
        rewrite (null_differs_from_truthy v Htruthy). split; reflexivity.
      * apply Z.leb_gt in Hdue. lia.
  - intros Hfalsy dt Hdt. rewrite Hfalsy. split; reflexivity.
Qed.

(** ** The rest of the hook *)

Section Lifecycle.

Context {R : Runtime}.

(** *** connect *)

(** X1. [connect] never throws: it returns a flag, which is what
    [isConnected] then shows; [isConnecting] is off again; on success no
    error is on display and both the session and the stream are held, on
    failure an error is on display. *)
Theorem connect_reports_outcome (skipGreeting : bool) (s : State) :
  exists connected : bool,
    result (connect skipGreeting) s = Ok connected
    /\ isConnected (ui (exec (connect skipGreeting) s)) = connected
    /\ isConnecting (ui (exec (connect skipGreeting) s)) = false
    /\ (connected = true ->
        error (ui (exec (connect skipGreeting) s)) = None
        /\ is_Some (sessionRef (refs (exec (connect skipGreeting) s)))
        /\ is_Some (streamRef (refs (exec (connect skipGreeting) s))))
    /\ (connected = false -> is_Some (error (ui (exec (connect skipGreeting) s)))).
Proof.
  unfold result, exec, connect, acquire_microphone. run.
  destruct (truthy_str VITE_OPENAI_API_KEY); simpl.
  2:{ exists false. repeat split; try discriminate; eauto. }
  destruct (getUserMedia (world (env s))) as [[stream|e] w]; simpl.
  2:{ exists false. repeat split; try discriminate; eauto. }
  destruct (session_connect w) as [[[]|e] w']; simpl.
  2:{ exists false. repeat split; try discriminate; eauto. }
  exists true. destruct skipGreeting; simpl; repeat split; try discriminate; eauto.
Qed.

(** X2. Without an API key [connect] gives up before it asks for the
    microphone: it returns false with the error on display, and the
    refs, the world, the live tracks and the messages sent are as they
    were. *)
Theorem connect_without_key_touches_nothing (skipGreeting : bool) (s : State) :
  truthy_str VITE_OPENAI_API_KEY = false ->
  result (connect skipGreeting) s = Ok false
  /\ refs (exec (connect skipGreeting) s) = refs s
  /\ env (exec (connect skipGreeting) s) = env s
  /\ error (ui (exec (connect skipGreeting) s)) = Some "VITE_OPENAI_API_KEY not found"
  /\ debugInfo (ui (exec (connect skipGreeting) s))
     = (debugInfo (ui s) +:+ nl +:+ "Starting connection...")
         +:+ nl +:+ "Error: VITE_OPENAI_API_KEY not found".
Proof.
  intros Hkey. unfold result, exec, connect, acquire_microphone. run. rewrite Hkey. simpl.
  repeat split.
Qed.

(** X3. When the microphone is refused, [connect] returns false with the
    refusal on display; no session and no stream is taken, no track
    starts capturing and nothing is sent. *)
Theorem connect_without_microphone (skipGreeting : bool) (s : State) (e : JsError) (w : World) :
  truthy_str VITE_OPENAI_API_KEY = true ->
  getUserMedia (world (env s)) = (Throw e, w) ->
  result (connect skipGreeting) s = Ok false
  /\ refs (exec (connect skipGreeting) s) = refs s
  /\ liveTracks (env (exec (connect skipGreeting) s)) = liveTracks (env s)
  /\ sent (env (exec (connect skipGreeting) s)) = sent (env s)
  /\ error (ui (exec (connect skipGreeting) s)) = Some (message e)
  /\ isConnected (ui (exec (connect skipGreeting) s)) = false.
Proof.
  intros Hkey Hmic. unfold result, exec, connect, acquire_microphone. run.
  rewrite Hkey. simpl. rewrite Hmic. simpl. repeat split.
Qed.

(** X4. When the transport refuses to connect after the microphone was
    granted, [connect] returns false, but the stream and the session
    stay in their refs and the tracks of the stream keep capturing;
    nothing is sent. *)
Theorem connect_failure_keeps_microphone
    (skipGreeting : bool) (s : State) (stream : MediaStream) (e : JsError) (w w' : World) :
  truthy_str VITE_OPENAI_API_KEY = true ->
  getUserMedia (world (env s)) = (Ok stream, w) ->
  session_connect w = (Throw e, w') ->
  result (connect skipGreeting) s = Ok false
  /\ streamRef (refs (exec (connect skipGreeting) s)) = Some stream
  /\ sessionRef (refs (exec (connect skipGreeting) s)) = Some (mkSession stream)
  /\ liveTracks (env (exec (connect skipGreeting) s)) = liveTracks (env s) ++ stream
  /\ sent (env (exec (connect skipGreeting) s)) = sent (env s)
  /\ isConnected (ui (exec (connect skipGreeting) s)) = false
  /\ error (ui (exec (connect skipGreeting) s)) = Some (message e).
Proof.
  intros Hkey Hmic Hconnect. unfold result, exec, connect, acquire_microphone. run.
  rewrite Hkey. simpl. rewrite Hmic. simpl. rewrite Hconnect. simpl. repeat split.
Qed.

(** X5. A connection that succeeds holds the stream and a session on it,
    and sends the greeting (the instruction and the response trigger)
    unless the greeting is skipped, in which case it sends nothing; the
    deck binding, the due queue and the current card are not touched. *)
Theorem connect_success
    (skipGreeting : bool) (s : State) (stream : MediaStream) (w w' : World) :
  truthy_str VITE_OPENAI_API_KEY = true ->
  getUserMedia (world (env s)) = (Ok stream, w) ->
  session_connect w = (Ok tt, w') ->
  result (connect skipGreeting) s = Ok true
  /\ streamRef (refs (exec (connect skipGreeting) s)) = Some stream
  /\ sessionRef (refs (exec (connect skipGreeting) s)) = Some (mkSession stream)
  /\ liveTracks (env (exec (connect skipGreeting) s)) = liveTracks (env s) ++ stream
  /\ sent (env (exec (connect skipGreeting) s))
     = sent (env s)
         ++ (if skipGreeting then [] else [SessionUpdateGreeting SayHello; ResponseCreate])
  /\ activeDeckNameRef (refs (exec (connect skipGreeting) s)) = activeDeckNameRef (refs s)
  /\ realQueueRef (refs (exec (connect skipGreeting) s)) = realQueueRef (refs s)
  /\ currentCardRef (refs (exec (connect skipGreeting) s)) = currentCardRef (refs s).
Proof.
  intros Hkey Hmic Hconnect. unfold result, exec, connect, acquire_microphone. run.
  rewrite Hkey. simpl. rewrite Hmic. simpl. rewrite Hconnect. simpl.
  destruct skipGreeting; simpl; repeat split.
  all: try (symmetry; apply app_nil_r).
  all: try (rewrite <- !app_assoc; reflexivity).
Qed.

(** *** disconnect *)

Lemma disconnect_state (s : State) :
  sessionRef (refs (exec disconnect s)) = None
  /\ streamRef (refs (exec disconnect s)) = None
  /\ activeDeckNameRef (refs (exec disconnect s)) = None
  /\ isConnected (ui (exec disconnect s)) = false
  /\ isStudyMode (ui (exec disconnect s)) = false
  /\ currentCard (ui (exec disconnect s)) = JNull.
Proof.
  unfold exec, disconnect. run.
  destruct (sessionRef (refs s)) as [session|] eqn:Hsession; simpl.
  - destruct (session_disconnect (world (env s))) as [[[]|e] w]; simpl;
      destruct (streamRef (refs s)) eqn:Hstream; simpl; repeat split; assumption.
  - destruct (streamRef (refs s)) eqn:Hstream; simpl; repeat split; assumption.
Qed.

(** X6. [disconnect] never throws and resets what it is written to
    reset: the session and the stream are let go, the connection and
    study flags are off, no deck is bound and no card is displayed. It
    does not touch the due queue, the card kept for the tool, the
    registry of announced calls or the demo service, and it neither
    sends nor posts. *)
Theorem disconnect_resets_and_keeps (s : State) :
  result disconnect s = Ok tt
  /\ (sessionRef (refs (exec disconnect s)) = None
      /\ streamRef (refs (exec disconnect s)) = None
      /\ activeDeckNameRef (refs (exec disconnect s)) = None
      /\ isConnected (ui (exec disconnect s)) = false
      /\ isStudyMode (ui (exec disconnect s)) = false
      /\ currentCard (ui (exec disconnect s)) = JNull)
  /\ (realQueueRef (refs (exec disconnect s)) = realQueueRef (refs s)
      /\ currentCardRef (refs (exec disconnect s)) = currentCardRef (refs s)
      /\ toolCallNames (refs (exec disconnect s)) = toolCallNames (refs s)
      /\ mockServiceRef (refs (exec disconnect s)) = mockServiceRef (refs s)
      /\ sent (env (exec disconnect s)) = sent (env s)
      /\ posted (env (exec disconnect s)) = posted (env s)).
Proof.
  unfold result, exec, disconnect. run.
  destruct (sessionRef (refs s)) as [session|] eqn:Hsession; simpl.
  - destruct (session_disconnect (world (env s))) as [[[]|e] w]; simpl;
      destruct (streamRef (refs s)) eqn:Hstream; simpl; repeat split; try assumption.
  - destruct (streamRef (refs s)) eqn:Hstream; simpl; repeat split; try assumption.
Qed.

(** X7. A second [disconnect] finds nothing left to release: all it does
    is append its line to the debug log. *)
Theorem disconnect_twice (s : State) :
  disconnect (exec disconnect s) = (Ok tt, logged "Disconnected." (exec disconnect s)).
Proof.
  destruct (disconnect_state s) as (Hsession & Hstream & Hdeck & Hconnected & Hstudy & Hcard).
  remember (exec disconnect s) as s1. clear Heqs1.
  unfold disconnect. run. rewrite Hsession. simpl. rewrite Hstream. simpl.
  destruct s1 as [[] [] []]; simpl in *. subst. reflexivity.
Qed.

Lemma connect_holds (skipGreeting : bool) (s : State) (stream : MediaStream) (w : World) :
  truthy_str VITE_OPENAI_API_KEY = true ->
  getUserMedia (world (env s)) = (Ok stream, w) ->
  streamRef (refs (exec (connect skipGreeting) s)) = Some stream
  /\ liveTracks (env (exec (connect skipGreeting) s)) = liveTracks (env s) ++ stream.
Proof.
  intros Hkey Hmic.
  unfold exec, connect, acquire_microphone. run. rewrite Hkey. simpl. rewrite Hmic. simpl.
  destruct (session_connect w) as [[[]|e] w']; simpl; [|auto].
  destruct skipGreeting; simpl; auto.
Qed.

Lemma disconnect_live (s : State) (stream : MediaStream) :
  streamRef (refs s) = Some stream ->
  liveTracks (env (exec disconnect s)) = fold_left stop_track stream (liveTracks (env s)).
Proof.
  intros Hstream. unfold exec, disconnect. run.
  destruct (sessionRef (refs s)) as [session|]; simpl.
  - destruct (session_disconnect (world (env s))) as [[[]|e] w]; simpl;
      rewrite Hstream; reflexivity.
  - rewrite Hstream. reflexivity.
Qed.

Lemma stop_track_keeps (tracks live : list nat) (t : nat) :
  t ∈ live -> t ∉ tracks -> t ∈ fold_left stop_track tracks live.
Proof.
  revert live. induction tracks as [|track tracks IH]; intros live Hin Hout; simpl.
  - exact Hin.
  - apply not_elem_of_cons in Hout as [Hne Hout]. apply IH; [|exact Hout].
    unfold stop_track. rewrite list_elem_of_filter. auto.
Qed.

Lemma disconnect_stops_stream (s : State) (stream : MediaStream) :
  streamRef (refs s) = Some stream ->
  forall track, track ∈ stream -> track ∉ liveTracks (env (exec disconnect s)).
Proof.
  intros Hstream track Hin. unfold exec, disconnect. run.
  destruct (sessionRef (refs s)) as [session|]; simpl.
  - destruct (session_disconnect (world (env s))) as [[[]|e] w]; simpl;
      rewrite Hstream; simpl; apply stop_track_gone; exact Hin.
  - rewrite Hstream. simpl. apply stop_track_gone. exact Hin.
Qed.

(** X21. Once the microphone was granted, [disconnect] stops every
    track that [connect] started, whether the transport then connected
    or refused: a failed connection leaves the microphone capturing, and
    the following [disconnect] releases it. *)
Theorem disconnect_after_connect_releases_microphone
    (skipGreeting : bool) (s : State) (stream : MediaStream) (w : World) :
  truthy_str VITE_OPENAI_API_KEY = true ->
  getUserMedia (world (env s)) = (Ok stream, w) ->
  (forall track, track ∈ stream -> track ∈ liveTracks (env (exec (connect skipGreeting) s)))
  /\ (forall track, track ∈ stream ->
        track ∉ liveTracks (env (exec disconnect (exec (connect skipGreeting) s))))
  /\ sessionRef (refs (exec disconnect (exec (connect skipGreeting) s))) = None.
Proof.
  intros Hkey Hmic.
  destruct (connect_holds skipGreeting s stream w Hkey Hmic) as [Hstream Hlive].
  split; [|split].
  - intros track Hin. rewrite Hlive. apply elem_of_app. right. exact Hin.
  - apply disconnect_stops_stream. exact Hstream.
  - apply disconnect_state.
Qed.

(** X29. [connect] does not look whether a stream is already held: a
    second [connect] overwrites the stream ref, so the following
    [disconnect] stops the tracks of the second capture only, and
    every track of the first capture that is not also a track of the
    second keeps capturing although no ref leads to it any more. *)
Theorem second_connect_orphans_first_stream
    (first second : bool) (s : State) (stream1 stream2 : MediaStream) (w1 w2 : World) :
  truthy_str VITE_OPENAI_API_KEY = true ->
  getUserMedia (world (env s)) = (Ok stream1, w1) ->
  getUserMedia (world (env (exec (connect first) s))) = (Ok stream2, w2) ->
  let s' := exec disconnect (exec (connect second) (exec (connect first) s)) in
  streamRef (refs s') = None
  /\ (forall track, track ∈ stream2 -> track ∉ liveTracks (env s'))
  /\ (forall track, track ∈ stream1 -> track ∉ stream2 -> track ∈ liveTracks (env s')).
Proof.
  intros Hkey Hmic1 Hmic2 s'. subst s'.
  destruct (connect_holds first s stream1 w1 Hkey Hmic1) as [_ Hlive1].
  destruct (connect_holds second _ stream2 w2 Hkey Hmic2) as [Hstream2 Hlive2].
  split; [apply disconnect_state|]. split.
  - apply disconnect_stops_stream. exact Hstream2.
  - intros track Hin Hout. rewrite (disconnect_live _ stream2 Hstream2).
    apply stop_track_keeps; [|exact Hout].
    rewrite Hlive2, Hlive1. apply elem_of_app. left. apply elem_of_app. right. exact Hin.
Qed.

End Lifecycle.

(** ** The demo deck service *)

Section Deck.

(** X20. [AnkiService] deals its deck in order, each card once, and
    then answers [null] for ever: [n] calls of [getNextCard] return the
    next [n] cards from the cursor on, followed by [null]s once the deck
    is used up; the deck itself is not changed, the cursor never passes
    the end of the deck, and the statistics count what is left. *)
Theorem deck_is_dealt_in_order (n : nat) (svc : AnkiService.t) :
  let cards := AnkiService.deck svc in
  let i := AnkiService.currentIndex svc in
  fst (draw n svc)
  = map Some (take n (drop i cards)) ++ replicate (n - (length cards - i)) None
  /\ AnkiService.deck (snd (draw n svc)) = cards
  /\ AnkiService.currentIndex (snd (draw n svc)) = Nat.max i (Nat.min (i + n) (length cards))
  /\ AnkiService.remainingCards (AnkiService.getDeckStats (snd (draw n svc)))
     = (length cards - i - n)%nat.
Proof.
  cbv zeta. revert svc. induction n as [|n IH]; intros [cards i].
  - simpl. repeat split; lia.
  - cbn [draw]. unfold AnkiService.getNextCard, AnkiService.getDeckStats in *.
    cbn [AnkiService.deck AnkiService.currentIndex AnkiService.remainingCards] in *.
    destruct (length cards <=? i)%nat eqn:Hle.
    + apply Nat.leb_le in Hle.
      specialize (IH (AnkiService.mk cards i)).
      cbn [AnkiService.deck AnkiService.currentIndex AnkiService.remainingCards] in IH.
      destruct (draw n (AnkiService.mk cards i)) as [dealt svc'].
      cbn [fst snd] in *. destruct IH as (Hdealt & Hdeck & Hcursor & Hleft).
      rewrite Hdealt, Hdeck, Hcursor. rewrite (drop_ge cards i Hle), !take_nil.
      replace (length cards - i)%nat with 0%nat by lia. rewrite !Nat.sub_0_r.
      repeat split; lia.
    + apply Nat.leb_gt in Hle.
      destruct (lookup_lt_is_Some_2 _ _ Hle) as [c Hc]. rewrite Hc.
      specialize (IH (AnkiService.mk cards (S i))).
      cbn [AnkiService.deck AnkiService.currentIndex AnkiService.remainingCards] in IH.
      destruct (draw n (AnkiService.mk cards (S i))) as [dealt svc'].
      cbn [fst snd] in *. destruct IH as (Hdealt & Hdeck & Hcursor & Hleft).
      rewrite Hdealt, Hdeck, Hcursor. rewrite (drop_S cards c i Hc).
      replace (S n - (length cards - i))%nat with (n - (length cards - S i))%nat by lia.
      repeat split; lia.
Qed.

End Deck.

(** ** The handler of transport events *)

Section Handler.

Context {R : Runtime}.

Lemma handle_without_session (event : TransportEvent) (s : State) :
  sessionRef (refs s) = None -> handleTransportEvent event s = (Ok tt, s).
Proof. intros Hsession. unfold handleTransportEvent. run. rewrite Hsession. reflexivity. Qed.

(** The announcement of a call under the id [__proto__] registers
    nothing: the assignment goes to the setter of [Object.prototype],
    which ignores a string. *)
Lemma proto_call_is_not_registered (item : OutputItem) (s : State) :
  item_call_id item = "__proto__" ->
  toolCallNames (refs (exec (handleTransportEvent (OutputItemAdded (Some item))) s))
  = toolCallNames (refs s).
Proof.
  intros Hid. unfold exec, handleTransportEvent. run.
  destruct (sessionRef (refs s)); [|reflexivity]. simpl.
  destruct (String.eqb (item_type item) "function_call"); [|reflexivity]. simpl.
  unfold assign. rewrite Hid. reflexivity.
Qed.

(** X8. After [disconnect] the handler is deaf: whatever events still
    arrive from the transport, in whatever number, the state stays the
    one [disconnect] left. *)
Theorem events_after_disconnect_are_ignored (events : list TransportEvent) (s : State) :
  deliver events (exec disconnect s) = exec disconnect s.
Proof.
  destruct (disconnect_state s) as (Hsession & _).
  induction events as [|event later IH]; simpl; [reflexivity|].
  unfold exec at 1. rewrite (handle_without_session event _ Hsession). exact IH.
Qed.


(** X10. Only the completion of a call's arguments makes the handler
    act on the session: every other event leaves the world, the
    messages sent, the requests posted, the cards and the display as
    they are, and changes at most the debug log and the registry of
    announced calls. *)
Theorem other_events_only_log_and_register (event : TransportEvent) (s : State) :
  is_call event = false ->
  let s' := exec (handleTransportEvent event) s in
  env s' = env s
  /\ set_debugInfo (debugInfo (ui s)) (ui s') = ui s
  /\ set_toolCallNames (toolCallNames (refs s)) (refs s') = refs s.
Proof.
  intros Hcall s'. subst s'. unfold exec, handleTransportEvent. run.
  destruct s as [[] [] e]; simpl.
  destruct sessionRef0; [|repeat split].
  destruct event as [t|t| | |[item|]|call_id argsStr|t]; try discriminate; simpl;
    try (repeat split).
  all: destruct (String.eqb (item_type item) "function_call"); simpl; reflexivity.
Qed.

(** *** Invariants of the handler *)

(** An invariant of the steps the handler is made of is an invariant of
    the handler, and of every sequence of events. *)
Section Invariant.

Variable I : State -> Prop.
Hypothesis I_log : forall msg s, I s -> I (logged msg s).
Hypothesis I_evaluation : forall verdict s, I s -> I (with_ui (set_evaluation verdict) s).
Hypothesis I_register : forall call_id name s, I s ->
  I (with_refs (fun r => set_toolCallNames (assign call_id name (toolCallNames r)) r) s).
Hypothesis I_send : forall ev s, I s -> I (with_env (fun e => set_sent (sent e ++ [ev]) e) s).
Hypothesis I_answer : forall verdict, keeps I (answerCardInternal verdict).
Hypothesis I_fetch : keeps I fetchNextCardInternal.

Lemma invariant_appendDebug (msg : string) : keeps I (appendDebug msg).
Proof. apply keeps_modify. intros s Hs. apply (I_log msg), Hs. Qed.

Lemma invariant_evaluate (call_id argsStr : string) :
  keeps I (evaluate_and_move_next call_id argsStr).
Proof.
  unfold evaluate_and_move_next, card_content, setEvaluation, sendEvent.
  apply keeps_bind; [apply keeps_lift|]. intros args.
  apply keeps_bind; [apply keeps_lift|]. intros verdict.
  apply keeps_bind; [apply keeps_lift|]. intros feedback.
  apply keeps_bind; [apply keeps_lift|]. intros verdictText.
  apply keeps_bind; [apply keeps_lift|]. intros feedbackText.
  apply keeps_bind; [apply invariant_appendDebug|]. intros _.
  apply keeps_bind; [apply keeps_modify, I_evaluation|]. intros _.
  apply keeps_bind; [apply keeps_get|]. intros current. cbv zeta.
  apply keeps_bind; [apply I_answer|]. intros _.
  apply keeps_bind; [apply I_fetch|]. intros nextCard.
  apply keeps_bind; [apply keeps_lift|]. intros nextCardOutput.
  apply keeps_bind; [apply invariant_appendDebug|]. intros _.
  apply keeps_bind; [apply keeps_modify, I_send|]. intros _.
  apply keeps_modify, I_send.
Qed.

Lemma invariant_handle (event : TransportEvent) : keeps I (handleTransportEvent event).
Proof.
  unfold handleTransportEvent.
  apply keeps_bind; [apply keeps_get|]. intros [session|]; [|apply keeps_ret].
  apply keeps_bind.
  { destruct event; try apply keeps_ret; apply invariant_appendDebug. }
  intros _. destruct (is_delta event); [apply keeps_ret|].
  apply keeps_bind.
  { destruct event as [| | | |[item|]| |]; try apply keeps_ret.
    destruct (String.eqb (item_type item) "function_call"); [|apply keeps_ret].
    apply keeps_bind; [|intros _; apply invariant_appendDebug].
    apply keeps_modify, I_register. }
  intros _. destruct event; try apply keeps_ret.
  apply keeps_bind; [apply keeps_get|]. intros name.
  apply keeps_bind; [apply invariant_appendDebug|]. intros _.
  destruct name as [n|]; [|apply keeps_ret].
  destruct (String.eqb n TOOL); [|apply keeps_ret].
  apply keeps_try_catch; [apply invariant_evaluate|].
  intros e. apply invariant_appendDebug.
Qed.

Lemma invariant_deliver (events : list TransportEvent) (s : State) :
  I s -> I (deliver events s).
Proof.
  revert s. induction events as [|event later IH]; intros s Hs; simpl.
  - exact Hs.
  - apply IH, invariant_handle, Hs.
Qed.

End Invariant.

Lemma session_of_answer (verdict : JsValue) (s : State) :
  session_of (exec (answerCardInternal verdict) s) = session_of s.
Proof.
  destruct (answer_cases verdict s) as [->|(payload & w & ->)]; reflexivity.
Qed.

Lemma session_of_fetch (s : State) :
  session_of (exec fetchNextCardInternal s) = session_of s.
Proof.
  unfold exec, fetchNextCardInternal. run.
  destruct (truthy_str _).
  - destruct (realQueueRef _); [reflexivity|].
    rewrite cardsInfo_eq. destruct (invoke_any _ _) as [[[|c cs]|e] w]; reflexivity.
  - destruct (AnkiService.getNextCard _) as [[c|] svc]; reflexivity.
Qed.

(** X11. Transport events never touch the connection or the mode: the
    session, the microphone stream and its live tracks, the bound deck,
    the connection and study flags and the displayed error are after
    any sequence of events what they were before. *)
Theorem events_keep_the_session (events : list TransportEvent) (s : State) :
  session_of (deliver events s) = session_of s.
Proof.
  apply (invariant_deliver (fun s' => session_of s' = session_of s)); try reflexivity.
  - intros msg s' Hs'. exact Hs'.
  - intros verdict s' Hs'. exact Hs'.
  - intros call_id name s' Hs'. exact Hs'.
  - intros ev s' Hs'. exact Hs'.
  - intros verdict s' Hs'. rewrite session_of_answer. exact Hs'.
  - intros s' Hs'. rewrite session_of_fetch. exact Hs'.
Qed.

Lemma progress_refl (s : State) : progress s s.
Proof.
  unfold progress. split; [reflexivity|]. split; [reflexivity|]. split; [lia|].
  split; [reflexivity|]. split; reflexivity.
Qed.

Lemma progress_trans (s1 s2 s3 : State) : progress s1 s2 -> progress s2 s3 -> progress s1 s3.
Proof.
  unfold progress. intros (Hq & Hd & Hi & Hs & Hp & Hn) (Hq' & Hd' & Hi' & Hs' & Hp' & Hn').
  split; [etrans; eassumption|]. split; [congruence|]. split; [lia|].
  split; [etrans; eassumption|]. split; etrans; eassumption.
Qed.

Lemma progress_answer (verdict : JsValue) (s : State) :
  progress s (exec (answerCardInternal verdict) s).
Proof.
  destruct (answer_cases verdict s) as [->|(payload & w & ->)]; [apply progress_refl|].
  unfold progress. simpl.
  split; [reflexivity|]. split; [reflexivity|]. split; [reflexivity|].
  split; [reflexivity|]. split; [apply prefix_app_r; reflexivity|reflexivity].
Qed.

Lemma progress_fetch (s : State) : progress s (exec fetchNextCardInternal s).
Proof.
  unfold exec, fetchNextCardInternal. run.
  destruct (truthy_str _).
  - destruct (realQueueRef (refs s)) as [|nextId rest] eqn:Hq; [apply progress_refl|].
    rewrite cardsInfo_eq. destruct (invoke_any _ _) as [[[|c cs]|e] w];
      unfold progress; simpl; rewrite ?Hq;
      (split; [first [reflexivity|apply suffix_cons_r; reflexivity]|]);
      (split; [reflexivity|]); (split; [reflexivity|]);
      (split; [reflexivity|]); (split; [apply prefix_app_r; reflexivity|reflexivity]).
  - unfold AnkiService.getNextCard.
    destruct (_ <=? _)%nat.
    + destruct s as [u [] e]; simpl. destruct mockServiceRef0. apply progress_refl.
    + destruct (AnkiService.deck _ !! _); unfold progress; simpl;
        (split; [reflexivity|]); (split; [reflexivity|]); (split; [lia|]);
        (split; [reflexivity|]); (split; reflexivity).
Qed.

(** X12. Transport events only move a session forward: after any
    sequence of events the due queue is a suffix of what it was (cards
    leave at the head, none is added or reordered), the demo deck is the
    same and its cursor is no further back, what was sent and posted
    before is still the beginning of what is sent and posted, and every
    call that was announced is still registered. *)
Theorem events_only_move_forward (events : list TransportEvent) (s : State) :
  progress s (deliver events s).
Proof.
  apply (invariant_deliver (progress s)); try apply progress_refl.
  - intros msg s' Hs'. exact Hs'.
  - intros verdict s' Hs'. exact Hs'.
  - intros call_id name s' (Hq & Hd & Hi & Hs & Hp & Hn). unfold progress. simpl.
    split; [exact Hq|]. split; [exact Hd|]. split; [exact Hi|].
    split; [exact Hs|]. split; [exact Hp|].
    etrans; [exact Hn|]. unfold assign.
    destruct (String.eqb call_id "__proto__"); [reflexivity|apply dom_insert_subseteq].
  - intros ev s' (Hq & Hd & Hi & Hs & Hp & Hn). unfold progress. simpl.
    split; [exact Hq|]. split; [exact Hd|]. split; [exact Hi|].
    split; [apply prefix_app_r; exact Hs|]. split; [exact Hp|exact Hn].
  - intros verdict s' Hs'. eapply progress_trans; [exact Hs'|apply progress_answer].
  - intros s' Hs'. eapply progress_trans; [exact Hs'|apply progress_fetch].
Qed.

(** *** The demo deck *)

Lemma fetch_mock_eq (s : State) :
  truthy_str (activeDeckNameRef (refs s)) = false ->
  fetchNextCardInternal s
  = match under_cursor s with
    | Some c =>
        (Ok (shim c),
         with_ui (set_currentCard (shim c))
           (with_refs (fun r =>
              set_currentCardRef (shim c)
                (set_mockServiceRef
                   (AnkiService.mk (AnkiService.deck (mockServiceRef r))
                      (S (AnkiService.currentIndex (mockServiceRef r)))) r)) s))
    | None => (Ok JNull, s)
    end.
Proof.
  intros Hmode. unfold fetchNextCardInternal, under_cursor. run. rewrite Hmode.
  unfold AnkiService.getNextCard.
  destruct (_ <=? _)%nat eqn:Hle.
  - apply Nat.leb_le in Hle. rewrite (lookup_ge_None_2 _ _ Hle).
    destruct s as [u [] e]; simpl in *. destruct mockServiceRef0. reflexivity.
  - apply Nat.leb_gt in Hle. destruct (lookup_lt_is_Some_2 _ _ Hle) as [c Hc].
    rewrite Hc. reflexivity.
Qed.

(** X13. In demo mode (no deck bound) the transport events never reach
    AnkiConnect: nothing is posted, the world behind the awaited calls
    is not consulted, and the due queue is not touched. *)
Theorem demo_events_never_reach_anki (events : list TransportEvent) (s : State) :
  truthy_str (activeDeckNameRef (refs s)) = false ->
  posted (env (deliver events s)) = posted (env s)
  /\ world (env (deliver events s)) = world (env s)
  /\ realQueueRef (refs (deliver events s)) = realQueueRef (refs s).
Proof.
  intros Hmode.
  pose (I := fun s' : State =>
               truthy_str (activeDeckNameRef (refs s')) = false
               /\ posted (env s') = posted (env s)
               /\ world (env s') = world (env s)
               /\ realQueueRef (refs s') = realQueueRef (refs s)).
  assert (HI : I (deliver events s)); [|apply HI].
  apply (invariant_deliver I); unfold I; auto.
  - intros verdict s' Hs'. unfold exec. rewrite answer_eq.
    rewrite (proj1 Hs'). simpl. destruct (to_string verdict); exact Hs'.
  - intros s' Hs'. unfold exec. rewrite (fetch_mock_eq s' (proj1 Hs')).
    destruct (under_cursor s'); exact Hs'.
Qed.

(** X14. In demo mode every call of the tool whose arguments parse to
    something other than [null], and whose verdict and feedback can be
    converted to text for the log line, is serviced: the agent is told
    the faces of the card under the cursor, which becomes the current
    card while the cursor moves on by one, or the end-of-session object
    when the cursor is past the deck. *)
Theorem demo_call_is_serviced
    (s : State) (session : RealtimeSession) (call_id argsStr : string) (args : JsValue) :
  sessionRef (refs s) = Some session ->
  toolCallNames (refs s) !! call_id = Some TOOL ->
  JSON_parse argsStr = Ok args ->
  nullish args = false ->
  printable (prop_of args "user_response_quality") = true ->
  printable (prop_of args "feedback_text") = true ->
  truthy_str (activeDeckNameRef (refs s)) = false ->
  let s' := exec (handleTransportEvent (FunctionCallArgumentsDone call_id argsStr)) s in
  serviced s call_id argsStr
    (tool_output (js_or (back_text (currentCardRef (refs s))) JNull)
       (match under_cursor s with
        | Some c => faces c
        | None => END_OF_SESSION
        end)) s'
  /\ match under_cursor s with
     | Some c =>
         currentCardRef (refs s') = shim c
         /\ currentCard (ui s') = shim c
         /\ AnkiService.currentIndex (mockServiceRef (refs s'))
            = S (AnkiService.currentIndex (mockServiceRef (refs s)))
     | None => refs s' = refs s
     end.
Proof.
  intros Hsession Hname Hparse Hargs Hverdict Hfeedback Hmode s'. subst s'.
  unfold printable in Hverdict, Hfeedback.
  destruct (to_string (prop_of args "user_response_quality")) as [verdictText|] eqn:HverdictText;
    [clear Hverdict|discriminate].
  destruct (to_string (prop_of args "feedback_text")) as [feedbackText|] eqn:HfeedbackText;
    [clear Hfeedback|discriminate].
  unfold serviced, exec.
  rewrite handle_call_eq, Hsession, Hname. simpl. rewrite evaluate_eq, Hparse.
  unfold get_prop. rewrite Hargs, HverdictText, HfeedbackText. cbv zeta.
  rewrite answer_eq. simpl. rewrite Hmode, HverdictText. simpl.
  rewrite fetch_mock_eq by exact Hmode. unfold under_cursor. simpl.
  destruct (AnkiService.deck _ !! _) as [c|]; simpl; repeat split.
Qed.

(** *** Calls that are not executed *)

(** X15. A call is executed only when it was announced under the name
    of the declared tool: a call that was never announced, or was
    announced under another name, is answered by a log line and nothing
    else, whatever its arguments are. *)
Theorem call_not_announced_as_tool_is_not_executed
    (s : State) (call_id argsStr : string) :
  toolCallNames (refs s) !! call_id <> Some TOOL ->
  let s' := exec (handleTransportEvent (FunctionCallArgumentsDone call_id argsStr)) s in
  refs s' = refs s
  /\ env s' = env s
  /\ set_debugInfo (debugInfo (ui s)) (ui s') = ui s
  /\ forall out, ~ serviced s call_id argsStr out s'.
Proof.
  intros Hname s'. subst s'.
  assert (Hrun : exists msg,
             handleTransportEvent (FunctionCallArgumentsDone call_id argsStr) s = (Ok tt, s)
             \/ handleTransportEvent (FunctionCallArgumentsDone call_id argsStr) s
                = (Ok tt, logged msg s)).
  { rewrite handle_call_eq. destruct (sessionRef (refs s)); [|exists EmptyString; auto].
    destruct (toolCallNames (refs s) !! call_id) as [n|]; [|eexists; right; reflexivity].
    destruct (String.eqb n TOOL) eqn:Htool; [|eexists; right; reflexivity].
    apply String.eqb_eq in Htool. subst n. contradiction. }
  destruct Hrun as [msg Hrun]. unfold exec.
  assert (Hframe : refs (snd (handleTransportEvent (FunctionCallArgumentsDone call_id argsStr) s))
                   = refs s
                   /\ env (snd (handleTransportEvent (FunctionCallArgumentsDone call_id argsStr) s))
                      = env s
                   /\ set_debugInfo (debugInfo (ui s))
                        (ui (snd (handleTransportEvent
                                    (FunctionCallArgumentsDone call_id argsStr) s)))
                      = ui s).
  { destruct Hrun as [-> | ->]; destruct s as [[] r e]; simpl; auto. }
  destruct Hframe as (Hrefs & Henv & Hui).
  split; [exact Hrefs|]. split; [exact Henv|]. split; [exact Hui|].
  intros out [_ Hsent]. eapply silent_not_serviced; [|exact Hsent]. rewrite Henv. reflexivity.
Qed.

(** *** Grading on AnkiConnect *)

Lemma call_graded_eq
    (s : State) (session : RealtimeSession) (call_id argsStr : string)
    (args verdict : JsValue) (verdictText feedbackText : string) :
  sessionRef (refs s) = Some session ->
  toolCallNames (refs s) !! call_id = Some TOOL ->
  JSON_parse argsStr = Ok args ->
  get_prop args "user_response_quality" = Ok verdict ->
  to_string verdict = Ok verdictText ->
  to_string (prop_of args "feedback_text") = Ok feedbackText ->
  handleTransportEvent (FunctionCallArgumentsDone call_id argsStr) s
  = match answerCardInternal verdict (announced verdict verdictText feedbackText s) with
    | (Throw e, s2) => (Ok tt, logged ("Tool Error: " +:+ error_to_string e) s2)
    | (Ok _, s2) =>
    match fetchNextCardInternal s2 with
    | (Throw e, s3) => (Ok tt, logged ("Tool Error: " +:+ error_to_string e) s3)
    | (Ok nextCard, s3) =>
    match content_of nextCard END_OF_SESSION with
    | Throw e => (Ok tt, logged ("Tool Error: " +:+ error_to_string e) s3)
    | Ok nextCardOutput =>
        (Ok tt,
         replied call_id
           (tool_output (js_or (back_text (currentCardRef (refs s))) JNull) nextCardOutput)
           (logged ("[Tool Result] Next Card: "
                      +:+ (if truthy nextCard then "Loaded" else "End")) s3))
    end end end.
Proof.
  intros Hsession Hname Hparse Hverdict HverdictText HfeedbackText.
  rewrite handle_call_eq, Hsession, Hname. simpl. rewrite evaluate_eq, Hparse, Hverdict.
  assert (Hfeedback : get_prop args "feedback_text" = Ok (prop_of args "feedback_text"))
    by (unfold get_prop in *; destruct (nullish args); [discriminate|reflexivity]).
  rewrite Hfeedback, HverdictText, HfeedbackText. cbv zeta.
  fold (announced verdict verdictText feedbackText s).
  destruct (answerCardInternal verdict (announced verdict verdictText feedbackText s))
    as [[[]|e] s2]; [|reflexivity].
  destruct (fetchNextCardInternal s2) as [[nextCard|e] s3]; [|reflexivity].
  destruct (content_of nextCard END_OF_SESSION); reflexivity.
Qed.

Lemma printable_text (v : JsValue) :
  printable v = true -> exists text, to_string v = Ok text.
Proof.
  unfold printable. destruct (to_string v) as [text|e]; [eauto|discriminate].
Qed.

Lemma answer_remote (verdict : JsValue) (s : State) :
  remote s ->
  truthy (currentCardRef (refs s)) = true ->
  printable (card_id (currentCardRef (refs s))) = true ->
  printable verdict = true ->
  let payload :=
    answerCards_request (card_id (currentCardRef (refs s)))
      (if strict_eq_str verdict "correct" then 3 else 1) in
  answerCardInternal verdict s
  = (match fst (invoke_booleans payload (world (env s))) with
     | Ok _ => Ok tt
     | Throw e => Throw e
     end,
     answered payload (snd (invoke_booleans payload (world (env s)))) s).
Proof.
  intros Hmode Hcard Hid Hverdict payload. rewrite answer_eq. unfold remote in Hmode.
  apply printable_text in Hid as [cardText Hid]. unfold card_id in Hid.
  apply printable_text in Hverdict as [verdictText Hverdict].
  rewrite Hmode, Hcard, Hid, Hverdict. reflexivity.
Qed.

Lemma fetch_posted_remote (s : State) (head : Z) (rest : list Z) :
  remote s ->
  realQueueRef (refs s) = head :: rest ->
  posted (env (exec fetchNextCardInternal s)) = posted (env s) ++ [cardsInfo_request [head]].
Proof.
  intros Hmode Hq. unfold exec, fetchNextCardInternal. unfold remote in Hmode. run.
  rewrite Hmode, Hq. rewrite cardsInfo_eq.
  destruct (invoke_any _ _) as [[[|c cs]|e] w]; reflexivity.
Qed.

(** X16. In remote mode with a current card and cards still queued, a
    call whose verdict and feedback, and the [cardId] of the current
    card, can be converted to text posts exactly two requests, in this
    order: the grading of the card that was current when the event
    arrived, with ease 3 when the verdict is the text correct and ease
    1 otherwise, and then the lookup of the head of the queue. The
    grading is posted before the next card is known, and the lookup is
    posted whatever it then returns. *)
Theorem call_grades_then_looks_up
    (s : State) (session : RealtimeSession) (call_id argsStr : string)
    (args verdict : JsValue) (head : Z) (rest : list Z) :
  sessionRef (refs s) = Some session ->
  toolCallNames (refs s) !! call_id = Some TOOL ->
  JSON_parse argsStr = Ok args ->
  get_prop args "user_response_quality" = Ok verdict ->
  printable verdict = true ->
  printable (prop_of args "feedback_text") = true ->
  remote s ->
  truthy (currentCardRef (refs s)) = true ->
  printable (card_id (currentCardRef (refs s))) = true ->
  realQueueRef (refs s) = head :: rest ->
  grades ->
  let s' := exec (handleTransportEvent (FunctionCallArgumentsDone call_id argsStr)) s in
  posted (env s')
  = posted (env s)
      ++ [answerCards_request (card_id (currentCardRef (refs s)))
            (if strict_eq_str verdict "correct" then 3 else 1);
          cardsInfo_request [head]]
  /\ (verdict = JStr "correct" ->
      posted (env s')
      = posted (env s)
          ++ [answerCards_request (card_id (currentCardRef (refs s))) 3;
              cardsInfo_request [head]]).
Proof.
  intros Hsession Hname Hparse Hverdict Hv Hf Hmode Hcard Hid Hq Hgrades s'.
  destruct (printable_text _ Hv) as [verdictText HverdictText].
  destruct (printable_text _ Hf) as [feedbackText HfeedbackText].
  assert (Hposted :
    posted (env s')
    = posted (env s)
        ++ [answerCards_request (card_id (currentCardRef (refs s)))
              (if strict_eq_str verdict "correct" then 3 else 1);
            cardsInfo_request [head]]).
  { subst s'. unfold exec.
    rewrite (call_graded_eq s session call_id argsStr args verdict verdictText feedbackText
               Hsession Hname Hparse Hverdict HverdictText HfeedbackText).
    rewrite answer_remote by assumption. cbv zeta.
    match goal with
    | |- context [invoke_booleans ?p ?w] =>
        destruct (Hgrades p w) as (results & w' & Hw); rewrite Hw
    end. simpl.
    match goal with
    | |- context [fetchNextCardInternal ?x] =>
        pose proof (fetch_posted_remote x head rest Hmode Hq) as Hlook; unfold exec in Hlook;
        destruct (fetchNextCardInternal x) as [[nextCard|e] s3]
    end; simpl in *.
    - destruct (content_of nextCard END_OF_SESSION); simpl;
        rewrite Hlook, <- app_assoc; reflexivity.
    - rewrite Hlook, <- app_assoc. reflexivity. }
  split; [exact Hposted|]. intros ->. exact Hposted.
Qed.

(** X17. When AnkiConnect rejects the grading of a call whose verdict
    and feedback, and the [cardId] of the current card, can be converted
    to text, the call is abandoned where it stands: the verdict is
    already on display, the grading request was posted, but no next
    card is fetched, the due queue and the current card are as they
    were, and the agent is sent neither an output for the call nor a
    response trigger; the error goes to the debug log. *)
Theorem rejected_grading_leaves_call_unanswered
    (s : State) (session : RealtimeSession) (call_id argsStr : string)
    (args verdict : JsValue) (verdictText feedbackText : string) (e : JsError) (w : World) :
  sessionRef (refs s) = Some session ->
  toolCallNames (refs s) !! call_id = Some TOOL ->
  JSON_parse argsStr = Ok args ->
  get_prop args "user_response_quality" = Ok verdict ->
  to_string verdict = Ok verdictText ->
  to_string (prop_of args "feedback_text") = Ok feedbackText ->
  remote s ->
  truthy (currentCardRef (refs s)) = true ->
  printable (card_id (currentCardRef (refs s))) = true ->
  invoke_booleans
    (answerCards_request (card_id (currentCardRef (refs s)))
       (if strict_eq_str verdict "correct" then 3 else 1)) (world (env s))
  = (Throw e, w) ->
  let s' := exec (handleTransportEvent (FunctionCallArgumentsDone call_id argsStr)) s in
  result (handleTransportEvent (FunctionCallArgumentsDone call_id argsStr)) s = Ok tt
  /\ sent (env s') = sent (env s)
  /\ refs s' = refs s
  /\ posted (env s')
     = posted (env s)
         ++ [answerCards_request (card_id (currentCardRef (refs s)))
               (if strict_eq_str verdict "correct" then 3 else 1)]
  /\ evaluation (ui s') = verdict
  /\ currentCard (ui s') = currentCard (ui s)
  /\ debugInfo (ui s')
     = (((debugInfo (ui s) +:+ nl +:+ "[Tool Executing] " +:+ TOOL)
           +:+ nl +:+ "[Evaluation] " +:+ verdictText +:+ " - " +:+ feedbackText)
          +:+ nl +:+ "Tool Error: " +:+ error_to_string e).
Proof.
  intros Hsession Hname Hparse Hverdict HverdictText HfeedbackText Hmode Hcard Hid Hreject s'.
  subst s'. unfold result, exec.
  rewrite (call_graded_eq s session call_id argsStr args verdict verdictText feedbackText
             Hsession Hname Hparse Hverdict HverdictText HfeedbackText).
  rewrite answer_remote; try assumption; [|unfold printable; rewrite HverdictText; reflexivity].
  cbv zeta. simpl. rewrite Hreject. simpl. repeat split.
Qed.

(** X18. When the card that AnkiConnect returns for the head of the
    queue cannot be read (it lacks [fields], [Front] or [Back]), the
    card is consumed all the same, for a call whose verdict and
    feedback, and the [cardId] of the current card, can be converted to
    text: the head leaves the queue and the card becomes the current
    card, also on display, but the agent is sent nothing for the call;
    the error goes to the debug log. *)
Theorem unreadable_next_card_is_consumed_unanswered
    (s : State) (session : RealtimeSession) (call_id argsStr : string)
    (args verdict : JsValue) (verdictText feedbackText : string)
    (head : Z) (rest : list Z) (card : JsValue) (e : JsError) :
  sessionRef (refs s) = Some session ->
  toolCallNames (refs s) !! call_id = Some TOOL ->
  JSON_parse argsStr = Ok args ->
  get_prop args "user_response_quality" = Ok verdict ->
  to_string verdict = Ok verdictText ->
  to_string (prop_of args "feedback_text") = Ok feedbackText ->
  remote s ->
  printable (card_id (currentCardRef (refs s))) = true ->
  realQueueRef (refs s) = head :: rest ->
  grades ->
  looks_up head card ->
  content_of card END_OF_SESSION = Throw e ->
  let s' := exec (handleTransportEvent (FunctionCallArgumentsDone call_id argsStr)) s in
  result (handleTransportEvent (FunctionCallArgumentsDone call_id argsStr)) s = Ok tt
  /\ sent (env s') = sent (env s)
  /\ realQueueRef (refs s') = rest
  /\ currentCardRef (refs s') = card
  /\ currentCard (ui s') = card
  /\ debugInfo (ui s')
     = (((debugInfo (ui s) +:+ nl +:+ "[Tool Executing] " +:+ TOOL)
           +:+ nl +:+ "[Evaluation] " +:+ verdictText +:+ " - " +:+ feedbackText)
          +:+ nl +:+ "Tool Error: " +:+ error_to_string e).
Proof.
  intros Hsession Hname Hparse Hverdict HverdictText HfeedbackText Hmode Hid Hq Hgrades
    Hlook Hbad s'.
  subst s'. unfold result, exec.
  rewrite (call_graded_eq s session call_id argsStr args verdict verdictText feedbackText
             Hsession Hname Hparse Hverdict HverdictText HfeedbackText).
  set (s1 := announced verdict verdictText feedbackText s).
  assert (Hanswer : exists s2, answerCardInternal verdict s1 = (Ok tt, s2)
                               /\ ui s2 = ui s1 /\ refs s2 = refs s1
                               /\ sent (env s2) = sent (env s1)).
  { rewrite answer_eq. rewrite HverdictText.
    destruct (_ && _); [|exists s1; auto].
    apply printable_text in Hid as [cardText Hid]. unfold card_id in Hid.
    change (currentCardRef (refs s1)) with (currentCardRef (refs s)). rewrite Hid. cbv zeta.
    match goal with
    | |- context [invoke_booleans ?p ?w] =>
        destruct (Hgrades p w) as (results & w' & Hw); rewrite Hw
    end. simpl. eexists. split; [reflexivity|]. auto. }
  destruct Hanswer as (s2 & -> & Hui & Hrefs & Hsent).
  destruct (Hlook (world (env s2))) as (more & w & Hw).
  rewrite (fetch_remote_found s2 head rest card more w).
  - rewrite Hbad. simpl. rewrite ?Hrefs, ?Hui, ?Hsent. repeat split.
  - unfold remote in *. rewrite Hrefs. exact Hmode.
  - rewrite Hrefs. exact Hq.
  - exact Hw.
Qed.

Lemma exhausted_remote_call_eq
    (s : State) (session : RealtimeSession) (call_id argsStr : string) (args : JsValue) :
  sessionRef (refs s) = Some session ->
  toolCallNames (refs s) !! call_id = Some TOOL ->
  JSON_parse argsStr = Ok args ->
  nullish args = false ->
  printable (prop_of args "user_response_quality") = true ->
  printable (prop_of args "feedback_text") = true ->
  remote s ->
  realQueueRef (refs s) = [] ->
  truthy (currentCardRef (refs s)) = true ->
  printable (card_id (currentCardRef (refs s))) = true ->
  grades ->
  let s' := exec (handleTransportEvent (FunctionCallArgumentsDone call_id argsStr)) s in
  refs s' = refs s
  /\ posted (env s')
     = posted (env s)
         ++ [answerCards_request (card_id (currentCardRef (refs s)))
               (if strict_eq_str (prop_of args "user_response_quality") "correct"
                then 3 else 1)].
Proof.
  intros Hsession Hname Hparse Hargs Hv Hf Hmode Hq Hcard Hid Hgrades s'. subst s'.
  destruct (printable_text _ Hv) as [verdictText HverdictText].
  destruct (printable_text _ Hf) as [feedbackText HfeedbackText].
  unfold exec.
  rewrite (call_graded_eq s session call_id argsStr args (prop_of args "user_response_quality")
             verdictText feedbackText Hsession Hname Hparse)
    by (first [unfold get_prop; rewrite Hargs; reflexivity|assumption]).
  rewrite answer_remote by assumption. cbv zeta.
  match goal with
  | |- context [invoke_booleans ?p ?w] =>
      destruct (Hgrades p w) as (results & w' & Hw); rewrite Hw
  end. simpl.
  rewrite fetch_remote_empty by assumption. simpl. split; reflexivity.
Qed.

(** X19. Once the due queue is empty in remote mode, the last card
    stays the current card, so every further call whose verdict and
    feedback, and the [cardId] of that card, can be converted to text
    grades that same card once more: [n] calls post [n] gradings of it
    and nothing else, and leave the refs as they are. *)
Theorem calls_after_the_last_card_grade_it_again
    (s : State) (session : RealtimeSession) (call_id argsStr : string) (args : JsValue)
    (n : nat) :
  sessionRef (refs s) = Some session ->
  toolCallNames (refs s) !! call_id = Some TOOL ->
  JSON_parse argsStr = Ok args ->
  nullish args = false ->
  printable (prop_of args "user_response_quality") = true ->
  printable (prop_of args "feedback_text") = true ->
  remote s ->
  realQueueRef (refs s) = [] ->
  truthy (currentCardRef (refs s)) = true ->
  printable (card_id (currentCardRef (refs s))) = true ->
  grades ->
  let s' := deliver (replicate n (FunctionCallArgumentsDone call_id argsStr)) s in
  refs s' = refs s
  /\ posted (env s')
     = posted (env s)
         ++ replicate n
              (answerCards_request (card_id (currentCardRef (refs s)))
                 (if strict_eq_str (prop_of args "user_response_quality") "correct"
                  then 3 else 1)).
Proof.
  intros Hsession Hname Hparse Hargs Hv Hf Hmode Hq Hcard Hid Hgrades. cbv zeta.
  revert s Hsession Hname Hmode Hq Hcard Hid.
  induction n as [|n IH]; intros s Hsession Hname Hmode Hq Hcard Hid; simpl.
  - split; [reflexivity|]. symmetry. apply app_nil_r.
  - destruct (exhausted_remote_call_eq s session call_id argsStr args
                Hsession Hname Hparse Hargs Hv Hf Hmode Hq Hcard Hid Hgrades)
      as [Hrefs Hposted].
    cbv zeta in Hrefs, Hposted.
    destruct (IH (exec (handleTransportEvent (FunctionCallArgumentsDone call_id argsStr)) s))
      as [Hrefs' Hposted'].
    + rewrite Hrefs. exact Hsession.
    + rewrite Hrefs. exact Hname.
    + unfold remote. rewrite Hrefs. exact Hmode.
    + rewrite Hrefs. exact Hq.
    + rewrite Hrefs. exact Hcard.
    + rewrite Hrefs. exact Hid.
    + rewrite Hrefs', Hposted', Hposted, Hrefs. split; [reflexivity|].
      rewrite <- app_assoc. reflexivity.
Qed.

End Handler.

(** ** Starting a study session *)

Section Starting.

Context {R : Runtime}.

(** X22. Started in demo mode on a held session, [startStudySession]
    fetches before it rewinds: the card that was under the cursor
    becomes the current card, then the demo service is restarted, so
    the cursor is at 0 afterwards and the first call is answered with
    the first card of the deck. The agent is sent the demo prompt with
    the tool, the start message and the response trigger; nothing is
    posted to AnkiConnect and no deck is bound. *)
Theorem demo_start_rewinds_after_fetching
    (s : State) (session : RealtimeSession) (deckName : option string) :
  sessionRef (refs s) = Some session ->
  truthy_str deckName = false ->
  truthy_str (activeDeckNameRef (refs s)) = false ->
  let s' := exec (startStudySession deckName) s in
  result (startStudySession deckName) s = Ok tt
  /\ sent (env s')
     = sent (env s)
         ++ [SessionUpdateStudy DemoTutorPrompt [TOOL]; ItemCreateMessage "Start Demo.";
             ResponseCreate]
  /\ posted (env s') = posted (env s)
  /\ isStudyMode (ui s') = true
  /\ activeDeckNameRef (refs s') = activeDeckNameRef (refs s)
  /\ AnkiService.currentIndex (mockServiceRef (refs s')) = 0%nat
  /\ currentCardRef (refs s') = match under_cursor s with Some c => shim c | None => JNull end.
Proof.
  intros Hsession Hname Hmode s'. subst s'.
  unfold result, exec, startStudySession, init_mock_session, sendEvent_current, card_content. run.
  rewrite Hsession. simpl. rewrite Hname, Hmode. simpl.
  rewrite fetch_mock_eq by exact Hmode. unfold under_cursor. simpl.
  destruct (AnkiService.deck _ !! _) as [c|]; simpl.
  all: destruct (activeDeckNameRef (refs s)) as [d|] eqn:Hdeck; simpl in Hmode; simpl;
    rewrite ?Hmode; simpl; repeat (rewrite Hsession; simpl).
  all: rewrite ?Hdeck; repeat split; rewrite <- ?app_assoc; reflexivity.
Qed.

(** X23. On a held session whose due queue is empty, when AnkiConnect
    fails to list the due cards, the failure is caught and
    [startStudySession] returns normally, but it has begun the session
    and told nobody: study mode is on and the deck is bound, the queue
    is still empty and no card is current, and the agent is sent no
    instructions, no message and no response trigger. *)
Theorem failed_listing_starts_a_silent_session
    (s : State) (session : RealtimeSession) (d : string) (e : JsError) (w : World) :
  sessionRef (refs s) = Some session ->
  d <> EmptyString ->
  realQueueRef (refs s) = [] ->
  invoke_numbers (findDueCards_request d) (world (env s)) = (Throw e, w) ->
  let s' := exec (startStudySession (Some d)) s in
  result (startStudySession (Some d)) s = Ok tt
  /\ sent (env s') = sent (env s)
  /\ posted (env s') = posted (env s) ++ [findDueCards_request d]
  /\ isStudyMode (ui s') = true
  /\ activeDeckNameRef (refs s') = Some d
  /\ realQueueRef (refs s') = []
  /\ currentCardRef (refs s') = JNull
  /\ debugInfo (ui s')
     = (debugInfo (ui s) +:+ nl +:+ "startStudySession called with deckName: "
          +:+ dq +:+ d +:+ dq)
         +:+ nl +:+ "Error init real session: " +:+ message e.
Proof.
  intros Hsession Hd Hq Hlist s'. subst s'.
  pose proof (d_is_truthy d Hd) as Htruthy.
  unfold result, exec, startStudySession, init_real_session, card_content. run.
  rewrite Hsession. simpl. rewrite Htruthy.
  match goal with
  | |- context [fetchNextCardInternal ?x] =>
      rewrite (fetch_remote_empty x) by (first [exact Htruthy|exact Hq])
  end.
  simpl. rewrite Htruthy.
  unfold findDueCards. rewrite invoke_eq. simpl.
  unfold findDueCards_request in Hlist. rewrite Hlist. simpl.
  repeat split. exact Hq.
Qed.

Lemma connect_frame (s : State) :
  let s' := exec (connect true) s in
  sent (env s') = sent (env s)
  /\ posted (env s') = posted (env s)
  /\ isStudyMode (ui s') = isStudyMode (ui s)
  /\ currentCard (ui s') = currentCard (ui s)
  /\ set_streamRef (streamRef (refs s)) (set_sessionRef (sessionRef (refs s)) (refs s'))
     = refs s.
Proof.
  cbv zeta. unfold exec, connect, acquire_microphone. run.
  destruct s as [u [] e]; simpl.
  destruct (truthy_str VITE_OPENAI_API_KEY); simpl; [|repeat split].
  destruct (getUserMedia (world e)) as [[stream|err] w]; simpl; [|repeat split].
  destruct (session_connect w) as [[[]|err] w']; simpl; repeat split.
Qed.

(** X24. Without a session, [startStudySession] first connects, and
    when that fails it gives up before anything of a study session
    begins: it returns normally, study mode stays as it was, no deck is
    bound, the queue, the current card and the demo service are not
    touched, and nothing is sent or posted. *)
Theorem failed_auto_connect_aborts_start (s : State) (deckName : option string) :
  sessionRef (refs s) = None ->
  result (connect true) (logged "Auto-connecting for study session..." s) = Ok false ->
  let s' := exec (startStudySession deckName) s in
  result (startStudySession deckName) s = Ok tt
  /\ isStudyMode (ui s') = isStudyMode (ui s)
  /\ currentCard (ui s') = currentCard (ui s)
  /\ activeDeckNameRef (refs s') = activeDeckNameRef (refs s)
  /\ realQueueRef (refs s') = realQueueRef (refs s)
  /\ currentCardRef (refs s') = currentCardRef (refs s)
  /\ mockServiceRef (refs s') = mockServiceRef (refs s)
  /\ sent (env s') = sent (env s)
  /\ posted (env s') = posted (env s).
Proof.
  intros Hsession Hfail s'. subst s'.
  pose proof (connect_frame (logged "Auto-connecting for study session..." s))
    as (Hsent & Hposted & Hstudy & Hcard & Hrefs).
  unfold result, exec, startStudySession in *. run. states. rewrite Hsession. simpl.
  destruct (connect true _) as [r s1]. simpl in *. subst r. simpl.
  apply (f_equal activeDeckNameRef) in Hrefs as Hdeck.
  apply (f_equal realQueueRef) in Hrefs as Hqueue.
  apply (f_equal currentCardRef) in Hrefs as Hcurrent.
  apply (f_equal mockServiceRef) in Hrefs as Hsvc.
  destruct s1 as [u1 [] e1]. simpl in *. repeat split; assumption.
Qed.

(** X25. Started on a deck with due cards, on a held session whose
    queue is empty, [startStudySession] asks AnkiConnect for the due
    cards and then for the first of them, in this order and nothing
    more; the first due card becomes the current card and the rest
    stays queued. When the faces of that card can be read and converted
    to text, the agent is sent the study prompt with the tool, the
    opening message with the texts of the faces, and the response
    trigger; the greeting counts all due cards, the first one
    included. *)
Theorem remote_start_queues_the_due_cards
    (s : State) (session : RealtimeSession) (d : string)
    (head : Z) (rest : list Z) (card content : JsValue) (frontText backText : string) :
  sessionRef (refs s) = Some session ->
  d <> EmptyString ->
  realQueueRef (refs s) = [] ->
  lists_due d (head :: rest) ->
  looks_up head card ->
  content_of card JNull = Ok content ->
  to_string (js_or (opt_chain content "front") (JStr "None")) = Ok frontText ->
  to_string (js_or (opt_chain content "back") (JStr "None")) = Ok backText ->
  let s' := exec (startStudySession (Some d)) s in
  result (startStudySession (Some d)) s = Ok tt
  /\ activeDeckNameRef (refs s') = Some d
  /\ realQueueRef (refs s') = rest
  /\ currentCardRef (refs s') = card
  /\ currentCard (ui s') = card
  /\ isStudyMode (ui s') = true
  /\ posted (env s') = posted (env s) ++ [findDueCards_request d; cardsInfo_request [head]]
  /\ sent (env s')
     = sent (env s)
         ++ [SessionUpdateStudy
               (AtomicTurnPrompt
                  (remote_greeting (getHours (world (env s'))) d (S (length rest))))
               [TOOL];
             ItemCreateMessage (opening_message frontText backText);
             ResponseCreate].
Proof.
  intros Hsession Hd Hq Hdue Hlook Hcontent Hfront Hback s'. subst s'.
  pose proof (d_is_truthy d Hd) as Htruthy.
  unfold result, exec, startStudySession, init_real_session, card_content, sendEvent_current. run.
  rewrite Hsession. simpl. rewrite Htruthy.
  match goal with
  | |- context [fetchNextCardInternal ?x] =>
      rewrite (fetch_remote_empty x) by (first [exact Htruthy|exact Hq])
  end.
  simpl. rewrite Htruthy.
  unfold findDueCards. rewrite invoke_eq. simpl.
  destruct (Hdue (world (env s))) as [w Hw]. unfold findDueCards_request in Hw.
  rewrite Hw. simpl.
  destruct (Hlook w) as (more & w' & Hw').
  match goal with
  | |- context [fetchNextCardInternal ?x] =>
      rewrite (fetch_remote_found x head rest card more w')
        by (first [exact Htruthy|reflexivity|exact Hw'])
  end.
  simpl. rewrite Hcontent. simpl. rewrite Hfront, Hback. simpl.
  repeat (rewrite Hsession; simpl).
  unfold remote_greeting, opening_message, findDueCards_request.
  repeat split; rewrite <- ?app_assoc; reflexivity.
Qed.

(** *** Starting on a held session *)

Section Held.

Variable s0 : State.

Local Abbreviation held :=
  (fun s : State => connection_of s = connection_of s0 /\ isStudyMode (ui s) = true).

Lemma held_step (f : State -> State) :
  (forall s, connection_of (f s) = connection_of s) ->
  (forall s, isStudyMode (ui (f s)) = isStudyMode (ui s)) ->
  keeps held (modify f).
Proof.
  intros Hc Hm. apply keeps_modify. intros s [Hs Hstudy]. rewrite Hc, Hm. auto.
Qed.

Lemma held_appendDebug (msg : string) : keeps held (appendDebug msg).
Proof. apply held_step; reflexivity. Qed.

Lemma held_invoke {T} (rpc : AnkiConnectAction -> World -> Result T * World)
    (action : string) (params : Params) :
  keeps held (invoke rpc action params).
Proof.
  unfold invoke. apply keeps_bind.
  - apply held_step; reflexivity.
  - intros _. apply keeps_await. intros s w Hs. exact Hs.
Qed.

Lemma held_fetch : keeps held fetchNextCardInternal.
Proof.
  unfold fetchNextCardInternal, setCurrentCard, cardsInfo.
  apply keeps_bind; [apply keeps_get|]. intros deckName.
  destruct (truthy_str deckName).
  - apply keeps_bind; [apply keeps_get|]. intros [|nextId rest]; [apply keeps_ret|].
    apply keeps_bind; [apply held_invoke|]. intros [|card more]; [apply keeps_ret|].
    apply keeps_bind; [apply held_step; reflexivity|]. intros _.
    apply keeps_bind; [apply held_step; reflexivity|]. intros _.
    apply keeps_bind; [apply held_step; reflexivity|]. intros _.
    apply keeps_ret.
  - apply keeps_bind; [apply keeps_get|]. intros svc.
    destruct (AnkiService.getNextCard svc) as [card svc'].
    apply keeps_bind; [apply held_step; reflexivity|]. intros _.
    destruct card as [c|]; [|apply keeps_ret].
    apply keeps_bind; [apply held_step; reflexivity|]. intros _.
    apply keeps_bind; [apply held_step; reflexivity|]. intros _.
    apply keeps_ret.
Qed.

Lemma held_sendEvent_current (ev : ClientEvent) : keeps held (sendEvent_current ev).
Proof.
  unfold sendEvent_current, sendEvent. apply keeps_bind; [apply keeps_get|].
  intros [session|]; [apply held_step; reflexivity|apply keeps_throw].
Qed.

Lemma held_init_real_session (deck : string) : keeps held (init_real_session deck).
Proof.
  unfold init_real_session, findDueCards, card_content.
  apply keeps_bind; [apply held_invoke|]. intros dueCards.
  apply keeps_bind; [apply held_step; reflexivity|]. intros _. cbv zeta.
  apply keeps_bind; [apply held_fetch|]. intros actualFirstCard.
  apply keeps_bind; [apply keeps_lift|]. intros actualFirstContent.
  apply keeps_bind; [apply keeps_get|]. intros hours.
  apply keeps_bind; [apply keeps_lift|]. intros frontText.
  apply keeps_bind; [apply keeps_lift|]. intros backText. apply keeps_ret.
Qed.

Lemma held_init_mock_session : keeps held init_mock_session.
Proof.
  unfold init_mock_session.
  apply keeps_bind; [apply held_step; reflexivity|]. intros _.
  apply keeps_bind; [apply keeps_get|]. intros stats. apply keeps_ret.
Qed.

Lemma held_start (deckName : option string) :
  is_Some (sessionRef (refs s0)) ->
  triple (fun s => connection_of s = connection_of s0) (startStudySession deckName)
    (fun _ => held) held.
Proof.
  intros [session Hsession].
  unfold startStudySession, card_content, setIsStudyMode, setCurrentCard, appendDebug.
  eapply triple_bind; [apply triple_get|].
  intros [session'|].
  2:{ intros s [Hs Heq]. apply (f_equal (fun c => c.1.1.1)) in Hs. simpl in Hs. congruence. }
  apply triple_bind with (Q1 := fun proceed s => connection_of s = connection_of s0
                                                  /\ proceed = true).
  { apply triple_ret. intros s [Hs _]. auto. }
  intros [|]; [|intros s [_ Hf]; discriminate]. cbn [negb].
  apply triple_bind with (Q1 := fun _ s => connection_of s = connection_of s0).
  { apply triple_modify. intros s [Hs _]. exact Hs. }
  intros [].
  apply triple_bind with (Q1 := fun _ => held).
  { apply triple_modify. intros s Hs. split; [exact Hs|reflexivity]. }
  intros []. apply triple_keeps.
  apply keeps_bind; [apply keeps_get|]. intros active.
  apply keeps_bind.
  { destruct (truthy_str deckName); [apply held_step; reflexivity|].
    destruct (negb (truthy_str active)); [apply held_appendDebug|apply keeps_ret]. }
  intros _.
  apply keeps_bind; [apply held_step; reflexivity|]. intros _.
  apply keeps_bind; [apply held_step; reflexivity|]. intros _.
  apply keeps_bind; [apply held_fetch|]. intros firstCard.
  apply keeps_bind; [apply keeps_lift|]. intros _.
  apply keeps_bind; [apply keeps_get|]. intros currentDeck.
  apply keeps_bind.
  { destruct currentDeck as [deck|].
    - destruct (truthy_str (Some deck)).
      + apply keeps_try_catch.
        * apply keeps_bind; [apply held_init_real_session|]. intros x. apply keeps_ret.
        * intros e. apply keeps_bind; [apply held_appendDebug|]. intros _. apply keeps_ret.
      + apply keeps_bind; [apply held_init_mock_session|]. intros x. apply keeps_ret.
    - apply keeps_bind; [apply held_init_mock_session|]. intros x. apply keeps_ret. }
  intros [[[greeting instructions] initialContent]|]; [|apply keeps_ret].
  apply keeps_bind; [apply held_appendDebug|]. intros _.
  apply keeps_bind; [apply held_sendEvent_current|]. intros _.
  apply keeps_bind; [apply held_sendEvent_current|]. intros _.
  apply held_sendEvent_current.
Qed.

End Held.

(** X28. On a held session [startStudySession] never connects: however
    it ends, also when it throws, study mode is on afterwards and the
    session, the microphone stream and its live tracks, the connection
    flags and the displayed error are what they were. In particular a
    session whose transport refused to connect, which [connect] leaves
    in its ref, is not connected anew: study mode starts on it with the
    connection flag still off. *)
Theorem start_on_held_session_never_connects
    (s : State) (deckName : option string) (session : RealtimeSession) :
  sessionRef (refs s) = Some session ->
  let s' := exec (startStudySession deckName) s in
  connection_of s' = connection_of s
  /\ isStudyMode (ui s') = true.
Proof.
  intros Hsession s'. subst s'.
  pose proof (held_start s deckName (ex_intro _ session Hsession) s eq_refl) as Hstart.
  unfold exec. destruct (startStudySession deckName s) as [[[]|e] s1]; exact Hstart.
Qed.

End Starting.

(** ** The statements on concrete sessions *)

Import Scenario Scripted.

Ltac evaluate := vm_compute; reflexivity.

Ltac serviced_here := apply @serviced_exec; evaluate.

(** C1, counterexample. First session: the current card has an empty
    back text; the call is serviced and its [answered_card_back] is
    [null], not that text. Second session, on the demo deck: the card
    fetched by the call has the back text of the card just answered, and
    [answered_card_back] equals it. *)
Lemma answered_card_back_null_or_same_as_next :
  (@serviced (scripted blank) (studying blank) call_1 correct_args
     blank_output (graded blank correct_args)
   /\ back_text (currentCardRef (refs (studying blank))) = JStr EmptyString
   /\ prop_of blank_output "answered_card_back" = JNull
   /\ prop_of blank_output "answered_card_back"
      <> back_text (currentCardRef (refs (studying blank))))
  /\ (@serviced (scripted spanish) (demo_studying spanish) call_1 correct_args
        demo_output (demo_graded spanish correct_args)
      /\ prop_of demo_output "answered_card_back"
         = back_text (currentCardRef (refs (demo_graded spanish correct_args)))).
Proof.
  split.
  - split; [serviced_here|]. split; [evaluate|]. split; [evaluate|].
    vm_compute. discriminate.
  - split; [serviced_here|evaluate].
Qed.

(** C1, witness. *)
Lemma answered_card_back_of_previous_card_witness :
  @serviced (scripted spanish) (studying spanish) call_1 correct_args
    spanish_output (graded spanish correct_args)
  /\ prop_of spanish_output "answered_card_back" = JStr "hello"
  /\ prop_of spanish_output "answered_card_back" <> JStr "goodbye".
Proof.
  assert (Hs : @serviced (scripted spanish) (studying spanish) call_1 correct_args
                 spanish_output (graded spanish correct_args)) by serviced_here.
  destruct (answered_card_back_of_previous_card _ _ _ _ _ Hs) as (Hback & _ & Hnext).
  split; [exact Hs|]. split.
  - apply (Hback "hello"); [evaluate|discriminate].
  - apply (Hnext "goodbye"); [evaluate|vm_compute; discriminate].
Defined.

(** C2, counterexample. The head of the due queue has no note; the call
    is serviced although the queue is not empty, and the queue is as
    long afterwards as before. *)
Lemma missing_note_keeps_queue_length :
  @remote (scripted deleted) (studying deleted)
  /\ @serviced (scripted deleted) (studying deleted) call_1 correct_args
       end_output (graded deleted correct_args)
  /\ realQueueRef (refs (studying deleted)) = [1; 2]
  /\ realQueueRef (refs (graded deleted correct_args)) = [1; 2].
Proof.
  split; [evaluate|]. split; [serviced_here|]. split; evaluate.
Qed.

(** C2, witness. *)
Lemma serviced_call_advances_queue_witness :
  (@remote (scripted spanish) (studying spanish)
   /\ @serviced (scripted spanish) (studying spanish) call_1 correct_args
        spanish_output (graded spanish correct_args))
  /\ realQueueRef (refs (graded spanish correct_args)) = []
  /\ currentCardRef (refs (graded spanish correct_args)) = note 2 "adios" "goodbye"
  /\ currentCard (ui (graded spanish correct_args)) = note 2 "adios" "goodbye"
  /\ card_id (currentCardRef (refs (graded spanish correct_args))) = JNum 2
  /\ card_id (currentCardRef (refs (graded spanish correct_args)))
     <> card_id (currentCardRef (refs (studying spanish))).
Proof.
  assert (Hmode : @remote (scripted spanish) (studying spanish)) by evaluate.
  assert (Hs : @serviced (scripted spanish) (studying spanish) call_1 correct_args
                 spanish_output (graded spanish correct_args)) by serviced_here.
  assert (Hq : realQueueRef (refs (studying spanish)) = [2]) by evaluate.
  assert (Hserves : @serves (scripted spanish) 2).
  { intros []. eexists _, _, tt. split; evaluate. }
  assert (Hfound : @found (scripted spanish) 2).
  { intros []. eexists _, _, tt. evaluate. }
  assert (Hcard : @looks_up (scripted spanish) 2 (note 2 "adios" "goodbye")).
  { intros []. exists [], tt. reflexivity. }
  assert (Hdistinct : @distinct (scripted spanish) (studying spanish)).
  { split.
    - rewrite Hq. apply NoDup_singleton.
    - rewrite Hq. vm_compute. intros cardId Hid. inversion Hid; subst cardId.
      intros Hin. apply list_elem_of_singleton in Hin. discriminate. }
  destruct (serviced_call_advances_queue _ _ _ _ _ Hmode Hs) as (_ & Hpop & Hlook & Hids).
  destruct (Hpop 2 [] Hq Hfound) as (Hrest & _).
  destruct (Hlook 2 [] _ Hq Hcard) as (Hcurrent & Hshown).
  destruct (Hids 2 [] Hq Hserves Hdistinct) as (Hid & Hne & _).
  split; [split; [exact Hmode|exact Hs]|].
  split; [exact Hrest|]. split; [exact Hcurrent|]. split; [exact Hshown|].
  split; [exact Hid|exact Hne].
Defined.

(** C3, witness: no card is due, and the first call reports the end of
    the session at once. *)
Lemma next_card_is_sentinel_when_exhausted_witness :
  (@serviced (scripted nothing_due) (studying nothing_due) call_1 correct_args
     end_output (graded nothing_due correct_args)
   /\ @exhausted (scripted nothing_due) (studying nothing_due))
  /\ currentCard (ui (studying nothing_due)) = JNull
  /\ prop_of end_output "next_card" = END_OF_SESSION.
Proof.
  assert (Hs : @serviced (scripted nothing_due) (studying nothing_due) call_1 correct_args
                 end_output (graded nothing_due correct_args)) by serviced_here.
  assert (Hx : @exhausted (scripted nothing_due) (studying nothing_due)) by evaluate.
  split; [split; [exact Hs|exact Hx]|]. split; [evaluate|].
  exact (proj1 (next_card_is_sentinel_when_exhausted _ _ _ _ _ Hs Hx)).
Defined.

(** C4, counterexample. A verdict outside the enumeration: the call is
    serviced with status success, the value is put on display, the card
    is graded with ease 1, and the log has no error line. *)
Lemma unlisted_verdict_is_serviced :
  JSON_parse (Runtime := scripted spanish) maybe_args
  = Ok (JObj [("user_response_quality", JStr "maybe"); ("feedback_text", JStr "Close.")])
  /\ @serviced (scripted spanish) (studying spanish) call_1 maybe_args
       spanish_output (graded spanish maybe_args)
  /\ prop_of spanish_output "status" = JStr "success"
  /\ evaluation (ui (graded spanish maybe_args)) = JStr "maybe"
  /\ posted (env (graded spanish maybe_args))
     = posted (env (studying spanish))
         ++ [answerCards_request (JNum 1) 1; cardsInfo_request [2]]
  /\ debugInfo (ui (graded spanish maybe_args))
     = debugInfo (ui (studying spanish))
         +:+ nl +:+ "[Tool Executing] evaluate_and_move_next"
         +:+ nl +:+ "[Evaluation] maybe - Close."
         +:+ nl +:+ "[Tool Result] Next Card: Loaded".
Proof.
  split; [evaluate|]. split; [serviced_here|]. split; [evaluate|].
  split; [evaluate|]. split; evaluate.
Qed.

(** C4, witness: the verdict maybe is displayed and graded as
    incorrect; a verdict with an own [toString] property is neither
    displayed nor graded. *)
Lemma unlisted_verdict_is_graded_as_incorrect_witness :
  (evaluation (ui (graded spanish maybe_args)) = JStr "maybe"
   /\ exists later,
        posted (env (graded spanish maybe_args))
        = posted (env (studying spanish)) ++ answerCards_request (JNum 1) 1 :: later)
  /\ (evaluation (ui (graded spanish opaque_args)) = evaluation (ui (studying spanish))
      /\ posted (env (graded spanish opaque_args)) = posted (env (studying spanish))
      /\ sent (env (graded spanish opaque_args)) = sent (env (studying spanish))).
Proof.
  destruct (unlisted_verdict_is_graded_as_incorrect (R := scripted spanish)
              (studying spanish) (mkSession [0%nat; 1%nat]) call_1 maybe_args
              (JObj [("user_response_quality", JStr "maybe"); ("feedback_text", JStr "Close.")])
              (JStr "maybe"))
    as (Hshown & _ & _);
    [evaluate|evaluate|evaluate|evaluate|evaluate|evaluate|evaluate|].
  destruct (unlisted_verdict_is_graded_as_incorrect (R := scripted spanish)
              (studying spanish) (mkSession [0%nat; 1%nat]) call_1 opaque_args
              (JObj [("user_response_quality", JObj [("toString", JNum 1)]);
                     ("feedback_text", JStr "Close.")])
              (JObj [("toString", JNum 1)]))
    as (_ & Hhidden & _);
    [evaluate|evaluate|evaluate|evaluate|evaluate|evaluate|evaluate|].
  destruct (Hshown eq_refl eq_refl) as [Hev Hposted].
  destruct (Hhidden eq_refl) as (Hev' & _ & Hposted' & Hsent').
  unfold graded. split; [split; [exact Hev|exact (Hposted eq_refl)]|].
  split; [exact Hev'|]. split; [exact Hposted'|exact Hsent'].
Defined.

(** C5, counterexample. A verdict outside the enumeration: the handler
    takes the head off the due queue and replaces the current card. *)
Lemma unlisted_verdict_advances_queue :
  JSON_parse (Runtime := scripted spanish) partly_args
  = Ok (JObj [("user_response_quality", JStr "partly");
              ("feedback_text", JStr "Half of it.")])
  /\ realQueueRef (refs (studying spanish)) = [2]
  /\ realQueueRef (refs (graded spanish partly_args)) = []
  /\ card_id (currentCardRef (refs (studying spanish))) = JNum 1
  /\ card_id (currentCardRef (refs (graded spanish partly_args))) = JNum 2.
Proof.
  split; [evaluate|]. split; [evaluate|]. split; [evaluate|]. split; evaluate.
Qed.

(** C5, witness: the arguments break off in the middle. *)
Lemma unreadable_arguments_change_nothing_witness :
  refs (graded spanish truncated_args) = refs (studying spanish)
  /\ env (graded spanish truncated_args) = env (studying spanish)
  /\ debugInfo (ui (graded spanish truncated_args))
     = (debugInfo (ui (studying spanish)) +:+ nl +:+ "[Tool Executing] " +:+ TOOL)
         +:+ nl +:+ "Tool Error: SyntaxError: Unexpected token in JSON".
Proof.
  destruct (unreadable_arguments_change_nothing (R := scripted spanish)
              (studying spanish) call_1 truncated_args
              (mkError "SyntaxError" "Unexpected token in JSON"))
    as (_ & Hrefs & Henv & _ & _ & Hlog); [evaluate|].
  unfold graded. split; [exact Hrefs|]. split; [exact Henv|].
  apply Hlog; [vm_compute; discriminate|evaluate].
Defined.

(** The arguments are the JSON text null: reading the verdict throws,
    and the session is left as it was. *)
Example null_arguments_change_nothing :
  refs (graded spanish "null") = refs (studying spanish)
  /\ sent (env (graded spanish "null")) = sent (env (studying spanish))
  /\ posted (env (graded spanish "null")) = posted (env (studying spanish))
  /\ debugInfo (ui (graded spanish "null"))
     = (debugInfo (ui (studying spanish)) +:+ nl +:+ "[Tool Executing] " +:+ TOOL)
         +:+ nl +:+ "Tool Error: TypeError: Cannot read properties of null (reading 'user_response_quality')".
Proof. split; [evaluate|]. split; [evaluate|]. split; evaluate. Qed.

(** C6, witness: re-entry without a deck name into the session bound to
    the deck Spanish. *)
Lemma absent_deck_name_keeps_remote_binding_witness :
  activeDeckNameRef (refs (exec (startStudySession None) (studying spanish)))
  = Some "Spanish"
  /\ mockServiceRef (refs (exec (startStudySession None) (studying spanish)))
     = mockServiceRef (refs (studying spanish)).
Proof.
  destruct (absent_deck_name_keeps_remote_binding (R := scripted spanish)
              (studying spanish) None "Spanish")
    as (Hdeck & _ & Hsvc & _); [reflexivity|evaluate|discriminate|].
  split; [exact Hdeck|exact Hsvc].
Defined.

(** The teardown of the transport session throws, and both tracks of
    the stream that is held are stopped all the same. *)
Lemma disconnect_releases_microphone_witness :
  fst (session_disconnect (Runtime := scripted spanish) tt)
  = Throw (mkError "Error" "transport already closed")
  /\ liveTracks (env (studying spanish)) = [0%nat; 1%nat]
  /\ result disconnect (studying spanish) = Ok tt
  /\ (forall track, track ∈ [0%nat; 1%nat] ->
                    track ∉ liveTracks (env (exec disconnect (studying spanish)))).
Proof.
  destruct (disconnect_releases_microphone (R := scripted spanish)
              (studying spanish) (mkSession [0%nat; 1%nat]) [0%nat; 1%nat]
              (Throw (mkError "Error" "transport already closed")) tt)
    as (Hr & Htracks & _); try evaluate.
  split; [evaluate|]. split; [evaluate|]. split; [exact Hr|exact Htracks].
Defined.

(** C7. The code at the failing input: the transport refuses the first
    connection, [connect] is called again and accepted, and then
    [disconnect] is called while the session exists. It returns
    normally and stops the tracks 2 and 3 of the second capture; the
    tracks 0 and 1 of the first capture, whose stream the second
    [connect] overwrote in [streamRef], keep capturing. *)
Theorem disconnect_leaves_first_capture_live :
  (result (connect false) (Faulty.booted spanish) = Ok false
   /\ streamRef (refs (Faulty.refused spanish)) = Some [0%nat; 1%nat]
   /\ liveTracks (env (Faulty.refused spanish)) = [0%nat; 1%nat])
  /\ (result (connect false) (Faulty.refused spanish) = Ok true
      /\ is_Some (sessionRef (refs (Faulty.reconnected spanish)))
      /\ streamRef (refs (Faulty.reconnected spanish)) = Some [2%nat; 3%nat]
      /\ liveTracks (env (Faulty.reconnected spanish)) = [0%nat; 1%nat; 2%nat; 3%nat])
  /\ (result disconnect (Faulty.reconnected spanish) = Ok tt
      /\ sessionRef (refs (exec disconnect (Faulty.reconnected spanish))) = None
      /\ streamRef (refs (exec disconnect (Faulty.reconnected spanish))) = None
      /\ liveTracks (env (exec disconnect (Faulty.reconnected spanish))) = [0%nat; 1%nat]).
Proof.
  split; [split; [evaluate|split; evaluate]|].
  split; [split; [evaluate|split; [eexists; evaluate|split; evaluate]]|].
  split; [evaluate|]. split; [evaluate|]. split; evaluate.
Qed.

(** C8, counterexample. Right after mounting there is no session and no
    session-scoped state; disconnect changes the debug log. *)
Lemma disconnect_without_session_changes_log :
  sessionRef (refs (idle spanish)) = None
  /\ streamRef (refs (idle spanish)) = None
  /\ activeDeckNameRef (refs (idle spanish)) = None
  /\ debugInfo (ui (idle spanish)) = EmptyString
  /\ debugInfo (ui (exec disconnect (idle spanish))) = nl +:+ "Disconnected."
  /\ exec disconnect (idle spanish) <> idle spanish.
Proof.
  split; [reflexivity|]. split; [reflexivity|]. split; [reflexivity|].
  split; [reflexivity|]. split; [evaluate|].
  intros Heq. apply (f_equal (fun s => debugInfo (ui s))) in Heq.
  vm_compute in Heq. discriminate.
Qed.

(** C8, witness. *)
Lemma disconnect_without_session_only_logs_witness :
  disconnect (idle spanish) = (Ok tt, logged "Disconnected." (idle spanish)).
Proof.
  apply (disconnect_without_session_only_logs (R := scripted spanish)); reflexivity.
Defined.

(** C9, counterexample. The empty text arrives as a verdict: the
    handler puts it on display, the effect starts no timer for a falsy
    value, and the display still shows it, not [null], 3000
    milliseconds later. And the verdict correct arrives again 2000
    milliseconds after it was displayed: the display is [null] 1000
    milliseconds after it was set the second time. *)
Lemma blank_or_repeated_verdict_misses_the_window :
  (evaluation (ui (graded spanish blank_args)) = JStr EmptyString
   /\ Badge.evaluation (Badge.setEvaluation (JStr EmptyString) Badge.mount) = JStr EmptyString
   /\ Badge.pending (Badge.setEvaluation (JStr EmptyString) Badge.mount) = None
   /\ Badge.evaluation (Badge.elapse 3000 (Badge.setEvaluation (JStr EmptyString) Badge.mount))
      <> JNull)
  /\ (Badge.evaluation
        (Badge.setEvaluation (JStr "correct")
           (Badge.elapse 2000 (Badge.setEvaluation (JStr "correct") Badge.mount)))
      = JStr "correct"
      /\ Badge.evaluation
           (Badge.elapse 1000
              (Badge.setEvaluation (JStr "correct")
                 (Badge.elapse 2000 (Badge.setEvaluation (JStr "correct") Badge.mount))))
         = JNull).
Proof.
  split; [split; [evaluate|split; [reflexivity|split; [reflexivity|discriminate]]]|].
  split; reflexivity.
Qed.

(** C9, witness: the verdict incorrect arrives 2000 milliseconds after
    the verdict correct was displayed, and is shown for its own 3000
    milliseconds. *)
Lemma verdict_clears_three_seconds_after_change_witness :
  Badge.evaluation
    (Badge.setEvaluation (JStr "incorrect")
       (Badge.elapse 2000 (Badge.setEvaluation (JStr "correct") Badge.mount)))
  = JStr "incorrect"
  /\ Badge.evaluation
       (Badge.elapse 2999
          (Badge.setEvaluation (JStr "incorrect")
             (Badge.elapse 2000 (Badge.setEvaluation (JStr "correct") Badge.mount))))
     = JStr "incorrect"
  /\ Badge.evaluation
       (Badge.elapse 3000
          (Badge.setEvaluation (JStr "incorrect")
             (Badge.elapse 2000 (Badge.setEvaluation (JStr "correct") Badge.mount))))
     = JNull.
Proof.
  destruct (verdict_clears_three_seconds_after_change
              (Badge.elapse 2000 (Badge.setEvaluation (JStr "correct") Badge.mount))
              (JStr "incorrect"))
    as (Hshown & Htimer & _); [reflexivity|].
  destruct (Htimer eq_refl) as [Hbefore Hafter].
  split; [exact Hshown|]. split.
  - apply Hbefore. unfold Badge.DELAY. lia.
  - apply Hafter. unfold Badge.DELAY. lia.
Defined.

(** C10, witness: the first due card has no note. *)
Lemma missing_head_reports_end_and_is_retried_witness :
  (@remote (scripted deleted) (studying deleted)
   /\ realQueueRef (refs (studying deleted)) = [1; 2]
   /\ @missing (scripted deleted) 1)
  /\ prop_of end_output "next_card" = END_OF_SESSION
  /\ realQueueRef (refs (graded deleted correct_args)) = [1; 2]
  /\ posted (env (exec fetchNextCardInternal (graded deleted correct_args)))
     = posted (env (graded deleted correct_args)) ++ [cardsInfo_request [1]].
Proof.
  assert (Hmode : @remote (scripted deleted) (studying deleted)) by evaluate.
  assert (Hq : realQueueRef (refs (studying deleted)) = [1; 2]) by evaluate.
  assert (Hmissing : @missing (scripted deleted) 1).
  { intros []. exists tt. evaluate. }
  assert (Hs : @serviced (scripted deleted) (studying deleted) call_1 correct_args
                 end_output (graded deleted correct_args)) by serviced_here.
  destruct (missing_head_reports_end_and_is_retried _ 1 [2] Hmode Hq Hmissing) as (_ & Hcall).
  destruct (Hcall _ _ _ _ Hs) as (Hend & Hq' & _ & _ & _ & _ & Hretry).
  split; [split; [exact Hmode|split; [exact Hq|exact Hmissing]]|].
  split; [exact Hend|]. split; [exact Hq'|exact Hretry].
Defined.

(** The demo deck: [startStudySession] fetches the first card and then
    restarts the demo service, so the first call is answered with the
    first card once more. *)
Example demo_first_call_serves_first_card_again :
  card_id (currentCardRef (refs (demo_studying spanish))) = JStr "c1"
  /\ card_id (currentCardRef (refs (demo_graded spanish correct_args))) = JStr "c1"
  /\ AnkiService.currentIndex (mockServiceRef (refs (demo_studying spanish))) = 0%nat
  /\ AnkiService.currentIndex (mockServiceRef (refs (demo_graded spanish correct_args))) = 1%nat.
Proof. split; [evaluate|]. split; [evaluate|]. split; evaluate. Qed.

(** ** The rest of the hook on concrete sessions *)

(** X2, witness: the build has no API key. *)
Lemma connect_without_key_touches_nothing_witness :
  result (connect false) (Faulty.idle spanish Faulty.keyless) = Ok false
  /\ refs (exec (connect false) (Faulty.idle spanish Faulty.keyless))
     = refs (Faulty.idle spanish Faulty.keyless)
  /\ error (ui (exec (connect false) (Faulty.idle spanish Faulty.keyless)))
     = Some "VITE_OPENAI_API_KEY not found".
Proof.
  destruct (connect_without_key_touches_nothing
              (R := Faulty.failing spanish Faulty.keyless) false
              (Faulty.idle spanish Faulty.keyless))
    as (Hr & Hrefs & _ & He & _); [reflexivity|].
  split; [exact Hr|]. split; [exact Hrefs|exact He].
Defined.

(** X3, witness: the browser refuses the microphone. *)
Lemma connect_without_microphone_witness :
  result (connect false) (Faulty.idle Faulty.muted Faulty.sound) = Ok false
  /\ error (ui (exec (connect false) (Faulty.idle Faulty.muted Faulty.sound)))
     = Some "Permission denied"
  /\ liveTracks (env (exec (connect false) (Faulty.idle Faulty.muted Faulty.sound))) = [].
Proof.
  destruct (connect_without_microphone
              (R := Faulty.failing Faulty.muted Faulty.sound) false
              (Faulty.idle Faulty.muted Faulty.sound)
              (mkError "NotAllowedError" "Permission denied") tt)
    as (Hr & _ & Hlive & _ & He & _); [reflexivity|reflexivity|].
  split; [exact Hr|]. split; [exact He|exact Hlive].
Defined.

(** X4, witness: the transport refuses to connect. *)
Lemma connect_failure_keeps_microphone_witness :
  result (connect false) (Faulty.idle spanish Faulty.unreachable) = Ok false
  /\ streamRef (refs (exec (connect false) (Faulty.idle spanish Faulty.unreachable)))
     = Some [0%nat; 1%nat]
  /\ liveTracks (env (exec (connect false) (Faulty.idle spanish Faulty.unreachable)))
     = [0%nat; 1%nat]
  /\ error (ui (exec (connect false) (Faulty.idle spanish Faulty.unreachable)))
     = Some "Failed to connect".
Proof.
  destruct (connect_failure_keeps_microphone
              (R := Faulty.failing spanish Faulty.unreachable) false
              (Faulty.idle spanish Faulty.unreachable) [0%nat; 1%nat]
              (mkError "Error" "Failed to connect") tt tt)
    as (Hr & Hstream & _ & Hlive & _ & _ & He); [reflexivity|reflexivity|reflexivity|].
  split; [exact Hr|]. split; [exact Hstream|]. split; [exact Hlive|exact He].
Defined.

(** X5, witness: the connection succeeds and the agent is greeted. *)
Lemma connect_success_witness :
  result (connect false) (idle spanish) = Ok true
  /\ sent (env (exec (connect false) (idle spanish)))
     = [SessionUpdateGreeting SayHello; ResponseCreate]
  /\ sent (env (exec (connect true) (idle spanish))) = [].
Proof.
  destruct (connect_success (R := scripted spanish) false (idle spanish) [0%nat; 1%nat] tt tt)
    as (Hr & _ & _ & _ & Hsent & _); [reflexivity|reflexivity|reflexivity|].
  destruct (connect_success (R := scripted spanish) true (idle spanish) [0%nat; 1%nat] tt tt)
    as (_ & _ & _ & _ & Hsilent & _); [reflexivity|reflexivity|reflexivity|].
  split; [exact Hr|]. split; [exact Hsent|exact Hsilent].
Defined.

(** X10, witness: the transcript of what the user said arrives. *)
Lemma other_events_only_log_and_register_witness :
  env (exec (handleTransportEvent (InputAudioTranscriptionCompleted "hello"))
         (studying spanish))
  = env (studying spanish)
  /\ realQueueRef
       (refs (exec (handleTransportEvent (InputAudioTranscriptionCompleted "hello"))
                (studying spanish)))
     = realQueueRef (refs (studying spanish)).
Proof.
  destruct (other_events_only_log_and_register (R := scripted spanish)
              (InputAudioTranscriptionCompleted "hello") (studying spanish))
    as (Henv & _ & Hrefs); [reflexivity|].
  split; [exact Henv|]. exact (f_equal realQueueRef Hrefs).
Defined.

(** X21, witness: the transport refuses to connect, and the tracks that
    were left capturing are stopped by [disconnect]. *)
Lemma disconnect_after_connect_releases_microphone_witness :
  liveTracks (env (exec (connect false) (Faulty.idle spanish Faulty.unreachable)))
  = [0%nat; 1%nat]
  /\ (forall track, track ∈ [0%nat; 1%nat] ->
        track ∉ liveTracks
                  (env (exec disconnect
                          (exec (connect false) (Faulty.idle spanish Faulty.unreachable))))).
Proof.
  destruct (disconnect_after_connect_releases_microphone
              (R := Faulty.failing spanish Faulty.unreachable) false
              (Faulty.idle spanish Faulty.unreachable) [0%nat; 1%nat] tt)
    as (_ & Hstopped & _); [reflexivity|reflexivity|].
  split; [reflexivity|exact Hstopped].
Defined.

(** X13, witness: a call is announced and completed on the demo deck. *)
Lemma demo_events_never_reach_anki_witness :
  posted (env (deliver [announced_call; FunctionCallArgumentsDone call_1 correct_args]
                 (exec (startStudySession None) (exec (connect false) (idle spanish)))))
  = [].
Proof.
  destruct (demo_events_never_reach_anki (R := scripted spanish)
              [announced_call; FunctionCallArgumentsDone call_1 correct_args]
              (exec (startStudySession None) (exec (connect false) (idle spanish))))
    as (Hposted & _); [evaluate|].
  rewrite Hposted. evaluate.
Defined.

(** X14, witness: the first call on the demo deck. *)
Lemma demo_call_is_serviced_witness :
  @serviced (scripted spanish) (demo_studying spanish) call_1 correct_args
    (tool_output (js_or (back_text (currentCardRef (refs (demo_studying spanish)))) JNull)
       (match under_cursor (demo_studying spanish) with
        | Some c => faces c
        | None => END_OF_SESSION
        end))
    (demo_graded spanish correct_args)
  /\ AnkiService.currentIndex (mockServiceRef (refs (demo_graded spanish correct_args)))
     = 1%nat.
Proof.
  destruct (demo_call_is_serviced (R := scripted spanish)
              (demo_studying spanish) (mkSession [0%nat; 1%nat]) call_1 correct_args
              (JObj [("user_response_quality", JStr "correct");
                     ("feedback_text", JStr "Right.")]))
    as (Hs & _); try evaluate.
  split; [exact Hs|evaluate].
Defined.

(** X15, witness: the arguments of a call that was never announced. *)
Lemma call_not_announced_as_tool_is_not_executed_witness :
  refs (exec (handleTransportEvent (FunctionCallArgumentsDone "call_2" correct_args))
          (studying spanish))
  = refs (studying spanish)
  /\ env (exec (handleTransportEvent (FunctionCallArgumentsDone "call_2" correct_args))
            (studying spanish))
     = env (studying spanish).
Proof.
  destruct (call_not_announced_as_tool_is_not_executed (R := scripted spanish)
              (studying spanish) "call_2" correct_args)
    as (Hrefs & Henv & _); [vm_compute; discriminate|].
  split; [exact Hrefs|exact Henv].
Defined.

(** X16, witness: the first card of the deck Spanish is answered
    correctly. *)
Lemma call_grades_then_looks_up_witness :
  posted (env (graded spanish correct_args))
  = posted (env (studying spanish))
      ++ [answerCards_request (JNum 1) 3; cardsInfo_request [2]].
Proof.
  destruct (call_grades_then_looks_up (R := scripted spanish)
              (studying spanish) (mkSession [0%nat; 1%nat]) call_1 correct_args
              (JObj [("user_response_quality", JStr "correct");
                     ("feedback_text", JStr "Right.")])
              (JStr "correct") 2 [])
    as (_ & Hposted);
    [evaluate|evaluate|evaluate|evaluate|reflexivity|reflexivity|evaluate|evaluate|evaluate
    |evaluate| |].
  - intros payload []. exists [true], tt. reflexivity.
  - unfold graded. rewrite (Hposted eq_refl). evaluate.
Defined.

(** X17, witness: AnkiConnect rejects the grading of the first card. *)
Lemma rejected_grading_leaves_call_unanswered_witness :
  sent (env (exec (handleTransportEvent (FunctionCallArgumentsDone call_1 correct_args))
               (Faulty.studying spanish Faulty.ungraded)))
  = sent (env (Faulty.studying spanish Faulty.ungraded))
  /\ refs (exec (handleTransportEvent (FunctionCallArgumentsDone call_1 correct_args))
            (Faulty.studying spanish Faulty.ungraded))
     = refs (Faulty.studying spanish Faulty.ungraded)
  /\ evaluation
       (ui (exec (handleTransportEvent (FunctionCallArgumentsDone call_1 correct_args))
              (Faulty.studying spanish Faulty.ungraded)))
     = JStr "correct".
Proof.
  destruct (rejected_grading_leaves_call_unanswered
              (R := Faulty.failing spanish Faulty.ungraded)
              (Faulty.studying spanish Faulty.ungraded) (mkSession [0%nat; 1%nat])
              call_1 correct_args
              (JObj [("user_response_quality", JStr "correct");
                     ("feedback_text", JStr "Right.")])
              (JStr "correct") "correct" "Right."
              (mkError "Error" "collection is not available") tt)
    as (_ & Hsent & Hrefs & _ & Hverdict & _);
    [evaluate|evaluate|evaluate|evaluate|reflexivity|reflexivity|evaluate|evaluate|evaluate
    |evaluate|].
  split; [exact Hsent|]. split; [exact Hrefs|exact Hverdict].
Defined.

(** X18, witness: the second due card comes back without its fields. *)
Lemma unreadable_next_card_is_consumed_unanswered_witness :
  sent (env (graded Faulty.bare correct_args)) = sent (env (studying Faulty.bare))
  /\ realQueueRef (refs (studying Faulty.bare)) = [2]
  /\ realQueueRef (refs (graded Faulty.bare correct_args)) = []
  /\ currentCardRef (refs (graded Faulty.bare correct_args)) = JObj [("cardId", JNum 2)].
Proof.
  destruct (unreadable_next_card_is_consumed_unanswered (R := scripted Faulty.bare)
              (studying Faulty.bare) (mkSession [0%nat; 1%nat]) call_1 correct_args
              (JObj [("user_response_quality", JStr "correct");
                     ("feedback_text", JStr "Right.")])
              (JStr "correct") "correct" "Right." 2 [] (JObj [("cardId", JNum 2)])
              (type_error JUndefined "Front"))
    as (_ & Hsent & Hq & Hcard & _);
    [evaluate|evaluate|evaluate|evaluate|reflexivity|reflexivity|evaluate|evaluate|evaluate
    | | |evaluate|].
  - intros payload []. exists [true], tt. reflexivity.
  - intros []. exists [], tt. reflexivity.
  - unfold graded. split; [exact Hsent|]. split; [evaluate|]. split; [exact Hq|exact Hcard].
Defined.

(** X19, witness: the only due card was served at the start, and two
    more calls arrive. *)
Lemma calls_after_the_last_card_grade_it_again_witness :
  posted (env (deliver [FunctionCallArgumentsDone call_1 correct_args;
                        FunctionCallArgumentsDone call_1 correct_args]
                 (studying Faulty.single)))
  = posted (env (studying Faulty.single))
      ++ [answerCards_request (JNum 1) 3; answerCards_request (JNum 1) 3].
Proof.
  destruct (calls_after_the_last_card_grade_it_again (R := scripted Faulty.single)
              (studying Faulty.single) (mkSession [0%nat; 1%nat]) call_1 correct_args
              (JObj [("user_response_quality", JStr "correct");
                     ("feedback_text", JStr "Right.")]) 2)
    as (_ & Hposted);
    [evaluate|evaluate|evaluate|evaluate|reflexivity|reflexivity|evaluate|evaluate|evaluate
    |evaluate| |].
  - intros payload []. exists [true], tt. reflexivity.
  - simpl replicate in Hposted. rewrite Hposted. evaluate.
Defined.

(** X22, witness: the demo is started on a connected session. *)
Lemma demo_start_rewinds_after_fetching_witness :
  sent (env (exec (startStudySession None) (exec (connect true) (idle spanish))))
  = [SessionUpdateStudy DemoTutorPrompt [TOOL]; ItemCreateMessage "Start Demo.";
     ResponseCreate]
  /\ AnkiService.currentIndex
       (mockServiceRef (refs (exec (startStudySession None) (exec (connect true) (idle spanish)))))
     = 0%nat
  /\ card_id
       (currentCardRef (refs (exec (startStudySession None) (exec (connect true) (idle spanish)))))
     = JStr "c1".
Proof.
  destruct (demo_start_rewinds_after_fetching (R := scripted spanish)
              (exec (connect true) (idle spanish)) (mkSession [0%nat; 1%nat]) None)
    as (_ & Hsent & _ & _ & _ & Hcursor & Hcard); [evaluate|reflexivity|evaluate|].
  split; [rewrite Hsent; evaluate|]. split; [exact Hcursor|]. rewrite Hcard. evaluate.
Defined.

(** X23, witness: AnkiConnect is not running when the session on the
    deck Spanish is started. *)
Lemma failed_listing_starts_a_silent_session_witness :
  sent (env (exec (startStudySession (Some "Spanish"))
               (Faulty.connected spanish Faulty.unlisted)))
  = sent (env (Faulty.connected spanish Faulty.unlisted))
  /\ isStudyMode (ui (exec (startStudySession (Some "Spanish"))
                        (Faulty.connected spanish Faulty.unlisted)))
     = true
  /\ activeDeckNameRef (refs (exec (startStudySession (Some "Spanish"))
                                (Faulty.connected spanish Faulty.unlisted)))
     = Some "Spanish".
Proof.
  destruct (failed_listing_starts_a_silent_session
              (R := Faulty.failing spanish Faulty.unlisted)
              (Faulty.connected spanish Faulty.unlisted) (mkSession [0%nat; 1%nat])
              "Spanish" (mkError "TypeError" "Failed to fetch") tt)
    as (_ & Hsent & _ & Hstudy & Hdeck & _); [evaluate|discriminate|evaluate|reflexivity|].
  split; [exact Hsent|]. split; [exact Hstudy|exact Hdeck].
Defined.

(** X24, witness: a study session is started right after mounting, in
    a build without API key. *)
Lemma failed_auto_connect_aborts_start_witness :
  result (startStudySession (Some "Spanish")) (Faulty.idle spanish Faulty.keyless) = Ok tt
  /\ isStudyMode (ui (exec (startStudySession (Some "Spanish"))
                        (Faulty.idle spanish Faulty.keyless)))
     = false
  /\ activeDeckNameRef (refs (exec (startStudySession (Some "Spanish"))
                                (Faulty.idle spanish Faulty.keyless)))
     = None
  /\ posted (env (exec (startStudySession (Some "Spanish"))
                    (Faulty.idle spanish Faulty.keyless)))
     = [].
Proof.
  destruct (failed_auto_connect_aborts_start (R := Faulty.failing spanish Faulty.keyless)
              (Faulty.idle spanish Faulty.keyless) (Some "Spanish"))
    as (Hr & Hstudy & _ & Hdeck & _ & _ & _ & _ & Hposted); [reflexivity|evaluate|].
  split; [exact Hr|]. split; [exact Hstudy|]. split; [exact Hdeck|exact Hposted].
Defined.

(** X25, witness: the session on the deck Spanish is started on a
    connected session, in the morning. *)
Lemma remote_start_queues_the_due_cards_witness :
  realQueueRef (refs (exec (startStudySession (Some "Spanish"))
                        (exec (connect true) (idle spanish))))
  = [2]
  /\ posted (env (exec (startStudySession (Some "Spanish"))
                    (exec (connect true) (idle spanish))))
     = [findDueCards_request "Spanish"; cardsInfo_request [1]]
  /\ sent (env (exec (startStudySession (Some "Spanish"))
                  (exec (connect true) (idle spanish))))
     = [SessionUpdateStudy
          (AtomicTurnPrompt "Good morning! We are studying Spanish from Anki. 2 cards due.")
          [TOOL];
        ItemCreateMessage (opening_message "hola" "hello");
        ResponseCreate].
Proof.
  destruct (remote_start_queues_the_due_cards (R := scripted spanish)
              (exec (connect true) (idle spanish)) (mkSession [0%nat; 1%nat]) "Spanish"
              1 [2] (note 1 "hola" "hello")
              (JObj [("front", JStr "hola"); ("back", JStr "hello")]) "hola" "hello")
    as (_ & _ & Hq & _ & _ & _ & Hposted & Hsent);
    [evaluate|discriminate|evaluate| | |reflexivity|reflexivity|reflexivity|].
  - intros []. exists tt. reflexivity.
  - intros []. exists [], tt. reflexivity.
  - split; [exact Hq|]. split; [rewrite Hposted; evaluate|]. rewrite Hsent. evaluate.
Defined.

(** X26, witness: the session on the deck Spanish is in good order
    after the call was announced and serviced. *)
Lemma started_session_stays_ordered_witness :
  @studying_on (scripted spanish) "Spanish"
    (deliver [announced_call; FunctionCallArgumentsDone call_1 correct_args]
       (exec (startStudySession (Some "Spanish")) (exec (connect false) (idle spanish)))).
Proof.
  apply (started_session_stays_ordered (R := scripted spanish) "Spanish") with (due := [1; 2]).
  - discriminate.
  - vm_compute. discriminate.
  - intros []. exists tt. reflexivity.
  - apply NoDup_cons. split; [|apply NoDup_singleton].
    intros Hin. apply list_elem_of_singleton in Hin. discriminate.
  - intros cardId Hin. apply elem_of_cons in Hin as [->|Hin];
      [|apply list_elem_of_singleton in Hin; subst cardId];
      intros []; eexists _, _, tt; split; evaluate.
  - evaluate.
Defined.

(** X27, witness: nothing is due, and the agent calls the tool. *)
Lemma exhausted_call_is_serviced_witness :
  @serviced (scripted nothing_due) (studying nothing_due) call_1 correct_args
    (tool_output (js_or (back_text (currentCardRef (refs (studying nothing_due)))) JNull)
       END_OF_SESSION)
    (graded nothing_due correct_args).
Proof.
  apply (exhausted_call_is_serviced (R := scripted nothing_due)
           (studying nothing_due) (mkSession [0%nat; 1%nat]) call_1 correct_args
           (JObj [("user_response_quality", JStr "correct");
                  ("feedback_text", JStr "Right.")]) "correct" "Right."); evaluate.
Defined.

(** X28, witness: the transport refused to connect, and the demo is
    started on the session that [connect] left behind. *)
Lemma start_on_held_session_never_connects_witness :
  isConnected (ui (Faulty.connected spanish Faulty.unreachable)) = false
  /\ isConnected (ui (exec (startStudySession None)
                        (Faulty.connected spanish Faulty.unreachable)))
     = isConnected (ui (Faulty.connected spanish Faulty.unreachable))
  /\ isStudyMode (ui (exec (startStudySession None)
                        (Faulty.connected spanish Faulty.unreachable)))
     = true.
Proof.
  destruct (start_on_held_session_never_connects
              (R := Faulty.failing spanish Faulty.unreachable)
              (Faulty.connected spanish Faulty.unreachable) None (mkSession [0%nat; 1%nat]))
    as (Hconnection & Hstudy); [evaluate|].
  split; [evaluate|]. split; [|exact Hstudy].
  exact (f_equal (fun c => c.2.1.1) Hconnection).
Defined.

(** X29, witness: connect is called twice, then disconnect; the tracks
    0 and 1 of the first capture keep capturing. *)
Lemma second_connect_orphans_first_stream_witness :
  liveTracks (env (exec disconnect
                     (exec (connect false) (exec (connect false) (Faulty.mounted spanish)))))
  = [0%nat; 1%nat]
  /\ (forall track, track ∈ [0%nat; 1%nat] -> track ∉ [2%nat; 3%nat] ->
        track ∈ liveTracks
                  (env (exec disconnect
                          (exec (connect false)
                             (exec (connect false) (Faulty.mounted spanish)))))).
Proof.
  destruct (second_connect_orphans_first_stream (R := Faulty.recapturing spanish)
              false false (Faulty.mounted spanish) [0%nat; 1%nat] [2%nat; 3%nat]
              1%nat 2%nat)
    as (_ & _ & Horphans); [reflexivity|reflexivity|evaluate|].
  split; [evaluate|exact Horphans].
Defined.
